(** * morph::VisualOwnable: scene state, input callbacks, renderable registry

    A shallow embedding of the windowing-agnostic scene class of
    [morph/VisualOwnable.h]: its member data as a record, its input callbacks
    ([key_callback], [cursor_position_callback], [mouse_button_callback],
    [scroll_callback]) as functions on that record, the renderable registry
    ([addVisualModel], [validVisualModel], [removeVisualModel]), the pixel
    loop of [saveImage], the view-snapshot load of [init_gl], the view
    setters ([setSceneTrans] and its relatives), the window callbacks and
    the life of the shader programs ([init_gl], [render],
    [deconstructCommon]).

    The C++ [float] and [double] are IEEE binary32 and binary64 values of
    [SpecFloat], so every literal and every rounding of the source is
    evaluated as the compiled program evaluates it.  What the class takes
    from other headers is a parameter of the development (key codes, matrix
    and quaternion primitives, the methods of a visual model) or, for the
    componentwise arithmetic of [morph::vec], modelled from the
    specification.  Text written to stdout/stderr and files written to disk
    are not part of the modelled state. *)

From Stdlib Require Import ZArith Lia SpecFloat.
From stdpp Require Import base list strings.

(** ** Arithmetic of the C++ scalar types *)

Definition float := spec_float.
Definition double := spec_float.

#[global] Instance spec_float_eq_dec : EqDecision spec_float.
Proof. solve_decision. Defined.

Module f64.
Definition prec : Z := 53.
Definition emax : Z := 1024.
Definition of_Z (z : Z) : double := binary_normalize prec emax z 0 false.
(** [float] to [double] promotion (exact). *)
Definition of_float (x : float) : double :=
  match x with
  | S754_finite sg m e => binary_round prec emax sg m e
  | _ => x
  end.
Definition add : double → double → double := SFadd prec emax.
Definition sub : double → double → double := SFsub prec emax.
Definition mul : double → double → double := SFmul prec emax.
Definition div : double → double → double := SFdiv prec emax.
Definition ltb : double → double → bool := SFltb.
End f64.

Module f32.
Definition prec : Z := 24.
Definition emax : Z := 128.
(** [static_cast<float>] of an integer. *)
Definition of_Z (z : Z) : float := binary_normalize prec emax z 0 false.
(** [static_cast<float>] of a [double]: round to nearest, ties to even. *)
Definition of_double (d : double) : float :=
  match d with
  | S754_finite sg m e => binary_round prec emax sg m e
  | _ => d
  end.
Definition add : float → float → float := SFadd prec emax.
Definition sub : float → float → float := SFsub prec emax.
Definition mul : float → float → float := SFmul prec emax.
Definition div : float → float → float := SFdiv prec emax.
Definition opp : float → float := SFopp.
Definition ltb : float → float → bool := SFltb.
Definition leb : float → float → bool := SFleb.
(** A decimal literal [n/d f]: the binary32 value nearest to [n/d]
    (both [n] and [d] are exactly representable, and the division is
    correctly rounded). *)
Definition lit (n d : Z) : float := div (of_Z n) (of_Z d).
Definition zero : float := S754_zero false.
Definition one : float := of_Z 1.
End f32.

(** [INT_MAX] of a 32-bit [int] (the type of [GLint] and of the loop
    counters of [saveImage]). *)
Definition INT_MAX : Z := 2147483647.

(** ** morph::vec<float, N>, morph::quaternion<float> and morph::mat44<float>

    [morph/vec.h], [morph/quaternion.h] and [morph/mat44.h] are headers of
    their own.  The data below is what [VisualOwnable] uses of them: the
    components, read and assigned by index or by name. *)

Module vec2.
Record t : Type := mk { x : float; y : float }.
(** Modelled from the spec: [v + s] and [v - s] of [morph/vec.h] for a
    [double] scalar [s], acting on every component ("rescale
    ortho_lb/ortho_rt by +-yoffset x step", section 4.2); each component is
    promoted, combined in [double] and stored back as [float]. *)
Definition add_double (v : t) (s : double) : t :=
  mk (f32.of_double (f64.add (f64.of_float (x v)) s))
     (f32.of_double (f64.add (f64.of_float (y v)) s)).
Definition sub_double (v : t) (s : double) : t :=
  mk (f32.of_double (f64.sub (f64.of_float (x v)) s))
     (f32.of_double (f64.sub (f64.of_float (y v)) s)).
(** Modelled from the spec: [v -= s] and [v /= s] of [morph/vec.h] for a
    [float] scalar, "centering and scaling" both axes by one factor
    (section 4.2). *)
Definition sub_scalar (v : t) (s : float) : t := mk (f32.sub (x v) s) (f32.sub (y v) s).
Definition div_scalar (v : t) (s : float) : t := mk (f32.div (x v) s) (f32.div (y v) s).
(** Modelled from the spec: the comparisons [v < s] and [v > s] of
    [morph/vec.h] hold when they hold for every component ("ortho_lb < 0 <
    ortho_rt componentwise", section 3). *)
Definition lt_scalar (v : t) (s : float) : bool := f32.ltb (x v) s && f32.ltb (y v) s.
Definition gt_scalar (v : t) (s : float) : bool := f32.ltb s (x v) && f32.ltb s (y v).
End vec2.

Module vec3.
Record t : Type := mk { x : float; y : float; z : float }.
Definition set_x (a : float) (v : t) : t := mk a (y v) (z v).
Definition set_y (a : float) (v : t) : t := mk (x v) a (z v).
Definition set_z (a : float) (v : t) : t := mk (x v) (y v) a.
(** Modelled from the spec: [v * s] of [morph/vec.h], on every component. *)
Definition mul_scalar (v : t) (s : float) : t :=
  mk (f32.mul (x v) s) (f32.mul (y v) s) (f32.mul (z v) s).
End vec3.

Module vec4.
Record t : Type := mk { x : float; y : float; z : float; w : float }.
Definition set_x (a : float) (v : t) : t := mk a (y v) (z v) (w v).
Definition set_z (a : float) (v : t) : t := mk (x v) (y v) a (w v).
(** Modelled from the spec: [u += v] of [morph/vec.h], component by
    component ("accumulated into cyl_cam_pos", section 4.2). *)
Definition add (u v : t) : t :=
  mk (f32.add (x u) (x v)) (f32.add (y u) (y v)) (f32.add (z u) (z v)) (f32.add (w u) (w v)).
(** [vec<float,3>::set_from (vec<float,4>)]: the first three components. *)
Definition to_vec3 (v : t) : vec3.t := vec3.mk (x v) (y v) (z v).
End vec4.

Module quaternion.
Record t : Type := mk { w : float; x : float; y : float; z : float }.
Definition set_w (a : float) (q : t) : t := mk a (x q) (y q) (z q).
Definition set_x (a : float) (q : t) : t := mk (w q) a (y q) (z q).
Definition set_y (a : float) (q : t) : t := mk (w q) (x q) a (z q).
Definition set_z (a : float) (q : t) : t := mk (w q) (x q) (y q) a.
(** The default-constructed quaternion is the identity rotation. *)
Definition identity : t := mk f32.one f32.zero f32.zero f32.zero.
End quaternion.

Module mat44.
(** Sixteen floats, column-major. *)
Record t : Type := mk { mat : list float }.
Definition identity : t :=
  let o := f32.one in let z := f32.zero in
  mk [o; z; z; z;  z; o; z; z;  z; z; o; z;  z; z; z; o].
End mat44.

(** The matrix, quaternion and vector-norm primitives the callbacks call.
    Their bodies are in the headers named above, so they are a parameter:
    the callbacks are verified for every implementation of them. *)
Record transform_ops : Type := {
  (** [m.rotate (q)] *)
  mat44_rotate : mat44.t → quaternion.t → mat44.t;
  (** [m.invert()] *)
  mat44_invert : mat44.t → mat44.t;
  (** [m * v] for a four-vector and for a three-vector *)
  mat44_mul_vec4 : mat44.t → vec4.t → vec4.t;
  mat44_mul_vec3 : mat44.t → vec3.t → vec4.t;
  (** [v.length()] and [v.renormalize()] *)
  vec3_length : vec3.t → float;
  vec3_renormalize : vec3.t → vec3.t;
  (** [quaternion<float> (axis, angle)] and [q.postmultiply (r)] *)
  quaternion_axis_angle : vec3.t → float → quaternion.t;
  quaternion_postmultiply : quaternion.t → quaternion.t → quaternion.t;
  (** [morph::mathconst<float>::deg2rad] *)
  deg2rad : float
}.

(** ** Enumerations and key codes *)

(** Whether to render with perspective or orthographic (or even a
    cylindrical projection). *)
Inductive perspective_type : Type := perspective | orthographic | cylindrical.

#[global] Instance perspective_type_eq_dec : EqDecision perspective_type.
Proof. solve_decision. Defined.

(** The names of [morph::key] that [key_callback] tests. *)
Module key.
Inductive name : Type :=
| q | c | h | l | s | m | z
| f1 | f2 | f3 | f4 | f5 | f6 | f7 | f8 | f9 | f10
| left | right | up | down
| a | o | p | u | i | y.

Definition all : list name :=
  [q; c; h; l; s; m; z; f1; f2; f3; f4; f5; f6; f7; f8; f9; f10;
   left; right; up; down; a; o; p; u; i; y].

Definition eqb (k1 k2 : name) : bool :=
  match k1, k2 with
  | q, q | c, c | h, h | l, l | s, s | m, m | z, z
  | f1, f1 | f2, f2 | f3, f3 | f4, f4 | f5, f5
  | f6, f6 | f7, f7 | f8, f8 | f9, f9 | f10, f10
  | left, left | right, right | up, up | down, down
  | a, a | o, o | p, p | u, u | i, i | y, y => true
  | _, _ => false
  end.
End key.

(** The integer constants of [morph/keys.h] ([morph::key],
    [morph::keymod], [morph::keyaction], [morph::mousebutton]).  That header
    is a file of its own, so the constants are a parameter. *)
Record keys_h : Type := {
  key_code : key.name → Z;
  keymod_shift : Z;
  keymod_control : Z;
  keyaction_press : Z;
  keyaction_repeat : Z;
  mousebutton_left : Z;
  mousebutton_right : Z
}.

(** No two key names share a code. *)
Definition keys_distinct (K : keys_h) : bool :=
  forallb (λ k1, forallb (λ k2, implb (key_code K k1 =? key_code K k2)%Z (key.eqb k1 k2))
                         key.all) key.all.

(** The codes of GLFW, which the comment above [key_callback] says the
    handler uses. *)
Definition glfw_keys : keys_h :=
  {| key_code := λ k,
       match k with
       | key.q => 81 | key.c => 67 | key.h => 72 | key.l => 76 | key.s => 83
       | key.m => 77 | key.z => 90
       | key.f1 => 290 | key.f2 => 291 | key.f3 => 292 | key.f4 => 293
       | key.f5 => 294 | key.f6 => 295 | key.f7 => 296 | key.f8 => 297
       | key.f9 => 298 | key.f10 => 299
       | key.left => 263 | key.right => 262 | key.up => 265 | key.down => 264
       | key.a => 65 | key.o => 79 | key.p => 80 | key.u => 85 | key.i => 73
       | key.y => 89
       end%Z;
     keymod_shift := 1; keymod_control := 2;
     keyaction_press := 1; keyaction_repeat := 2;
     mousebutton_left := 0; mousebutton_right := 1 |}.

(** ** Visual models and the owning pointers of the registry *)

(** The methods of [morph::VisualModel] that the key handler calls.
    [morph/VisualModel.h] is a separate header: the scene consumes its
    models through this interface. *)
Class VisualModel (M : Type) : Type := {
  toggleHide : M → M;
  incAlpha : M → M;
  decAlpha : M → M
}.

(** A raw address; [nullptr] is [0]. *)
Definition ptr : Type := Z.

(** [std::unique_ptr<VisualModel>]: the address it owns and the object
    stored there. *)
Module unique_ptr.
Record t (M : Type) : Type := mk { get : ptr; pointee : M }.
Arguments mk {M} _ _.
Arguments get {M} _.
Arguments pointee {M} _.
Definition map {M} (f : M → M) (u : t M) : t M := mk (get u) (f (pointee u)).
End unique_ptr.
Abbreviation unique_ptr := unique_ptr.t.

(** ** The scene object

    The data members of [VisualOwnable] that the modelled functions read or
    write, under their names in the header.  [selectedVisualModel] is an
    [unsigned int] that only ever holds the constants 0 to 9. *)

Record VisualOwnable (M : Type) : Type := Build_VisualOwnable {
  vm : list (unique_ptr M);
  cyl_cam_pos : vec4.t;
  cyl_cam_pos_default : vec4.t;
  cyl_radius : float;
  cyl_height : float;
  readyToFinish : bool;
  zNear : float;
  fov : float;
  showCoordArrows : bool;
  scenetrans_stepsize : float;
  sceneLocked : bool;
  ptype : perspective_type;
  ortho_lb : vec2.t;
  ortho_rt : vec2.t;
  window_w : Z;
  selectedVisualModel : nat;
  cursorpos : vec2.t;
  scenetrans : vec3.t;
  scenetrans_default : vec3.t;
  rotateMode : bool;
  rotateModMode : bool;
  translateMode : bool;
  mousePressPosition : vec2.t;
  rotationAxis : vec3.t;
  rotation : quaternion.t;
  rotation_default : quaternion.t;
  savedRotation : quaternion.t;
  projection : mat44.t;
  invproj : mat44.t;
  scene : mat44.t;
  invscene : mat44.t
}.

Arguments vm {M} _.
Arguments cyl_cam_pos {M} _.
Arguments cyl_cam_pos_default {M} _.
Arguments cyl_radius {M} _.
Arguments cyl_height {M} _.
Arguments readyToFinish {M} _.
Arguments zNear {M} _.
Arguments fov {M} _.
Arguments showCoordArrows {M} _.
Arguments scenetrans_stepsize {M} _.
Arguments sceneLocked {M} _.
Arguments ptype {M} _.
Arguments ortho_lb {M} _.
Arguments ortho_rt {M} _.
Arguments window_w {M} _.
Arguments selectedVisualModel {M} _.
Arguments cursorpos {M} _.
Arguments scenetrans {M} _.
Arguments scenetrans_default {M} _.
Arguments rotateMode {M} _.
Arguments rotateModMode {M} _.
Arguments translateMode {M} _.
Arguments mousePressPosition {M} _.
Arguments rotationAxis {M} _.
Arguments rotation {M} _.
Arguments rotation_default {M} _.
Arguments savedRotation {M} _.
Arguments projection {M} _.
Arguments invproj {M} _.
Arguments scene {M} _.
Arguments invscene {M} _.
Arguments Build_VisualOwnable {M}.

Definition set_vm {M} (v : list (unique_ptr M)) (s : VisualOwnable M) : VisualOwnable M :=
  {| vm := v; cyl_cam_pos := cyl_cam_pos s; cyl_cam_pos_default := cyl_cam_pos_default s;
    cyl_radius := cyl_radius s; cyl_height := cyl_height s; readyToFinish := readyToFinish s;
    zNear := zNear s; fov := fov s; showCoordArrows := showCoordArrows s;
    scenetrans_stepsize := scenetrans_stepsize s; sceneLocked := sceneLocked s;
    ptype := ptype s; ortho_lb := ortho_lb s; ortho_rt := ortho_rt s; window_w := window_w s;
    selectedVisualModel := selectedVisualModel s; cursorpos := cursorpos s;
    scenetrans := scenetrans s; scenetrans_default := scenetrans_default s;
    rotateMode := rotateMode s; rotateModMode := rotateModMode s;
    translateMode := translateMode s; mousePressPosition := mousePressPosition s;
    rotationAxis := rotationAxis s; rotation := rotation s;
    rotation_default := rotation_default s; savedRotation := savedRotation s;
    projection := projection s; invproj := invproj s; scene := scene s; invscene := invscene s |}.
Definition set_cyl_cam_pos {M} (v : vec4.t) (s : VisualOwnable M) : VisualOwnable M :=
  {| vm := vm s; cyl_cam_pos := v; cyl_cam_pos_default := cyl_cam_pos_default s;
    cyl_radius := cyl_radius s; cyl_height := cyl_height s; readyToFinish := readyToFinish s;
    zNear := zNear s; fov := fov s; showCoordArrows := showCoordArrows s;
    scenetrans_stepsize := scenetrans_stepsize s; sceneLocked := sceneLocked s;
    ptype := ptype s; ortho_lb := ortho_lb s; ortho_rt := ortho_rt s; window_w := window_w s;
    selectedVisualModel := selectedVisualModel s; cursorpos := cursorpos s;
    scenetrans := scenetrans s; scenetrans_default := scenetrans_default s;
    rotateMode := rotateMode s; rotateModMode := rotateModMode s;
    translateMode := translateMode s; mousePressPosition := mousePressPosition s;
    rotationAxis := rotationAxis s; rotation := rotation s;
    rotation_default := rotation_default s; savedRotation := savedRotation s;
    projection := projection s; invproj := invproj s; scene := scene s; invscene := invscene s |}.
Definition set_cyl_radius {M} (v : float) (s : VisualOwnable M) : VisualOwnable M :=
  {| vm := vm s; cyl_cam_pos := cyl_cam_pos s; cyl_cam_pos_default := cyl_cam_pos_default s;
    cyl_radius := v; cyl_height := cyl_height s; readyToFinish := readyToFinish s;
    zNear := zNear s; fov := fov s; showCoordArrows := showCoordArrows s;
    scenetrans_stepsize := scenetrans_stepsize s; sceneLocked := sceneLocked s;
    ptype := ptype s; ortho_lb := ortho_lb s; ortho_rt := ortho_rt s; window_w := window_w s;
    selectedVisualModel := selectedVisualModel s; cursorpos := cursorpos s;
    scenetrans := scenetrans s; scenetrans_default := scenetrans_default s;
    rotateMode := rotateMode s; rotateModMode := rotateModMode s;
    translateMode := translateMode s; mousePressPosition := mousePressPosition s;
    rotationAxis := rotationAxis s; rotation := rotation s;
    rotation_default := rotation_default s; savedRotation := savedRotation s;
    projection := projection s; invproj := invproj s; scene := scene s; invscene := invscene s |}.
Definition set_cyl_height {M} (v : float) (s : VisualOwnable M) : VisualOwnable M :=
  {| vm := vm s; cyl_cam_pos := cyl_cam_pos s; cyl_cam_pos_default := cyl_cam_pos_default s;
    cyl_radius := cyl_radius s; cyl_height := v; readyToFinish := readyToFinish s;
    zNear := zNear s; fov := fov s; showCoordArrows := showCoordArrows s;
    scenetrans_stepsize := scenetrans_stepsize s; sceneLocked := sceneLocked s;
    ptype := ptype s; ortho_lb := ortho_lb s; ortho_rt := ortho_rt s; window_w := window_w s;
    selectedVisualModel := selectedVisualModel s; cursorpos := cursorpos s;
    scenetrans := scenetrans s; scenetrans_default := scenetrans_default s;
    rotateMode := rotateMode s; rotateModMode := rotateModMode s;
    translateMode := translateMode s; mousePressPosition := mousePressPosition s;
    rotationAxis := rotationAxis s; rotation := rotation s;
    rotation_default := rotation_default s; savedRotation := savedRotation s;
    projection := projection s; invproj := invproj s; scene := scene s; invscene := invscene s |}.
Definition set_readyToFinish {M} (v : bool) (s : VisualOwnable M) : VisualOwnable M :=
  {| vm := vm s; cyl_cam_pos := cyl_cam_pos s; cyl_cam_pos_default := cyl_cam_pos_default s;
    cyl_radius := cyl_radius s; cyl_height := cyl_height s; readyToFinish := v;
    zNear := zNear s; fov := fov s; showCoordArrows := showCoordArrows s;
    scenetrans_stepsize := scenetrans_stepsize s; sceneLocked := sceneLocked s;
    ptype := ptype s; ortho_lb := ortho_lb s; ortho_rt := ortho_rt s; window_w := window_w s;
    selectedVisualModel := selectedVisualModel s; cursorpos := cursorpos s;
    scenetrans := scenetrans s; scenetrans_default := scenetrans_default s;
    rotateMode := rotateMode s; rotateModMode := rotateModMode s;
    translateMode := translateMode s; mousePressPosition := mousePressPosition s;
    rotationAxis := rotationAxis s; rotation := rotation s;
    rotation_default := rotation_default s; savedRotation := savedRotation s;
    projection := projection s; invproj := invproj s; scene := scene s; invscene := invscene s |}.
Definition set_zNear {M} (v : float) (s : VisualOwnable M) : VisualOwnable M :=
  {| vm := vm s; cyl_cam_pos := cyl_cam_pos s; cyl_cam_pos_default := cyl_cam_pos_default s;
    cyl_radius := cyl_radius s; cyl_height := cyl_height s; readyToFinish := readyToFinish s;
    zNear := v; fov := fov s; showCoordArrows := showCoordArrows s;
    scenetrans_stepsize := scenetrans_stepsize s; sceneLocked := sceneLocked s;
    ptype := ptype s; ortho_lb := ortho_lb s; ortho_rt := ortho_rt s; window_w := window_w s;
    selectedVisualModel := selectedVisualModel s; cursorpos := cursorpos s;
    scenetrans := scenetrans s; scenetrans_default := scenetrans_default s;
    rotateMode := rotateMode s; rotateModMode := rotateModMode s;
    translateMode := translateMode s; mousePressPosition := mousePressPosition s;
    rotationAxis := rotationAxis s; rotation := rotation s;
    rotation_default := rotation_default s; savedRotation := savedRotation s;
    projection := projection s; invproj := invproj s; scene := scene s; invscene := invscene s |}.
Definition set_fov {M} (v : float) (s : VisualOwnable M) : VisualOwnable M :=
  {| vm := vm s; cyl_cam_pos := cyl_cam_pos s; cyl_cam_pos_default := cyl_cam_pos_default s;
    cyl_radius := cyl_radius s; cyl_height := cyl_height s; readyToFinish := readyToFinish s;
    zNear := zNear s; fov := v; showCoordArrows := showCoordArrows s;
    scenetrans_stepsize := scenetrans_stepsize s; sceneLocked := sceneLocked s;
    ptype := ptype s; ortho_lb := ortho_lb s; ortho_rt := ortho_rt s; window_w := window_w s;
    selectedVisualModel := selectedVisualModel s; cursorpos := cursorpos s;
    scenetrans := scenetrans s; scenetrans_default := scenetrans_default s;
    rotateMode := rotateMode s; rotateModMode := rotateModMode s;
    translateMode := translateMode s; mousePressPosition := mousePressPosition s;
    rotationAxis := rotationAxis s; rotation := rotation s;
    rotation_default := rotation_default s; savedRotation := savedRotation s;
    projection := projection s; invproj := invproj s; scene := scene s; invscene := invscene s |}.
Definition set_showCoordArrows {M} (v : bool) (s : VisualOwnable M) : VisualOwnable M :=
  {| vm := vm s; cyl_cam_pos := cyl_cam_pos s; cyl_cam_pos_default := cyl_cam_pos_default s;
    cyl_radius := cyl_radius s; cyl_height := cyl_height s; readyToFinish := readyToFinish s;
    zNear := zNear s; fov := fov s; showCoordArrows := v;
    scenetrans_stepsize := scenetrans_stepsize s; sceneLocked := sceneLocked s;
    ptype := ptype s; ortho_lb := ortho_lb s; ortho_rt := ortho_rt s; window_w := window_w s;
    selectedVisualModel := selectedVisualModel s; cursorpos := cursorpos s;
    scenetrans := scenetrans s; scenetrans_default := scenetrans_default s;
    rotateMode := rotateMode s; rotateModMode := rotateModMode s;
    translateMode := translateMode s; mousePressPosition := mousePressPosition s;
    rotationAxis := rotationAxis s; rotation := rotation s;
    rotation_default := rotation_default s; savedRotation := savedRotation s;
    projection := projection s; invproj := invproj s; scene := scene s; invscene := invscene s |}.
Definition set_sceneLocked {M} (v : bool) (s : VisualOwnable M) : VisualOwnable M :=
  {| vm := vm s; cyl_cam_pos := cyl_cam_pos s; cyl_cam_pos_default := cyl_cam_pos_default s;
    cyl_radius := cyl_radius s; cyl_height := cyl_height s; readyToFinish := readyToFinish s;
    zNear := zNear s; fov := fov s; showCoordArrows := showCoordArrows s;
    scenetrans_stepsize := scenetrans_stepsize s; sceneLocked := v; ptype := ptype s;
    ortho_lb := ortho_lb s; ortho_rt := ortho_rt s; window_w := window_w s;
    selectedVisualModel := selectedVisualModel s; cursorpos := cursorpos s;
    scenetrans := scenetrans s; scenetrans_default := scenetrans_default s;
    rotateMode := rotateMode s; rotateModMode := rotateModMode s;
    translateMode := translateMode s; mousePressPosition := mousePressPosition s;
    rotationAxis := rotationAxis s; rotation := rotation s;
    rotation_default := rotation_default s; savedRotation := savedRotation s;
    projection := projection s; invproj := invproj s; scene := scene s; invscene := invscene s |}.
Definition set_ptype {M} (v : perspective_type) (s : VisualOwnable M) : VisualOwnable M :=
  {| vm := vm s; cyl_cam_pos := cyl_cam_pos s; cyl_cam_pos_default := cyl_cam_pos_default s;
    cyl_radius := cyl_radius s; cyl_height := cyl_height s; readyToFinish := readyToFinish s;
    zNear := zNear s; fov := fov s; showCoordArrows := showCoordArrows s;
    scenetrans_stepsize := scenetrans_stepsize s; sceneLocked := sceneLocked s; ptype := v;
    ortho_lb := ortho_lb s; ortho_rt := ortho_rt s; window_w := window_w s;
    selectedVisualModel := selectedVisualModel s; cursorpos := cursorpos s;
    scenetrans := scenetrans s; scenetrans_default := scenetrans_default s;
    rotateMode := rotateMode s; rotateModMode := rotateModMode s;
    translateMode := translateMode s; mousePressPosition := mousePressPosition s;
    rotationAxis := rotationAxis s; rotation := rotation s;
    rotation_default := rotation_default s; savedRotation := savedRotation s;
    projection := projection s; invproj := invproj s; scene := scene s; invscene := invscene s |}.
Definition set_ortho_lb {M} (v : vec2.t) (s : VisualOwnable M) : VisualOwnable M :=
  {| vm := vm s; cyl_cam_pos := cyl_cam_pos s; cyl_cam_pos_default := cyl_cam_pos_default s;
    cyl_radius := cyl_radius s; cyl_height := cyl_height s; readyToFinish := readyToFinish s;
    zNear := zNear s; fov := fov s; showCoordArrows := showCoordArrows s;
    scenetrans_stepsize := scenetrans_stepsize s; sceneLocked := sceneLocked s;
    ptype := ptype s; ortho_lb := v; ortho_rt := ortho_rt s; window_w := window_w s;
    selectedVisualModel := selectedVisualModel s; cursorpos := cursorpos s;
    scenetrans := scenetrans s; scenetrans_default := scenetrans_default s;
    rotateMode := rotateMode s; rotateModMode := rotateModMode s;
    translateMode := translateMode s; mousePressPosition := mousePressPosition s;
    rotationAxis := rotationAxis s; rotation := rotation s;
    rotation_default := rotation_default s; savedRotation := savedRotation s;
    projection := projection s; invproj := invproj s; scene := scene s; invscene := invscene s |}.
Definition set_ortho_rt {M} (v : vec2.t) (s : VisualOwnable M) : VisualOwnable M :=
  {| vm := vm s; cyl_cam_pos := cyl_cam_pos s; cyl_cam_pos_default := cyl_cam_pos_default s;
    cyl_radius := cyl_radius s; cyl_height := cyl_height s; readyToFinish := readyToFinish s;
    zNear := zNear s; fov := fov s; showCoordArrows := showCoordArrows s;
    scenetrans_stepsize := scenetrans_stepsize s; sceneLocked := sceneLocked s;
    ptype := ptype s; ortho_lb := ortho_lb s; ortho_rt := v; window_w := window_w s;
    selectedVisualModel := selectedVisualModel s; cursorpos := cursorpos s;
    scenetrans := scenetrans s; scenetrans_default := scenetrans_default s;
    rotateMode := rotateMode s; rotateModMode := rotateModMode s;
    translateMode := translateMode s; mousePressPosition := mousePressPosition s;
    rotationAxis := rotationAxis s; rotation := rotation s;
    rotation_default := rotation_default s; savedRotation := savedRotation s;
    projection := projection s; invproj := invproj s; scene := scene s; invscene := invscene s |}.
Definition set_selectedVisualModel {M} (v : nat) (s : VisualOwnable M) : VisualOwnable M :=
  {| vm := vm s; cyl_cam_pos := cyl_cam_pos s; cyl_cam_pos_default := cyl_cam_pos_default s;
    cyl_radius := cyl_radius s; cyl_height := cyl_height s; readyToFinish := readyToFinish s;
    zNear := zNear s; fov := fov s; showCoordArrows := showCoordArrows s;
    scenetrans_stepsize := scenetrans_stepsize s; sceneLocked := sceneLocked s;
    ptype := ptype s; ortho_lb := ortho_lb s; ortho_rt := ortho_rt s; window_w := window_w s;
    selectedVisualModel := v; cursorpos := cursorpos s; scenetrans := scenetrans s;
    scenetrans_default := scenetrans_default s; rotateMode := rotateMode s;
    rotateModMode := rotateModMode s; translateMode := translateMode s;
    mousePressPosition := mousePressPosition s; rotationAxis := rotationAxis s;
    rotation := rotation s; rotation_default := rotation_default s;
    savedRotation := savedRotation s; projection := projection s; invproj := invproj s;
    scene := scene s; invscene := invscene s |}.
Definition set_cursorpos {M} (v : vec2.t) (s : VisualOwnable M) : VisualOwnable M :=
  {| vm := vm s; cyl_cam_pos := cyl_cam_pos s; cyl_cam_pos_default := cyl_cam_pos_default s;
    cyl_radius := cyl_radius s; cyl_height := cyl_height s; readyToFinish := readyToFinish s;
    zNear := zNear s; fov := fov s; showCoordArrows := showCoordArrows s;
    scenetrans_stepsize := scenetrans_stepsize s; sceneLocked := sceneLocked s;
    ptype := ptype s; ortho_lb := ortho_lb s; ortho_rt := ortho_rt s; window_w := window_w s;
    selectedVisualModel := selectedVisualModel s; cursorpos := v; scenetrans := scenetrans s;
    scenetrans_default := scenetrans_default s; rotateMode := rotateMode s;
    rotateModMode := rotateModMode s; translateMode := translateMode s;
    mousePressPosition := mousePressPosition s; rotationAxis := rotationAxis s;
    rotation := rotation s; rotation_default := rotation_default s;
    savedRotation := savedRotation s; projection := projection s; invproj := invproj s;
    scene := scene s; invscene := invscene s |}.
Definition set_scenetrans {M} (v : vec3.t) (s : VisualOwnable M) : VisualOwnable M :=
  {| vm := vm s; cyl_cam_pos := cyl_cam_pos s; cyl_cam_pos_default := cyl_cam_pos_default s;
    cyl_radius := cyl_radius s; cyl_height := cyl_height s; readyToFinish := readyToFinish s;
    zNear := zNear s; fov := fov s; showCoordArrows := showCoordArrows s;
    scenetrans_stepsize := scenetrans_stepsize s; sceneLocked := sceneLocked s;
    ptype := ptype s; ortho_lb := ortho_lb s; ortho_rt := ortho_rt s; window_w := window_w s;
    selectedVisualModel := selectedVisualModel s; cursorpos := cursorpos s; scenetrans := v;
    scenetrans_default := scenetrans_default s; rotateMode := rotateMode s;
    rotateModMode := rotateModMode s; translateMode := translateMode s;
    mousePressPosition := mousePressPosition s; rotationAxis := rotationAxis s;
    rotation := rotation s; rotation_default := rotation_default s;
    savedRotation := savedRotation s; projection := projection s; invproj := invproj s;
    scene := scene s; invscene := invscene s |}.
Definition set_scenetrans_default {M} (v : vec3.t) (s : VisualOwnable M) : VisualOwnable M :=
  {| vm := vm s; cyl_cam_pos := cyl_cam_pos s; cyl_cam_pos_default := cyl_cam_pos_default s;
    cyl_radius := cyl_radius s; cyl_height := cyl_height s; readyToFinish := readyToFinish s;
    zNear := zNear s; fov := fov s; showCoordArrows := showCoordArrows s;
    scenetrans_stepsize := scenetrans_stepsize s; sceneLocked := sceneLocked s;
    ptype := ptype s; ortho_lb := ortho_lb s; ortho_rt := ortho_rt s; window_w := window_w s;
    selectedVisualModel := selectedVisualModel s; cursorpos := cursorpos s;
    scenetrans := scenetrans s; scenetrans_default := v; rotateMode := rotateMode s;
    rotateModMode := rotateModMode s; translateMode := translateMode s;
    mousePressPosition := mousePressPosition s; rotationAxis := rotationAxis s;
    rotation := rotation s; rotation_default := rotation_default s;
    savedRotation := savedRotation s; projection := projection s; invproj := invproj s;
    scene := scene s; invscene := invscene s |}.
Definition set_rotateMode {M} (v : bool) (s : VisualOwnable M) : VisualOwnable M :=
  {| vm := vm s; cyl_cam_pos := cyl_cam_pos s; cyl_cam_pos_default := cyl_cam_pos_default s;
    cyl_radius := cyl_radius s; cyl_height := cyl_height s; readyToFinish := readyToFinish s;
    zNear := zNear s; fov := fov s; showCoordArrows := showCoordArrows s;
    scenetrans_stepsize := scenetrans_stepsize s; sceneLocked := sceneLocked s;
    ptype := ptype s; ortho_lb := ortho_lb s; ortho_rt := ortho_rt s; window_w := window_w s;
    selectedVisualModel := selectedVisualModel s; cursorpos := cursorpos s;
    scenetrans := scenetrans s; scenetrans_default := scenetrans_default s; rotateMode := v;
    rotateModMode := rotateModMode s; translateMode := translateMode s;
    mousePressPosition := mousePressPosition s; rotationAxis := rotationAxis s;
    rotation := rotation s; rotation_default := rotation_default s;
    savedRotation := savedRotation s; projection := projection s; invproj := invproj s;
    scene := scene s; invscene := invscene s |}.
Definition set_rotateModMode {M} (v : bool) (s : VisualOwnable M) : VisualOwnable M :=
  {| vm := vm s; cyl_cam_pos := cyl_cam_pos s; cyl_cam_pos_default := cyl_cam_pos_default s;
    cyl_radius := cyl_radius s; cyl_height := cyl_height s; readyToFinish := readyToFinish s;
    zNear := zNear s; fov := fov s; showCoordArrows := showCoordArrows s;
    scenetrans_stepsize := scenetrans_stepsize s; sceneLocked := sceneLocked s;
    ptype := ptype s; ortho_lb := ortho_lb s; ortho_rt := ortho_rt s; window_w := window_w s;
    selectedVisualModel := selectedVisualModel s; cursorpos := cursorpos s;
    scenetrans := scenetrans s; scenetrans_default := scenetrans_default s;
    rotateMode := rotateMode s; rotateModMode := v; translateMode := translateMode s;
    mousePressPosition := mousePressPosition s; rotationAxis := rotationAxis s;
    rotation := rotation s; rotation_default := rotation_default s;
    savedRotation := savedRotation s; projection := projection s; invproj := invproj s;
    scene := scene s; invscene := invscene s |}.
Definition set_translateMode {M} (v : bool) (s : VisualOwnable M) : VisualOwnable M :=
  {| vm := vm s; cyl_cam_pos := cyl_cam_pos s; cyl_cam_pos_default := cyl_cam_pos_default s;
    cyl_radius := cyl_radius s; cyl_height := cyl_height s; readyToFinish := readyToFinish s;
    zNear := zNear s; fov := fov s; showCoordArrows := showCoordArrows s;
    scenetrans_stepsize := scenetrans_stepsize s; sceneLocked := sceneLocked s;
    ptype := ptype s; ortho_lb := ortho_lb s; ortho_rt := ortho_rt s; window_w := window_w s;
    selectedVisualModel := selectedVisualModel s; cursorpos := cursorpos s;
    scenetrans := scenetrans s; scenetrans_default := scenetrans_default s;
    rotateMode := rotateMode s; rotateModMode := rotateModMode s; translateMode := v;
    mousePressPosition := mousePressPosition s; rotationAxis := rotationAxis s;
    rotation := rotation s; rotation_default := rotation_default s;
    savedRotation := savedRotation s; projection := projection s; invproj := invproj s;
    scene := scene s; invscene := invscene s |}.
Definition set_mousePressPosition {M} (v : vec2.t) (s : VisualOwnable M) : VisualOwnable M :=
  {| vm := vm s; cyl_cam_pos := cyl_cam_pos s; cyl_cam_pos_default := cyl_cam_pos_default s;
    cyl_radius := cyl_radius s; cyl_height := cyl_height s; readyToFinish := readyToFinish s;
    zNear := zNear s; fov := fov s; showCoordArrows := showCoordArrows s;
    scenetrans_stepsize := scenetrans_stepsize s; sceneLocked := sceneLocked s;
    ptype := ptype s; ortho_lb := ortho_lb s; ortho_rt := ortho_rt s; window_w := window_w s;
    selectedVisualModel := selectedVisualModel s; cursorpos := cursorpos s;
    scenetrans := scenetrans s; scenetrans_default := scenetrans_default s;
    rotateMode := rotateMode s; rotateModMode := rotateModMode s;
    translateMode := translateMode s; mousePressPosition := v; rotationAxis := rotationAxis s;
    rotation := rotation s; rotation_default := rotation_default s;
    savedRotation := savedRotation s; projection := projection s; invproj := invproj s;
    scene := scene s; invscene := invscene s |}.
Definition set_rotationAxis {M} (v : vec3.t) (s : VisualOwnable M) : VisualOwnable M :=
  {| vm := vm s; cyl_cam_pos := cyl_cam_pos s; cyl_cam_pos_default := cyl_cam_pos_default s;
    cyl_radius := cyl_radius s; cyl_height := cyl_height s; readyToFinish := readyToFinish s;
    zNear := zNear s; fov := fov s; showCoordArrows := showCoordArrows s;
    scenetrans_stepsize := scenetrans_stepsize s; sceneLocked := sceneLocked s;
    ptype := ptype s; ortho_lb := ortho_lb s; ortho_rt := ortho_rt s; window_w := window_w s;
    selectedVisualModel := selectedVisualModel s; cursorpos := cursorpos s;
    scenetrans := scenetrans s; scenetrans_default := scenetrans_default s;
    rotateMode := rotateMode s; rotateModMode := rotateModMode s;
    translateMode := translateMode s; mousePressPosition := mousePressPosition s;
    rotationAxis := v; rotation := rotation s; rotation_default := rotation_default s;
    savedRotation := savedRotation s; projection := projection s; invproj := invproj s;
    scene := scene s; invscene := invscene s |}.
Definition set_rotation {M} (v : quaternion.t) (s : VisualOwnable M) : VisualOwnable M :=
  {| vm := vm s; cyl_cam_pos := cyl_cam_pos s; cyl_cam_pos_default := cyl_cam_pos_default s;
    cyl_radius := cyl_radius s; cyl_height := cyl_height s; readyToFinish := readyToFinish s;
    zNear := zNear s; fov := fov s; showCoordArrows := showCoordArrows s;
    scenetrans_stepsize := scenetrans_stepsize s; sceneLocked := sceneLocked s;
    ptype := ptype s; ortho_lb := ortho_lb s; ortho_rt := ortho_rt s; window_w := window_w s;
    selectedVisualModel := selectedVisualModel s; cursorpos := cursorpos s;
    scenetrans := scenetrans s; scenetrans_default := scenetrans_default s;
    rotateMode := rotateMode s; rotateModMode := rotateModMode s;
    translateMode := translateMode s; mousePressPosition := mousePressPosition s;
    rotationAxis := rotationAxis s; rotation := v; rotation_default := rotation_default s;
    savedRotation := savedRotation s; projection := projection s; invproj := invproj s;
    scene := scene s; invscene := invscene s |}.
Definition set_savedRotation {M} (v : quaternion.t) (s : VisualOwnable M) : VisualOwnable M :=
  {| vm := vm s; cyl_cam_pos := cyl_cam_pos s; cyl_cam_pos_default := cyl_cam_pos_default s;
    cyl_radius := cyl_radius s; cyl_height := cyl_height s; readyToFinish := readyToFinish s;
    zNear := zNear s; fov := fov s; showCoordArrows := showCoordArrows s;
    scenetrans_stepsize := scenetrans_stepsize s; sceneLocked := sceneLocked s;
    ptype := ptype s; ortho_lb := ortho_lb s; ortho_rt := ortho_rt s; window_w := window_w s;
    selectedVisualModel := selectedVisualModel s; cursorpos := cursorpos s;
    scenetrans := scenetrans s; scenetrans_default := scenetrans_default s;
    rotateMode := rotateMode s; rotateModMode := rotateModMode s;
    translateMode := translateMode s; mousePressPosition := mousePressPosition s;
    rotationAxis := rotationAxis s; rotation := rotation s;
    rotation_default := rotation_default s; savedRotation := v; projection := projection s;
    invproj := invproj s; scene := scene s; invscene := invscene s |}.
Definition set_scene {M} (v : mat44.t) (s : VisualOwnable M) : VisualOwnable M :=
  {| vm := vm s; cyl_cam_pos := cyl_cam_pos s; cyl_cam_pos_default := cyl_cam_pos_default s;
    cyl_radius := cyl_radius s; cyl_height := cyl_height s; readyToFinish := readyToFinish s;
    zNear := zNear s; fov := fov s; showCoordArrows := showCoordArrows s;
    scenetrans_stepsize := scenetrans_stepsize s; sceneLocked := sceneLocked s;
    ptype := ptype s; ortho_lb := ortho_lb s; ortho_rt := ortho_rt s; window_w := window_w s;
    selectedVisualModel := selectedVisualModel s; cursorpos := cursorpos s;
    scenetrans := scenetrans s; scenetrans_default := scenetrans_default s;
    rotateMode := rotateMode s; rotateModMode := rotateModMode s;
    translateMode := translateMode s; mousePressPosition := mousePressPosition s;
    rotationAxis := rotationAxis s; rotation := rotation s;
    rotation_default := rotation_default s; savedRotation := savedRotation s;
    projection := projection s; invproj := invproj s; scene := v; invscene := invscene s |}.
Definition set_invscene {M} (v : mat44.t) (s : VisualOwnable M) : VisualOwnable M :=
  {| vm := vm s; cyl_cam_pos := cyl_cam_pos s; cyl_cam_pos_default := cyl_cam_pos_default s;
    cyl_radius := cyl_radius s; cyl_height := cyl_height s; readyToFinish := readyToFinish s;
    zNear := zNear s; fov := fov s; showCoordArrows := showCoordArrows s;
    scenetrans_stepsize := scenetrans_stepsize s; sceneLocked := sceneLocked s;
    ptype := ptype s; ortho_lb := ortho_lb s; ortho_rt := ortho_rt s; window_w := window_w s;
    selectedVisualModel := selectedVisualModel s; cursorpos := cursorpos s;
    scenetrans := scenetrans s; scenetrans_default := scenetrans_default s;
    rotateMode := rotateMode s; rotateModMode := rotateModMode s;
    translateMode := translateMode s; mousePressPosition := mousePressPosition s;
    rotationAxis := rotationAxis s; rotation := rotation s;
    rotation_default := rotation_default s; savedRotation := savedRotation s;
    projection := projection s; invproj := invproj s; scene := scene s; invscene := v |}.

(** ** Outcomes of a handler

    A handler either returns, or leaves the defined behaviour of the
    program: an index past the end of [vm] (undefined behaviour of
    [std::vector::operator[]]), or an exception that propagates to the
    caller. *)

Inductive fault : Type :=
| out_of_range    (* vm[i] with i >= vm.size() *)
| runtime_error.  (* std::runtime_error thrown and not caught *)

Inductive result (A : Type) : Type :=
| Ok (a : A)
| Fault (f : fault).
Arguments Ok {A} _.
Arguments Fault {A} _.

#[global] Instance result_ret : MRet result := λ A a, Ok a.
#[global] Instance result_bind : MBind result := λ A B f r,
  match r with
  | Ok a => f a
  | Fault e => Fault e
  end.

(** [mods & m], read as a condition. *)
Definition has_mod (mods m : Z) : bool := negb (Z.land mods m =? 0)%Z.

Section Scene.
Context {M : Type} `{VisualModel M}.
Context (T : transform_ops) (K : keys_h).

(** The default member initialisers. *)
Definition VisualOwnable_new : VisualOwnable M :=
  {| vm := [];
     cyl_cam_pos := vec4.mk f32.zero f32.zero f32.zero f32.one;
     cyl_cam_pos_default := vec4.mk f32.zero f32.zero f32.zero f32.one;
     cyl_radius := f32.lit 5 1000;
     cyl_height := f32.lit 1 100;
     readyToFinish := false;
     zNear := f32.lit 1 1000;
     fov := f32.of_Z 30;
     showCoordArrows := false;
     scenetrans_stepsize := f32.lit 1 10;
     sceneLocked := false;
     ptype := perspective;
     ortho_lb := vec2.mk (f32.lit (-13) 10) (f32.of_Z (-1));
     ortho_rt := vec2.mk (f32.lit 13 10) (f32.of_Z 1);
     window_w := 640;
     selectedVisualModel := 0;
     cursorpos := vec2.mk f32.zero f32.zero;
     scenetrans := vec3.mk f32.zero f32.zero (f32.of_Z (-5));
     scenetrans_default := vec3.mk f32.zero f32.zero (f32.of_Z (-5));
     rotateMode := false;
     rotateModMode := false;
     translateMode := false;
     mousePressPosition := vec2.mk f32.zero f32.zero;
     rotationAxis := vec3.mk f32.zero f32.zero f32.zero;
     rotation := quaternion.identity;
     rotation_default := quaternion.identity;
     savedRotation := quaternion.identity;
     projection := mat44.identity;
     invproj := mat44.identity;
     scene := mat44.identity;
     invscene := mat44.identity |}.

(** *** The renderable registry *)

(** [addVisualModel]: the scene takes ownership; the non-owning pointer
    to the model is returned. *)
Definition addVisualModel (model : unique_ptr M) (this : VisualOwnable M)
  : ptr * VisualOwnable M :=
  (unique_ptr.get model, set_vm (vm this ++ [model]) this).

(** [addVisualModelId]: as above, returning the index into [vm]. *)
Definition addVisualModelId (model : unique_ptr M) (this : VisualOwnable M)
  : nat * VisualOwnable M :=
  let this := set_vm (vm this ++ [model]) this in
  (length (vm this) - 1, this).

(** The search loop shared by [validVisualModel] and [removeVisualModel]:
    [for (modelId = ...; modelId < vm.size(); ++modelId)], leaving by
    [break] at the first entry whose [get()] equals [vmp].  [rest] is the
    part of [vm] from [modelId] on.  Returns the final [modelId] and
    whether the loop left by [break]. *)
Fixpoint find_model (vmp : ptr) (rest : list (unique_ptr M)) (modelId : nat) : nat * bool :=
  match rest with
  | [] => (modelId, false)
  | u :: rest' =>
      if (unique_ptr.get u =? vmp)%Z then (modelId, true)
      else find_model vmp rest' (S modelId)
  end.

(** Return [vmp] if it is owned by a [unique_ptr] in [vm], else [nullptr]. *)
Definition validVisualModel (vmp : ptr) (this : VisualOwnable M) : ptr :=
  let rtn := 0%Z in
  if snd (find_model vmp (vm this) 0) then vmp else rtn.

(** [vm[modelId]], undefined past the end. *)
Definition getVisualModel (modelId : nat) (this : VisualOwnable M) : result (unique_ptr M) :=
  match vm this !! modelId with
  | Some u => Ok u
  | None => Fault out_of_range
  end.

(** Remove the VisualModel with ID [modelId] from the scene. *)
Definition removeVisualModelId (modelId : nat) (this : VisualOwnable M)
  : result (VisualOwnable M) :=
  if (modelId <? length (vm this))%nat
  then Ok (set_vm (delete modelId (vm this)) this)
  else Fault out_of_range.

(** Remove the VisualModel whose pointer matches [vmp]. *)
Definition removeVisualModel (vmp : ptr) (this : VisualOwnable M) : VisualOwnable M :=
  let '(modelId, found_model) := find_model vmp (vm this) 0 in
  if found_model then set_vm (delete modelId (vm this)) this else this.

(** [vm[i]->f()]: a method call through the [i]-th owning pointer. *)
Definition call_model (f : M → M) (i : nat) (this : VisualOwnable M)
  : result (VisualOwnable M) :=
  match vm this !! i with
  | Some u => Ok (set_vm (<[i := unique_ptr.map f u]> (vm this)) this)
  | None => Fault out_of_range
  end.

(** *** Parts of the key handler *)

(** [signal_to_quit]: sets the flag (the external callback is the
    client's). *)
Definition signal_to_quit (this : VisualOwnable M) : VisualOwnable M :=
  set_readyToFinish true this.

(** [savegltf] writes a file and throws when the file cannot be opened;
    [opens] is whether it can. *)
Definition savegltf (opens : bool) : result unit :=
  if opens then Ok tt else Fault runtime_error.

(** The [else if] chain that sets the selected model from F1 to F10. *)
Definition select_model (_key action : Z) (this : VisualOwnable M) : VisualOwnable M :=
  let press := keyaction_press K in
  let size := length (vm this) in
  if (_key =? key_code K key.f1)%Z && (action =? press)%Z then
    set_selectedVisualModel 0 this
  else if (_key =? key_code K key.f2)%Z && (action =? press)%Z then
    if (1 <? size)%nat then set_selectedVisualModel 1 this else this
  else if (_key =? key_code K key.f3)%Z && (action =? press)%Z then
    if (2 <? size)%nat then set_selectedVisualModel 2 this else this
  else if (_key =? key_code K key.f4)%Z && (action =? press)%Z then
    if (3 <? size)%nat then set_selectedVisualModel 3 this else this
  else if (_key =? key_code K key.f5)%Z && (action =? press)%Z then
    if (4 <? size)%nat then set_selectedVisualModel 4 this else this
  else if (_key =? key_code K key.f6)%Z && (action =? press)%Z then
    if (5 <? size)%nat then set_selectedVisualModel 5 this else this
  else if (_key =? key_code K key.f7)%Z && (action =? press)%Z then
    if (6 <? size)%nat then set_selectedVisualModel 6 this else this
  else if (_key =? key_code K key.f8)%Z && (action =? press)%Z then
    if (7 <? size)%nat then set_selectedVisualModel 7 this else this
  else if (_key =? key_code K key.f9)%Z && (action =? press)%Z then
    if (8 <? size)%nat then set_selectedVisualModel 8 this else this
  else if (_key =? key_code K key.f10)%Z && (action =? press)%Z then
    if (9 <? size)%nat then set_selectedVisualModel 9 this else this
  else this.

(** Toggle hide model if the shift key is down. *)
Definition toggle_hide (_key action mods : Z) (this : VisualOwnable M)
  : result (VisualOwnable M) :=
  if ((_key =? key_code K key.f10)%Z || (_key =? key_code K key.f1)%Z
      || (_key =? key_code K key.f2)%Z || (_key =? key_code K key.f3)%Z
      || (_key =? key_code K key.f4)%Z || (_key =? key_code K key.f5)%Z
      || (_key =? key_code K key.f6)%Z || (_key =? key_code K key.f7)%Z
      || (_key =? key_code K key.f8)%Z || (_key =? key_code K key.f9)%Z)
     && (action =? keyaction_press K)%Z && has_mod mods (keymod_shift K)
  then call_model toggleHide (selectedVisualModel this) this
  else Ok this.

(** Increment/decrement alpha for selected model. *)
Definition adjust_alpha (_key action mods : Z) (this : VisualOwnable M)
  : result (VisualOwnable M) :=
  this ←
    (if (_key =? key_code K key.left)%Z
        && ((action =? keyaction_press K)%Z || (action =? keyaction_repeat K)%Z)
        && has_mod mods (keymod_shift K)
     then match vm this with
          | [] => Ok this
          | _ => call_model decAlpha (selectedVisualModel this) this
          end
     else Ok this);
  if (_key =? key_code K key.right)%Z
     && ((action =? keyaction_press K)%Z || (action =? keyaction_repeat K)%Z)
     && has_mod mods (keymod_shift K)
  then match vm this with
       | [] => Ok this
       | _ => call_model incAlpha (selectedVisualModel this) this
       end
  else Ok this.

(** Cyl projection radius (shift) and view height (control). *)
Definition cyl_keys (_key action mods : Z) (this : VisualOwnable M) : VisualOwnable M :=
  let held := ((action =? keyaction_press K)%Z || (action =? keyaction_repeat K)%Z) in
  let this :=
    if (_key =? key_code K key.up)%Z && held && has_mod mods (keymod_shift K)
    then set_cyl_radius (f32.mul (cyl_radius this) (f32.of_Z 2)) this else this in
  let this :=
    if (_key =? key_code K key.down)%Z && held && has_mod mods (keymod_shift K)
    then set_cyl_radius (f32.mul (cyl_radius this) (f32.lit 1 2)) this else this in
  let this :=
    if (_key =? key_code K key.up)%Z && held && has_mod mods (keymod_control K)
    then set_cyl_height (f32.mul (cyl_height this) (f32.of_Z 2)) this else this in
  if (_key =? key_code K key.down)%Z && held && has_mod mods (keymod_control K)
  then set_cyl_height (f32.mul (cyl_height this) (f32.lit 1 2)) this else this.

(** [fov -= 2; if (fov < 1.0) { fov = 2.0; }] *)
Definition fov_reduce (fov : float) : float :=
  let fov := f32.sub fov (f32.of_Z 2) in
  if f64.ltb (f64.of_float fov) (f64.of_Z 1) then f32.of_double (f64.of_Z 2) else fov.

(** [fov += 2; if (fov > 179.0) { fov = 178.0; }] *)
Definition fov_increase (fov : float) : float :=
  let fov := f32.add fov (f32.of_Z 2) in
  if f64.ltb (f64.of_Z 179) (f64.of_float fov) then f32.of_double (f64.of_Z 178) else fov.

(** Ctrl-o, Ctrl-p, Ctrl-u and Ctrl-i. *)
Definition projection_keys (_key action mods : Z) (this : VisualOwnable M)
  : VisualOwnable M :=
  let ctrl_press := has_mod mods (keymod_control K) && (action =? keyaction_press K)%Z in
  let this :=
    if negb (sceneLocked this) && (_key =? key_code K key.o)%Z && ctrl_press
    then set_fov (fov_reduce (fov this)) this else this in
  let this :=
    if negb (sceneLocked this) && (_key =? key_code K key.p)%Z && ctrl_press
    then set_fov (fov_increase (fov this)) this else this in
  let this :=
    if negb (sceneLocked this) && (_key =? key_code K key.u)%Z && ctrl_press
    then set_zNear (f32.div (zNear this) (f32.of_Z 2)) this else this in
  if negb (sceneLocked this) && (_key =? key_code K key.i)%Z && ctrl_press
  then set_zNear (f32.mul (zNear this) (f32.of_Z 2)) this else this.

(** The body of the Ctrl-y branch. *)
Definition cycle_ptype (p : perspective_type) : perspective_type :=
  if decide (p = perspective) then orthographic
  else if decide (p = orthographic) then cylindrical
  else perspective.

(** *** key_callback

    [owned] is the template argument.  [gltf_opens] tells whether the
    file of Ctrl-m can be opened for writing.  Ctrl-h (help text), Ctrl-s
    ([saveImage] to a file) and Ctrl-z (print and write the snapshot
    file) change no member; [key_callback_extra] is empty in this class. *)
Definition key_callback (owned gltf_opens : bool) (this : VisualOwnable M)
    (_key scancode action mods : Z) : result (VisualOwnable M * bool) :=
  let ctrl_press := has_mod mods (keymod_control K) && (action =? keyaction_press K)%Z in
  let needs_render := false in
  let this :=
    if owned && (_key =? key_code K key.q)%Z && ctrl_press
    then signal_to_quit this else this in
  let '(this, needs_render) :=
    if negb (sceneLocked this) && (_key =? key_code K key.c)%Z && ctrl_press
    then (set_showCoordArrows (negb (showCoordArrows this)) this, true)
    else (this, needs_render) in
  let this :=
    if (_key =? key_code K key.l)%Z && ctrl_press
    then set_sceneLocked (if sceneLocked this then false else true) this else this in
  _ ← (if (_key =? key_code K key.m)%Z && ctrl_press then savegltf gltf_opens else Ok tt);
  let this := select_model _key action this in
  this ← toggle_hide _key action mods this;
  this ← adjust_alpha _key action mods this;
  let this := cyl_keys _key action mods this in
  let '(this, needs_render) :=
    if negb (sceneLocked this) && (_key =? key_code K key.a)%Z && ctrl_press
    then (set_rotation (rotation_default this)
            (set_cyl_cam_pos (cyl_cam_pos_default this)
               (set_scenetrans (scenetrans_default this) this)), true)
    else (this, needs_render) in
  let this := projection_keys _key action mods this in
  let '(this, needs_render) :=
    if (_key =? key_code K key.y)%Z && ctrl_press
    then (set_ptype (cycle_ptype (ptype this)) this, true)
    else (this, needs_render) in
  Ok (this, needs_render).

(** *** Mouse and scroll callbacks *)

(** Convert a position in pixels to the range -1 -> 1:
    [p -= window_w * 0.5f; p /= window_w * 0.5f]. *)
Definition to_unit_range (p : vec2.t) (this : VisualOwnable M) : vec2.t :=
  let half := f32.mul (f32.of_Z (window_w this)) (f32.lit 1 2) in
  vec2.div_scalar (vec2.sub_scalar p half) half.

(** The depth at which the object lies: forward projection of
    [{0, 0, scenetrans.z(), 1}], normalised by w. *)
Definition coord_z (this : VisualOwnable M) : float :=
  let point := vec4.mk f32.zero f32.zero (vec3.z (scenetrans this)) f32.one in
  let pp := mat44_mul_vec4 T (projection this) point in
  f32.div (vec4.z pp) (vec4.w pp).

Definition cursor_position_callback (this : VisualOwnable M) (x y : double)
  : VisualOwnable M * bool :=
  let this := set_cursorpos (vec2.mk (f32.of_double x) (f32.of_double y)) this in
  let mouseMoveWorld := vec3.mk f32.zero f32.zero f32.zero in
  let needs_render := false in
  if rotateMode this then
    let p0_coord := to_unit_range (mousePressPosition this) this in
    let p1_coord := to_unit_range (cursorpos this) this in
    let cz := coord_z this in
    let p0 := vec4.mk (vec2.x p0_coord) (vec2.y p0_coord) cz f32.one in
    let p1 := vec4.mk (vec2.x p1_coord) (vec2.y p1_coord) cz f32.one in
    let v0 := mat44_mul_vec4 T (invproj this) p0 in
    let v1 := mat44_mul_vec4 T (invproj this) p1 in
    let dx := f32.sub (f32.div (vec4.x v1) (vec4.w v1)) (f32.div (vec4.x v0) (vec4.w v0)) in
    let dy := f32.sub (f32.div (vec4.y v1) (vec4.w v1)) (f32.div (vec4.y v0) (vec4.w v0)) in
    let mouseMoveWorld :=
      if rotateModMode this
      then vec3.set_z (f32.add (f32.opp dy) dx) mouseMoveWorld
      else vec3.set_x (f32.opp dy) (vec3.set_y (f32.opp dx) mouseMoveWorld) in
    let rotamount := f32.mul (vec3_length T mouseMoveWorld) (f32.of_Z 40) in
    let this :=
      set_rotationAxis (vec3_renormalize T (vec3.mul_scalar mouseMoveWorld rotamount)) this in
    let tmp_4D := mat44_mul_vec3 T (invscene this) (rotationAxis this) in
    let this := set_rotationAxis (vec4.to_vec3 tmp_4D) this in
    let this := set_rotation (savedRotation this) this in
    let rotnQuat :=
      quaternion_axis_angle T (rotationAxis this) (f32.mul (f32.opp rotamount) (deg2rad T)) in
    let this := set_rotation (quaternion_postmultiply T (rotation this) rotnQuat) this in
    (this, true)
  else if translateMode this then
    let p0_coord := to_unit_range (mousePressPosition this) this in
    let p1_coord := to_unit_range (cursorpos this) this in
    let this := set_mousePressPosition (cursorpos this) this in
    let cz := coord_z this in
    let p0 := vec4.mk (vec2.x p0_coord) (vec2.y p0_coord) cz f32.one in
    let p1 := vec4.mk (vec2.x p1_coord) (vec2.y p1_coord) cz f32.one in
    let v0 := mat44_mul_vec4 T (invproj this) p0 in
    let v1 := mat44_mul_vec4 T (invproj this) p1 in
    let mouseMoveWorld :=
      vec3.set_x (f32.sub (f32.div (vec4.x v1) (vec4.w v1)) (f32.div (vec4.x v0) (vec4.w v0)))
        mouseMoveWorld in
    let mouseMoveWorld :=
      vec3.set_y (f32.sub (f32.div (vec4.y v1) (vec4.w v1)) (f32.div (vec4.y v0) (vec4.w v0)))
        mouseMoveWorld in
    let this :=
      set_scenetrans
        (vec3.set_x (f32.add (vec3.x (scenetrans this)) (vec3.x mouseMoveWorld)) (scenetrans this))
        this in
    let this :=
      set_scenetrans
        (vec3.set_y (f32.sub (vec3.y (scenetrans this)) (vec3.y mouseMoveWorld)) (scenetrans this))
        this in
    let this :=
      set_cyl_cam_pos
        (vec4.set_x (f32.sub (vec4.x (cyl_cam_pos this)) (vec3.x mouseMoveWorld))
           (cyl_cam_pos this)) this in
    let this :=
      set_cyl_cam_pos
        (vec4.set_z (f32.add (vec4.z (cyl_cam_pos this)) (vec3.y mouseMoveWorld))
           (cyl_cam_pos this)) this in
    (this, true)
  else (this, needs_render).

(** [mouse_button_callback_extra] is empty in this class. *)
Definition mouse_button_callback (this : VisualOwnable M) (button action mods : Z)
  : VisualOwnable M :=
  if sceneLocked this then this else
  let this :=
    if (action =? keyaction_press K)%Z then
      let this := set_mousePressPosition (cursorpos this) this in
      let this := set_savedRotation (rotation this) this in
      let this := set_scene mat44.identity this in
      let this := set_scene (mat44_rotate T (scene this) (savedRotation this)) this in
      set_invscene (mat44_invert T (scene this)) this
    else this in
  if (button =? mousebutton_left K)%Z then
    let this :=
      set_rotateModMode (if has_mod mods (keymod_control K) then true else false) this in
    let this := set_rotateMode (action =? keyaction_press K)%Z this in
    set_translateMode false this
  else if (button =? mousebutton_right K)%Z then
    let this := set_rotateMode false this in
    set_translateMode (action =? keyaction_press K)%Z this
  else this.

(** The candidate bounds of an orthographic zoom:
    [_lb = ortho_lb + (yoffset * scenetrans_stepsize)] and
    [_rt = ortho_rt - (yoffset * scenetrans_stepsize)]. *)
Definition ortho_rescaled (this : VisualOwnable M) (yoffset : double) : vec2.t * vec2.t :=
  let step := f64.mul yoffset (f64.of_float (scenetrans_stepsize this)) in
  (vec2.add_double (ortho_lb this) step, vec2.sub_double (ortho_rt this) step).

(** When user scrolls, we translate the scene (applies to
    orthographic/projection) and the cyl_cam_pos (applies to cylindrical
    projection). *)
Definition scroll_callback (this : VisualOwnable M) (xoffset yoffset : double)
  : VisualOwnable M * bool :=
  if sceneLocked this then (this, false) else
  let stepsize := f64.of_float (scenetrans_stepsize this) in
  let this :=
    if decide (ptype this = orthographic) then
      let '(_lb, _rt) := ortho_rescaled this yoffset in
      if vec2.lt_scalar _lb f32.zero && vec2.gt_scalar _rt f32.zero
      then set_ortho_rt _rt (set_ortho_lb _lb this)
      else this
    else
      let this :=
        set_scenetrans
          (vec3.set_x
             (f32.of_double (f64.sub (f64.of_float (vec3.x (scenetrans this)))
                                     (f64.mul xoffset stepsize)))
             (scenetrans this)) this in
      let this :=
        set_cyl_cam_pos
          (vec4.set_x
             (f32.of_double (f64.add (f64.of_float (vec4.x (cyl_cam_pos this)))
                                     (f64.mul xoffset stepsize)))
             (cyl_cam_pos this)) this in
      let scroll_move_y :=
        vec4.mk f32.zero (f32.mul (f32.of_double yoffset) (scenetrans_stepsize this))
                f32.zero f32.one in
      let this :=
        set_scenetrans
          (vec3.set_z (f32.add (vec3.z (scenetrans this)) (vec4.y scroll_move_y))
             (scenetrans this)) this in
      let sceneview_rotn := mat44_rotate T mat44.identity (rotation this) in
      set_cyl_cam_pos
        (vec4.add (cyl_cam_pos this) (mat44_mul_vec4 T sceneview_rotn scroll_move_y)) this
  in
  (this, true).

(** *** Runs of events *)

(** A key event as the windowing backend delivers it. *)
Record key_event : Type := { ev_key : Z; ev_scancode : Z; ev_action : Z; ev_mods : Z }.

(** Deliver key events one after the other; a fault ends the run. *)
Fixpoint key_run (owned gltf_opens : bool) (this : VisualOwnable M) (evs : list key_event)
  : result (VisualOwnable M) :=
  match evs with
  | [] => Ok this
  | e :: evs' =>
      '(this, _) ← key_callback owned gltf_opens this
                     (ev_key e) (ev_scancode e) (ev_action e) (ev_mods e);
      key_run owned gltf_opens this evs'
  end.

(** Deliver scroll events [(xoffset, yoffset)] one after the other. *)
Definition scroll_run (this : VisualOwnable M) (evs : list (double * double))
  : VisualOwnable M :=
  fold_left (λ this e, fst (scroll_callback this (fst e) (snd e))) evs this.

(** Deliver cursor positions [(x, y)] one after the other. *)
Definition cursor_run (this : VisualOwnable M) (moves : list (double * double))
  : VisualOwnable M :=
  fold_left (λ this e, fst (cursor_position_callback this (fst e) (snd e))) moves this.

End Scene.

(** ** The view snapshot read by init_gl *)

(** The values of [nlohmann::json], as far as the snapshot load looks at
    them. *)
Module json.
#[local] Unset Elimination Schemes.
Inductive t : Type :=
| null
| boolean (b : bool)
| number_integer (n : Z)
| number_float (d : double)
| text (s : string)
| array (elements : list t)
| object (members : list (string * t)).

(** [j[k]] on an object that contains [k]. *)
Definition at_key (j : t) (k : string) : option t :=
  match j with
  | object members => snd <$> find (λ kv, String.eqb (fst kv) k) members
  | _ => None
  end.

(** [j.contains (k)]: false for anything that is not an object. *)
Definition contains (j : t) (k : string) : bool :=
  match at_key j k with Some _ => true | None => false end.

(** [j.get<float>()]: numbers (and booleans) convert; any other value
    throws [type_error], which is [None] here. *)
Definition get_float (j : t) : option float :=
  match j with
  | number_integer n => Some (f32.of_Z n)
  | number_float d => Some (f32.of_double d)
  | boolean b => Some (if b then f32.one else f32.zero)
  | _ => None
  end.
End json.

(** What [fi.open ("/tmp/Visual.json"); fi >> vconf] finds. *)
Inductive snapshot_file : Type :=
| file_absent                     (* the stream fails to open: parse throws *)
| file_malformed                  (* the content is not JSON: parse throws *)
| file_json (vconf : json.t).

(** [try { s1; s2; ... } catch (...) { }]: the statements run in order; the
    first one that throws ends the block, and what the earlier ones
    assigned stays assigned. *)
Fixpoint try_catch_all {S : Type} (stmts : list (S → option S)) (s : S) : S :=
  match stmts with
  | [] => s
  | stmt :: rest =>
      match stmt s with
      | Some s' => try_catch_all rest s'
      | None => s
      end
  end.

(** [vconf.contains (k) ? vconf[k].get<float>() : current] *)
Definition field_or (vconf : json.t) (k : string) (current : float) : option float :=
  if json.contains vconf k then json.at_key vconf k ≫= json.get_float else Some current.

Section Snapshot.
Context {M : Type}.
Local Open Scope string_scope.

(** The statements of the [try] block after the parse, in order. *)
Definition snapshot_assignments (vconf : json.t)
  : list (VisualOwnable M → option (VisualOwnable M)) :=
  [ λ this, v ← field_or vconf "scenetrans_x" (vec3.x (scenetrans this));
            Some (set_scenetrans (vec3.set_x v (scenetrans this)) this);
    λ this, v ← field_or vconf "scenetrans_y" (vec3.y (scenetrans this));
            Some (set_scenetrans (vec3.set_y v (scenetrans this)) this);
    λ this, v ← field_or vconf "scenetrans_z" (vec3.z (scenetrans this));
            Some (set_scenetrans (vec3.set_z v (scenetrans this)) this);
    (* Place the same numbers into scenetrans_default, too. *)
    λ this, Some (set_scenetrans_default
                    (vec3.set_x (vec3.x (scenetrans this)) (scenetrans_default this)) this);
    λ this, Some (set_scenetrans_default
                    (vec3.set_y (vec3.y (scenetrans this)) (scenetrans_default this)) this);
    λ this, Some (set_scenetrans_default
                    (vec3.set_z (vec3.z (scenetrans this)) (scenetrans_default this)) this);
    λ this, v ← field_or vconf "scenerotn_w" (quaternion.w (rotation this));
            Some (set_rotation (quaternion.set_w v (rotation this)) this);
    λ this, v ← field_or vconf "scenerotn_x" (quaternion.x (rotation this));
            Some (set_rotation (quaternion.set_x v (rotation this)) this);
    λ this, v ← field_or vconf "scenerotn_y" (quaternion.y (rotation this));
            Some (set_rotation (quaternion.set_y v (rotation this)) this);
    λ this, v ← field_or vconf "scenerotn_z" (quaternion.z (rotation this));
            Some (set_rotation (quaternion.set_z v (rotation this)) this) ].

(** The [try]/[catch (...)] block of [init_gl]. *)
Definition init_gl_snapshot (file : snapshot_file) (this : VisualOwnable M)
  : VisualOwnable M :=
  match file with
  | file_json vconf => try_catch_all (snapshot_assignments vconf) this
  | file_absent | file_malformed => this
  end.
End Snapshot.

(** ** The pixel loops of saveImage *)

(** A [GLubyte]. *)
Definition GLubyte : Type := Z.

(** One pass of the inner loop [for (int j = 0; j < 4 * dims[0]; ++j)] of
    the [transparent_bg] branch. *)
Definition copy_line (w rev_line for_line : nat) (bits rbits : list GLubyte) : list GLubyte :=
  fold_left (λ rbits j, <[rev_line + j := bits !!! (for_line + j)]> rbits) (seq 0 (4 * w)) rbits.

(** The inner loop of the other branch:
    [rbits[rev_line + j] = (j % 4 == 3) ? 255 : bits[for_line + j]]. *)
Definition opaque_line (w rev_line for_line : nat) (bits rbits : list GLubyte) : list GLubyte :=
  fold_left (λ rbits j, <[rev_line + j :=
                            if (j mod 4 =? 3)%nat then 255%Z else bits !!! (for_line + j)]> rbits)
            (seq 0 (4 * w)) rbits.

(** [rbits] after the loop over the lines; [w = dims[0]], [h = dims[1]],
    [bits] is what [glReadPixels] stored.  [rbits] starts as
    [make_unique<GLubyte[]>(dims.product() * 4)], all zero. *)
Definition saveImage_rbits (w h : nat) (transparent_bg : bool) (bits : list GLubyte)
  : list GLubyte :=
  fold_left
    (λ rbits i,
       let rev_line := (h - i - 1) * 4 * w in
       let for_line := i * 4 * w in
       if transparent_bg then copy_line w rev_line for_line bits rbits
       else opaque_line w rev_line for_line bits rbits)
    (seq 0 h) (replicate (w * h * 4) 0%Z).

(** [saveImage]: the pixel data handed to [lodepng::encode] and the
    returned vector, [{-1, -1}] when the encoder reports an error. *)
Definition saveImage (w h : nat) (bits : list GLubyte) (error : nat) (transparent_bg : bool)
  : list GLubyte * (Z * Z) :=
  let rbits := saveImage_rbits w h transparent_bg bits in
  if (error =? 0)%nat then (rbits, (Z.of_nat w, Z.of_nat h)) else (rbits, ((-1)%Z, (-1)%Z)).

(** The alpha channel of the pixel in column [x] of line [y] of an RGBA
    buffer of [w] pixels per line. *)
Definition alpha_at (w : nat) (buf : list GLubyte) (x y : nat) : option GLubyte :=
  buf !! (y * 4 * w + (4 * x + 3)).

(** ** A concrete model type and primitives, for running the callbacks *)

(** Modelled from the spec: a visual model as far as the key handler
    touches it, a hidden flag and an alpha "clamped to [0,1]" that moves by
    a step (section 3 and 4.2; [morph/VisualModel.h] is a separate
    header).  The step is taken as 0.1. *)
Module model.
Record t : Type := mk { hide : bool; alpha : float }.
Definition toggle (m : t) : t := mk (if hide m then false else true) (alpha m).
Definition inc (m : t) : t :=
  let a := f32.add (alpha m) (f32.lit 1 10) in
  mk (hide m) (if f32.ltb f32.one a then f32.one else a).
Definition dec (m : t) : t :=
  let a := f32.sub (alpha m) (f32.lit 1 10) in
  mk (hide m) (if f32.ltb a f32.zero then f32.zero else a).
End model.

#[global] Instance model_VisualModel : VisualModel model.t :=
  {| toggleHide := model.toggle; incAlpha := model.inc; decAlpha := model.dec |}.

(** Primitives for running examples: the simplest total functions of the
    right types.  The general theorems are proved for every
    [transform_ops]; the examples on the fresh scene run with these.
    There the matrices are the identity and the rotation is the identity
    rotation, for which the matrix operations of the header give what
    these give: the identity rotated by the identity rotation or inverted
    is the identity, and its product with a vector is the vector. *)
Definition plain_ops : transform_ops :=
  {| mat44_rotate := λ m _, m;
     mat44_invert := λ m, m;
     mat44_mul_vec4 := λ _ v, v;
     mat44_mul_vec3 := λ _ v, vec4.mk (vec3.x v) (vec3.y v) (vec3.z v) f32.one;
     vec3_length := λ v, SFsqrt f32.prec f32.emax
                           (f32.add (f32.add (f32.mul (vec3.x v) (vec3.x v))
                                             (f32.mul (vec3.y v) (vec3.y v)))
                                    (f32.mul (vec3.z v) (vec3.z v)));
     vec3_renormalize := λ v, v;
     quaternion_axis_angle := λ _ _, quaternion.identity;
     quaternion_postmultiply := λ q _, q;
     deg2rad := S754_finite false 9370165 (-29) |}.

(** ** Notions used in the statements *)

(** Ctrl-[k] pressed: the key is [k], control is among the modifiers and the
    action is a press. *)
Definition is_ctrl_press (K : keys_h) (k : key.name) (e : key_event) : Prop :=
  ev_key e = key_code K k
  ∧ has_mod (ev_mods e) (keymod_control K) = true
  ∧ ev_action e = keyaction_press K.

(** The index that a function key asks [key_callback] to select. *)
Definition requested_index (k : key.name) : option nat :=
  match k with
  | key.f1 => Some 0 | key.f2 => Some 1 | key.f3 => Some 2 | key.f4 => Some 3
  | key.f5 => Some 4 | key.f6 => Some 5 | key.f7 => Some 6 | key.f8 => Some 7
  | key.f9 => Some 8 | key.f10 => Some 9
  | _ => None
  end.

(** Every component of [lb] is strictly negative and every component of
    [rt] strictly positive. *)
Definition bounds_straddle_zero (lb rt : vec2.t) : Prop :=
  f32.ltb (vec2.x lb) f32.zero = true ∧ f32.ltb (vec2.y lb) f32.zero = true
  ∧ f32.ltb f32.zero (vec2.x rt) = true ∧ f32.ltb f32.zero (vec2.y rt) = true.

(** [2 <= f <= 178] *)
Definition fov_in_range (f : float) : Prop :=
  f32.leb (f32.of_Z 2) f = true ∧ f32.leb f (f32.of_Z 178) = true.

#[global] Instance fov_in_range_dec (f : float) : Decision (fov_in_range f).
Proof. unfold fov_in_range. apply _. Defined.

(** The even values 2, 4, ..., 178, the fields of view that the keys can
    reach from 30. *)
Definition fov_grid : list float := (λ n, f32.of_Z (2 * Z.of_nat n)) <$> seq 1 89.

(** What the snapshot file says about a field: its number if the field is
    there, the current value if it is missing. *)
Definition field_value (vconf : json.t) (k : string) (current : float) : float :=
  default current (json.at_key vconf k ≫= json.get_float).

(** The seven fields of the snapshot file. *)
Definition snapshot_fields : list string :=
  ["scenetrans_x"; "scenetrans_y"; "scenetrans_z";
   "scenerotn_w"; "scenerotn_x"; "scenerotn_y"; "scenerotn_z"]%string.

(** Every field that is present holds a number. *)
Definition numeric_fields (vconf : json.t) : Prop :=
  Forall (λ k, ∀ j, json.at_key vconf k = Some j → is_Some (json.get_float j)) snapshot_fields.

(** Scenes and events for the examples. *)
Definition fresh_scene : VisualOwnable model.t := VisualOwnable_new.

Definition model_at (p : ptr) : unique_ptr model.t :=
  unique_ptr.mk p (model.mk false f32.one).

(** Two models in the registry. *)
Definition two_model_scene : VisualOwnable model.t :=
  snd (addVisualModel (model_at 8192%Z) (snd (addVisualModel (model_at 4096%Z) fresh_scene))).

(** Two models added, the second one selected (as F2 does, see
    [emptied_scene_state]), both removed again. *)
Definition emptied_scene : VisualOwnable model.t :=
  removeVisualModel 8192%Z
    (removeVisualModel 4096%Z (set_selectedVisualModel 1 two_model_scene)).

(** One model in the registry. *)
Definition one_model_scene : VisualOwnable model.t :=
  snd (addVisualModel (model_at 4096%Z) fresh_scene).

(** Three models in the registry. *)
Definition three_model_scene : VisualOwnable model.t :=
  set_vm [model_at 4096%Z; model_at 8192%Z; model_at 12288%Z] fresh_scene.

Definition glfw_event (k : key.name) (action mods : Z) : key_event :=
  {| ev_key := key_code glfw_keys k; ev_scancode := 0; ev_action := action; ev_mods := mods |}.

(** A snapshot file whose second field is text. *)
Definition snapshot_with_text_field : snapshot_file :=
  file_json (json.object [("scenetrans_x"%string, json.number_integer 1);
                          ("scenetrans_y"%string, json.text "up")]).

(** A snapshot file with two of the seven fields. *)
Definition snapshot_two_fields : snapshot_file :=
  file_json (json.object [("scenetrans_z"%string, json.number_integer (-9));
                          ("scenerotn_w"%string, json.number_integer 0)]).

(** Nothing but the view (scene translation, its default and the rotation)
    differs between [this] and [after]. *)
Definition only_view_changed {M} (this after : VisualOwnable M) : Prop :=
  after = set_rotation (rotation after)
            (set_scenetrans_default (scenetrans_default after)
               (set_scenetrans (scenetrans after) this)).

(** The byte that either inner loop of [saveImage] stores at offset [j] of
    a line. *)
Definition line_byte (transparent_bg : bool) (bits : list GLubyte) (for_line j : nat)
  : GLubyte :=
  if transparent_bg then bits !!! (for_line + j)
  else if (j mod 4 =? 3)%nat then 255%Z else bits !!! (for_line + j).

(** A two by two capture, one byte value per position. *)
Definition sample_bits : list GLubyte :=
  [10; 11; 12; 13;  20; 21; 22; 23;  30; 31; 32; 33;  40; 41; 42; 43]%Z.

(** The fresh scene switched to the orthographic projection, and three
    scroll events: one notch in, twenty notches in, one notch out. *)
Definition ortho_scene : VisualOwnable model.t := set_ptype orthographic fresh_scene.

Definition sample_scrolls : list (double * double) :=
  [(f64.of_Z 0, f64.of_Z 1); (f64.of_Z 0, f64.of_Z 20); (f64.of_Z 0, f64.of_Z (-1))].

(** The fresh scene with the lock set, and two cursor positions. *)
Definition locked_scene : VisualOwnable model.t := set_sceneLocked true fresh_scene.

(** The fresh scene once the right button has gone down (a translate drag
    is under way), and that scene with the lock set. *)
Definition dragging_scene : VisualOwnable model.t :=
  mouse_button_callback plain_ops glfw_keys fresh_scene
    (mousebutton_right glfw_keys) (keyaction_press glfw_keys) 0.

Definition locked_while_dragging : VisualOwnable model.t :=
  set_sceneLocked true dragging_scene.

(** [keyaction::release] in GLFW's numbering. *)
Definition glfw_release : Z := 0.

Definition sample_moves : list (double * double) :=
  [(f64.of_Z 100, f64.of_Z 50); (f64.of_Z 120, f64.of_Z 80)].

(** The key event changes [field] of the scene, and [key_callback]
    answers that no render is needed. *)
Definition changes_without_render {A : Type} (this : VisualOwnable model.t) (e : key_event)
    (field : VisualOwnable model.t → A) : Prop :=
  ∃ after,
    key_callback glfw_keys true true this (ev_key e) (ev_scancode e) (ev_action e) (ev_mods e)
    = Ok (after, false)
    ∧ field after ≠ field this.


(** ** Further members of the class: view setters, events, key steps *)

Definition set_rotation_default {M} (v : quaternion.t) (s : VisualOwnable M) : VisualOwnable M :=
  {| vm := vm s; cyl_cam_pos := cyl_cam_pos s; cyl_cam_pos_default := cyl_cam_pos_default s;
    cyl_radius := cyl_radius s; cyl_height := cyl_height s; readyToFinish := readyToFinish s;
    zNear := zNear s; fov := fov s; showCoordArrows := showCoordArrows s;
    scenetrans_stepsize := scenetrans_stepsize s; sceneLocked := sceneLocked s;
    ptype := ptype s; ortho_lb := ortho_lb s; ortho_rt := ortho_rt s; window_w := window_w s;
    selectedVisualModel := selectedVisualModel s; cursorpos := cursorpos s;
    scenetrans := scenetrans s; scenetrans_default := scenetrans_default s;
    rotateMode := rotateMode s; rotateModMode := rotateModMode s;
    translateMode := translateMode s; mousePressPosition := mousePressPosition s;
    rotationAxis := rotationAxis s; rotation := rotation s; rotation_default := v;
    savedRotation := savedRotation s; projection := projection s; invproj := invproj s;
    scene := scene s; invscene := invscene s |}.

Definition set_window_w {M} (v : Z) (s : VisualOwnable M) : VisualOwnable M :=
  {| vm := vm s; cyl_cam_pos := cyl_cam_pos s; cyl_cam_pos_default := cyl_cam_pos_default s;
    cyl_radius := cyl_radius s; cyl_height := cyl_height s; readyToFinish := readyToFinish s;
    zNear := zNear s; fov := fov s; showCoordArrows := showCoordArrows s;
    scenetrans_stepsize := scenetrans_stepsize s; sceneLocked := sceneLocked s;
    ptype := ptype s; ortho_lb := ortho_lb s; ortho_rt := ortho_rt s; window_w := v;
    selectedVisualModel := selectedVisualModel s; cursorpos := cursorpos s;
    scenetrans := scenetrans s; scenetrans_default := scenetrans_default s;
    rotateMode := rotateMode s; rotateModMode := rotateModMode s;
    translateMode := translateMode s; mousePressPosition := mousePressPosition s;
    rotationAxis := rotationAxis s; rotation := rotation s; rotation_default := rotation_default s;
    savedRotation := savedRotation s; projection := projection s; invproj := invproj s;
    scene := scene s; invscene := invscene s |}.

Section SceneMore.
Context {M : Type} `{VisualModel M}.
Context (T : transform_ops) (K : keys_h).





(** [setSceneTrans (float _x, float _y, float _z)] *)
Definition setSceneTrans (_x _y _z : float) (this : VisualOwnable M) : VisualOwnable M :=
  let this := set_scenetrans (vec3.set_x _x (scenetrans this)) this in
  let this := set_scenetrans_default (vec3.set_x _x (scenetrans_default this)) this in
  let this := set_scenetrans (vec3.set_y _y (scenetrans this)) this in
  let this := set_scenetrans_default (vec3.set_y _y (scenetrans_default this)) this in
  let this := set_scenetrans (vec3.set_z _z (scenetrans this)) this in
  set_scenetrans_default (vec3.set_z _z (scenetrans_default this)) this.


Definition setSceneRotation (_rotn : quaternion.t) (this : VisualOwnable M)
  : VisualOwnable M :=
  let this := set_rotation _rotn this in
  set_rotation_default _rotn this.

Definition set_cursorpos_xy (_x _y : double) (this : VisualOwnable M) : VisualOwnable M :=
  set_cursorpos (vec2.mk (f32.of_double _x) (f32.of_double _y)) this.

(** [window_size_callback]: the new width is stored ([window_h] is not
    among the modelled members) and a render is asked for. *)
Definition window_size_callback (width height : Z) (this : VisualOwnable M)
  : VisualOwnable M * bool :=
  (set_window_w width this, true).

(** [window_close_callback]; [preventWindowCloseWithButton] is a public
    flag of the object that no modelled function assigns. *)
Definition window_close_callback (preventWindowCloseWithButton : bool)
    (this : VisualOwnable M) : VisualOwnable M :=
  if negb preventWindowCloseWithButton then signal_to_quit this else this.

(** *** The input event surface *)

(** What the windowing backend delivers: a key event, a cursor position,
    a mouse button event, a scroll event, a new window size or a request
    to close the window. *)
Inductive input_event : Type :=
| on_key (e : key_event)
| on_cursor (x y : double)
| on_button (button action mods : Z)
| on_scroll (xoffset yoffset : double)
| on_resize (width height : Z)
| on_close.

(** Deliver one event to its callback.  [owned] is the template
    argument of [key_callback], [gltf_opens] whether the file of Ctrl-m
    can be written, [prevent_close] the flag
    [preventWindowCloseWithButton]. *)
Definition deliver (owned gltf_opens prevent_close : bool) (this : VisualOwnable M)
    (e : input_event) : result (VisualOwnable M) :=
  match e with
  | on_key e =>
      '(this, _) ← key_callback K owned gltf_opens this
                     (ev_key e) (ev_scancode e) (ev_action e) (ev_mods e);
      Ok this
  | on_cursor x y => Ok (cursor_position_callback T this x y).1
  | on_button button action mods => Ok (mouse_button_callback T K this button action mods)
  | on_scroll xoffset yoffset => Ok (scroll_callback T this xoffset yoffset).1
  | on_resize width height => Ok (window_size_callback width height this).1
  | on_close => Ok (window_close_callback prevent_close this)
  end.

(** Deliver events one after the other; a fault ends the run. *)
Fixpoint deliver_all (owned gltf_opens prevent_close : bool) (this : VisualOwnable M)
    (evs : list input_event) : result (VisualOwnable M) :=
  match evs with
  | [] => Ok this
  | e :: evs' =>
      this ← deliver owned gltf_opens prevent_close this e;
      deliver_all owned gltf_opens prevent_close this evs'
  end.

(** *** key_callback as a list of steps

    The blocks of [key_callback] in their order, each acting on the pair of
    the scene and [needs_render]; [key_callback_steps] below shows that
    running them is [key_callback]. *)
Definition key_steps (owned gltf_opens : bool) (_key action mods : Z)
  : list (VisualOwnable M * bool → result (VisualOwnable M * bool)) :=
  let ctrl_press := has_mod mods (keymod_control K) && (action =? keyaction_press K)%Z in
  [ λ '(this, needs_render),
      Ok (if owned && (_key =? key_code K key.q)%Z && ctrl_press
          then signal_to_quit this else this, needs_render);
    λ '(this, needs_render),
      Ok (if negb (sceneLocked this) && (_key =? key_code K key.c)%Z && ctrl_press
          then (set_showCoordArrows (negb (showCoordArrows this)) this, true)
          else (this, needs_render));
    λ '(this, needs_render),
      Ok (if (_key =? key_code K key.l)%Z && ctrl_press
          then set_sceneLocked (if sceneLocked this then false else true) this
          else this, needs_render);
    λ p,
      _ ← (if (_key =? key_code K key.m)%Z && ctrl_press
           then savegltf gltf_opens else Ok tt);
      Ok p;
    λ '(this, needs_render), Ok (select_model K _key action this, needs_render);
    λ '(this, needs_render),
      this ← toggle_hide K _key action mods this; Ok (this, needs_render);
    λ '(this, needs_render),
      this ← adjust_alpha K _key action mods this; Ok (this, needs_render);
    λ '(this, needs_render), Ok (cyl_keys K _key action mods this, needs_render);
    λ '(this, needs_render),
      Ok (if negb (sceneLocked this) && (_key =? key_code K key.a)%Z && ctrl_press
          then (set_rotation (rotation_default this)
                  (set_cyl_cam_pos (cyl_cam_pos_default this)
                     (set_scenetrans (scenetrans_default this) this)), true)
          else (this, needs_render));
    λ '(this, needs_render), Ok (projection_keys K _key action mods this, needs_render);
    λ '(this, needs_render),
      Ok (if (_key =? key_code K key.y)%Z && ctrl_press
          then (set_ptype (cycle_ptype (ptype this)) this, true)
          else (this, needs_render)) ].

(** Run steps in order; a fault ends the run. *)
Fixpoint run_steps {S : Type} (steps : list (S → result S)) (s : S) : result S :=
  match steps with
  | [] => Ok s
  | step :: rest => s ← step s; run_steps rest s
  end.

End SceneMore.

(** ** The shader programs

    [shaders.gprog] and [shaders.tprog] hold OpenGL program ids (a
    [GLuint], 0 for no program) and [active_gprog] says which graphics
    shader [gprog] is.  [init_gl], [render] and [deconstructCommon] create
    and delete the programs; each is modelled by the members it leaves and
    the calls it makes, in order.  What [morph::gl::LoadShaders] returns
    is decided by the driver, so it is an argument. *)

Module graphics_shader_type.
Inductive t : Type := none | projection2d | cylindrical.
End graphics_shader_type.

#[global] Instance graphics_shader_type_eq_dec : EqDecision graphics_shader_type.t.
Proof. solve_decision. Defined.

(** The lists of [ShaderInfo] that [init_gl] fills in. *)
Inductive shader_progs : Type := proj2d_shader_progs | cyl_shader_progs | text_shader_progs.

Record shader_state : Type := {
  gprog : Z;
  tprog : Z;
  active_gprog : graphics_shader_type.t
}.

Inductive gl_call : Type :=
| LoadShaders (progs : shader_progs) (returned : Z)
| DeleteProgram (program : Z).

(** The shader part of [init_gl]; [loaded_g] and [loaded_t] are what the
    two calls of [LoadShaders] return. *)
Definition init_gl_shaders (loaded_g loaded_t : Z) : shader_state * list gl_call :=
  ({| gprog := loaded_g; tprog := loaded_t;
      active_gprog := graphics_shader_type.projection2d |},
   [LoadShaders proj2d_shader_progs loaded_g; LoadShaders text_shader_progs loaded_t]).

(** The shader selection at the head of [render]; [loaded] is what
    [LoadShaders] returns if this render calls it. *)
Definition render_shaders (p : perspective_type) (loaded : Z) (s : shader_state)
  : shader_state * list gl_call :=
  if bool_decide (p = orthographic) || bool_decide (p = perspective) then
    if bool_decide (active_gprog s ≠ graphics_shader_type.projection2d) then
      ({| gprog := loaded; tprog := tprog s;
          active_gprog := graphics_shader_type.projection2d |},
       (if bool_decide (gprog s ≠ 0%Z) then [DeleteProgram (gprog s)] else [])
       ++ [LoadShaders proj2d_shader_progs loaded])
    else (s, [])
  else if bool_decide (p = cylindrical) then
    if bool_decide (active_gprog s ≠ graphics_shader_type.cylindrical) then
      ({| gprog := loaded; tprog := tprog s;
          active_gprog := graphics_shader_type.cylindrical |},
       (if bool_decide (gprog s ≠ 0%Z) then [DeleteProgram (gprog s)] else [])
       ++ [LoadShaders cyl_shader_progs loaded])
    else (s, [])
  else (s, []).

(** [deconstructCommon], as far as the programs go. *)
Definition deconstructCommon (s : shader_state) : shader_state * list gl_call :=
  let '(s, calls) :=
    if bool_decide (gprog s ≠ 0%Z)
    then ({| gprog := 0; tprog := tprog s; active_gprog := graphics_shader_type.none |},
          [DeleteProgram (gprog s)])
    else (s, []) in
  if bool_decide (tprog s ≠ 0%Z)
  then ({| gprog := gprog s; tprog := 0; active_gprog := active_gprog s |},
        calls ++ [DeleteProgram (tprog s)])
  else (s, calls).

(** A run of renders: each frame is the projection in force when
    [render] is called and what [LoadShaders] would return. *)
Fixpoint render_frames (frames : list (perspective_type * Z)) (s : shader_state)
  : shader_state * list gl_call :=
  match frames with
  | [] => (s, [])
  | (p, loaded) :: frames' =>
      let '(s, calls) := render_shaders p loaded s in
      let '(s, calls') := render_frames frames' s in
      (s, calls ++ calls')
  end.

(** The calls of a whole life: construction, renders, destruction. *)
Definition shader_lifetime (loaded_g loaded_t : Z) (frames : list (perspective_type * Z))
  : list gl_call :=
  let '(s, c0) := init_gl_shaders loaded_g loaded_t in
  let '(s, c1) := render_frames frames s in
  let '(s, c2) := deconstructCommon s in
  c0 ++ c1 ++ c2.

(** The programs that a run of calls created (0 is "no program") and
    the programs it deleted. *)
Definition programs_created (calls : list gl_call) : list Z :=
  filter (λ id, id ≠ 0%Z)
    (omap (λ c, match c with LoadShaders _ id => Some id | DeleteProgram _ => None end) calls).

Definition programs_deleted (calls : list gl_call) : list Z :=
  omap (λ c, match c with DeleteProgram id => Some id | LoadShaders _ _ => None end) calls.

(** The programs that the members hold. *)
Definition programs_held (s : shader_state) : list Z :=
  filter (λ id, id ≠ 0%Z) [gprog s] ++ filter (λ id, id ≠ 0%Z) [tprog s].

(** The shader that [render] wants for a projection. *)
Definition shader_for (p : perspective_type) : graphics_shader_type.t :=
  match p with
  | cylindrical => graphics_shader_type.cylindrical
  | _ => graphics_shader_type.projection2d
  end.

(** What the calls so far created is what they deleted together with
    what the members hold. *)
Definition programs_balanced (s : shader_state) (calls : list gl_call) : Prop :=
  programs_deleted calls ++ programs_held s ≡ₚ programs_created calls.

(** ** Notions used in the further statements *)

(** The addresses held by the registry, in order. *)
Definition addresses {M} (this : VisualOwnable M) : list ptr := unique_ptr.get <$> vm this.

(** The members that no key event assigns: the registry's addresses, the
    window width, the pointer and gesture state, the matrices, the
    orthographic bounds, the scroll step and the three defaults. *)
Definition key_untouched {M} (this after : VisualOwnable M) : Prop :=
  addresses after = addresses this
  ∧ window_w after = window_w this
  ∧ cursorpos after = cursorpos this
  ∧ mousePressPosition after = mousePressPosition this
  ∧ rotateMode after = rotateMode this
  ∧ rotateModMode after = rotateModMode this
  ∧ translateMode after = translateMode this
  ∧ rotationAxis after = rotationAxis this
  ∧ savedRotation after = savedRotation this
  ∧ projection after = projection this
  ∧ invproj after = invproj this
  ∧ scene after = scene this
  ∧ invscene after = invscene this
  ∧ ortho_lb after = ortho_lb this
  ∧ ortho_rt after = ortho_rt this
  ∧ scenetrans_stepsize after = scenetrans_stepsize this
  ∧ scenetrans_default after = scenetrans_default this
  ∧ rotation_default after = rotation_default this
  ∧ cyl_cam_pos_default after = cyl_cam_pos_default this.

(** The members that the scene lock protects from the keys. *)
Definition camera_kept {M} (this after : VisualOwnable M) : Prop :=
  scenetrans after = scenetrans this
  ∧ cyl_cam_pos after = cyl_cam_pos this
  ∧ rotation after = rotation this
  ∧ fov after = fov this
  ∧ zNear after = zNear this
  ∧ showCoordArrows after = showCoordArrows this.

(** Ctrl-[k] pressed, as the test that [key_callback] makes. *)
Definition ctrl_pressed (K : keys_h) (k : key.name) (e : key_event) : bool :=
  (ev_key e =? key_code K k)%Z
  && (has_mod (ev_mods e) (keymod_control K) && (ev_action e =? keyaction_press K)%Z).

(** The event is Ctrl-l pressed on the keyboard. *)
Definition is_lock_key (K : keys_h) (ev : input_event) : bool :=
  match ev with
  | on_key e => ctrl_pressed K key.l e
  | _ => false
  end.

(** What no input event assigns: the addresses in the registry, the
    projection matrix and its inverse, the scroll step and the three
    defaults that Ctrl-a restores. *)
Definition session_constants {M} (this after : VisualOwnable M) : Prop :=
  addresses after = addresses this
  ∧ projection after = projection this
  ∧ invproj after = invproj this
  ∧ scenetrans_stepsize after = scenetrans_stepsize this
  ∧ scenetrans_default after = scenetrans_default this
  ∧ rotation_default after = rotation_default this
  ∧ cyl_cam_pos_default after = cyl_cam_pos_default this.

(** No drag is under way. *)
Definition no_drag {M} (this : VisualOwnable M) : Prop :=
  rotateMode this = false ∧ translateMode this = false.

(** The view: what the pointer, the wheel and the view keys act on. *)
Definition view_kept {M} (this after : VisualOwnable M) : Prop :=
  camera_kept this after
  ∧ ortho_lb after = ortho_lb this
  ∧ ortho_rt after = ortho_rt this.

(** Scenes and events for the further examples. *)

(** The fresh scene once the left button has gone down: a rotation drag
    is under way. *)
Definition rotating_scene : VisualOwnable model.t :=
  mouse_button_callback plain_ops glfw_keys fresh_scene
    (mousebutton_left glfw_keys) (keyaction_press glfw_keys) 0.

(** A session on the locked scene: the cursor moves, the right button
    goes down, the wheel turns, Ctrl-o and Ctrl-a are pressed, the window
    is resized. *)
Definition sample_session : list input_event :=
  [on_cursor (f64.of_Z 100) (f64.of_Z 50);
   on_button (mousebutton_right glfw_keys) (keyaction_press glfw_keys) 0;
   on_cursor (f64.of_Z 120) (f64.of_Z 80);
   on_scroll (f64.of_Z 0) (f64.of_Z 1);
   on_key (glfw_event key.o 1 2);
   on_key (glfw_event key.a 1 2);
   on_resize 800 600].

(** A snapshot that holds the z translation and the w of the rotation. *)
Definition two_field_json : json.t :=
  json.object [("scenetrans_z"%string, json.number_integer (-9));
               ("scenerotn_w"%string, json.number_integer 0)].

(** * Properties *)

(** ** Key codes *)

Lemma key_eqb_eq (k1 k2 : key.name) : key.eqb k1 k2 = true ↔ k1 = k2.
Proof.
  split.
  - destruct k1, k2; (reflexivity || discriminate).
  - intros ->. destruct k2; reflexivity.
Qed.

Lemma key_all_complete (k : key.name) : In k key.all.
Proof. destruct k; simpl; tauto. Qed.

(** With distinct codes, comparing two codes is comparing the names. *)
Lemma key_code_eqb (K : keys_h) (k1 k2 : key.name) :
  keys_distinct K = true → (key_code K k1 =? key_code K k2)%Z = key.eqb k1 k2.
Proof.
  intros Hd. unfold keys_distinct in Hd.
  rewrite forallb_forall in Hd. specialize (Hd k1 (key_all_complete k1)).
  rewrite forallb_forall in Hd. specialize (Hd k2 (key_all_complete k2)).
  destruct (key.eqb k1 k2) eqn:E.
  - apply key_eqb_eq in E as ->. apply Z.eqb_refl.
  - destruct (key_code K k1 =? key_code K k2)%Z; [discriminate | reflexivity].
Qed.

(** ** The renderable registry *)

Section Registry.
Context {M : Type}.
Implicit Types (this : VisualOwnable M) (u : unique_ptr M) (vmp : ptr).

Lemma find_model_no_match vmp (rest : list (unique_ptr M)) (modelId : nat) :
  Forall (λ u, unique_ptr.get u ≠ vmp) rest →
  find_model vmp rest modelId = (modelId + length rest, false).
Proof.
  intros Hall. revert modelId.
  induction Hall as [|u rest Hu _ IH]; intros modelId; simpl.
  - f_equal. lia.
  - apply Z.eqb_neq in Hu. rewrite Hu, IH. f_equal. lia.
Qed.

Lemma find_model_first_match vmp (before after : list (unique_ptr M)) u (modelId : nat) :
  Forall (λ u', unique_ptr.get u' ≠ vmp) before →
  unique_ptr.get u = vmp →
  find_model vmp (before ++ u :: after) modelId = (modelId + length before, true).
Proof.
  intros Hall Hu. revert modelId.
  induction Hall as [|u' before Hu' _ IH]; intros modelId; simpl.
  - apply Z.eqb_eq in Hu. rewrite Hu. f_equal. lia.
  - apply Z.eqb_neq in Hu'. rewrite Hu', IH. f_equal. lia.
Qed.

Lemma set_vm_same this : set_vm (vm this) this = this.
Proof. destruct this; reflexivity. Qed.

(** C10. [removeVisualModel (vmp)] with a pointer that no entry of the
    registry holds leaves the scene as it is; with a pointer that is held,
    it erases the first entry whose address is [vmp], keeps every other
    entry in order, and changes nothing else. *)
Theorem removeVisualModel_by_pointer vmp this :
  (Forall (λ u, unique_ptr.get u ≠ vmp) (vm this) → removeVisualModel vmp this = this)
  ∧ (∀ before u after,
       vm this = before ++ u :: after →
       Forall (λ u', unique_ptr.get u' ≠ vmp) before →
       unique_ptr.get u = vmp →
       removeVisualModel vmp this = set_vm (before ++ after) this).
Proof.
  split.
  - intros Hall. unfold removeVisualModel.
    rewrite (find_model_no_match _ _ _ Hall). reflexivity.
  - intros before u after Hvm Hall Hu. unfold removeVisualModel.
    rewrite Hvm, (find_model_first_match _ _ after _ _ Hall Hu). simpl.
    rewrite delete_middle. reflexivity.
Qed.

Lemma find_model_found vmp (rest : list (unique_ptr M)) (modelId : nat) :
  (find_model vmp rest modelId).2 = true ↔ Exists (λ u, unique_ptr.get u = vmp) rest.
Proof.
  revert modelId. induction rest as [|u rest IH]; intros modelId; cbn [find_model].
  - rewrite Exists_nil. split; [discriminate | tauto].
  - rewrite Exists_cons.
    destruct (Z.eqb_spec (unique_ptr.get u) vmp) as [Heq|Hne]; cbn [snd].
    + tauto.
    + rewrite IH. tauto.
Qed.

(** [validVisualModel] answers with the pointer when an entry holds it,
    and with [nullptr] otherwise. *)
Lemma validVisualModel_owned vmp this :
  (Exists (λ u, unique_ptr.get u = vmp) (vm this) → validVisualModel vmp this = vmp)
  ∧ (Forall (λ u, unique_ptr.get u ≠ vmp) (vm this) → validVisualModel vmp this = 0%Z).
Proof.
  unfold validVisualModel. split.
  - intros Hex. apply (find_model_found vmp _ 0) in Hex. rewrite Hex. reflexivity.
  - intros Hall. rewrite (find_model_no_match _ _ _ Hall). reflexivity.
Qed.
End Registry.

Lemma removeVisualModel_by_pointer_witness :
  removeVisualModel 12345%Z three_model_scene = three_model_scene
  ∧ removeVisualModel 8192%Z three_model_scene
    = set_vm [model_at 4096%Z; model_at 12288%Z] three_model_scene.
Proof.
  split.
  - apply (proj1 (removeVisualModel_by_pointer 12345%Z three_model_scene)).
    simpl. repeat constructor; simpl; lia.
  - apply (proj2 (removeVisualModel_by_pointer 8192%Z three_model_scene)
             [model_at 4096%Z] (model_at 8192%Z) [model_at 12288%Z]).
    + reflexivity.
    + repeat constructor; simpl; lia.
    + reflexivity.
Defined.

(** ** The grid of reachable fields of view *)

Lemma fov_grid_facts :
  Forall (λ f, fov_reduce f ∈ fov_grid ∧ fov_increase f ∈ fov_grid ∧ fov_in_range f) fov_grid.
Proof. refine (bool_decide_unpack _ _). vm_compute. exact I. Qed.

Lemma fov_grid_closed (f : float) :
  f ∈ fov_grid → fov_reduce f ∈ fov_grid ∧ fov_increase f ∈ fov_grid.
Proof.
  intros Hf. pose proof (proj1 (Forall_forall _ _) fov_grid_facts f Hf) as (? & ? & _). tauto.
Qed.

Lemma fov_grid_in_range (f : float) : f ∈ fov_grid → fov_in_range f.
Proof.
  intros Hf. pose proof (proj1 (Forall_forall _ _) fov_grid_facts f Hf) as (_ & _ & ?). tauto.
Qed.

Lemma fov_default_on_grid : f32.of_Z 30 ∈ fov_grid.
Proof. refine (bool_decide_unpack _ _). vm_compute. exact I. Qed.

(** ** The key handler, block by block *)

Section KeyBlocks.
Context {M : Type} `{VisualModel M}.
Context (K : keys_h) (Hd : keys_distinct K = true).
Implicit Types (this : VisualOwnable M) (k : key.name).

(** The selection chain at the code of a key name. *)
Lemma select_model_code k action this :
  select_model K (key_code K k) action this
  = match requested_index k with
    | Some 0 => if (action =? keyaction_press K)%Z
                then set_selectedVisualModel 0 this else this
    | Some i => if (action =? keyaction_press K)%Z && (i <? length (vm this))%nat
                then set_selectedVisualModel i this else this
    | None => this
    end.
Proof.
  unfold select_model. rewrite !(key_code_eqb K _ _ Hd).
  destruct k; cbn [key.eqb requested_index andb];
    destruct (action =? keyaction_press K)%Z; cbn [andb]; try reflexivity;
    match goal with |- context [(?i <? ?n)%nat] => destruct (i <? n)%nat end; reflexivity.
Qed.

Lemma toggle_hide_code k action mods this :
  toggle_hide K (key_code K k) action mods this
  = if bool_decide (is_Some (requested_index k))
       && (action =? keyaction_press K)%Z && has_mod mods (keymod_shift K)
    then call_model toggleHide (selectedVisualModel this) this
    else Ok this.
Proof.
  unfold toggle_hide. rewrite !(key_code_eqb K _ _ Hd).
  destruct k; reflexivity.
Qed.

Lemma adjust_alpha_other k action mods this :
  key.eqb k key.left = false → key.eqb k key.right = false →
  adjust_alpha K (key_code K k) action mods this = Ok this.
Proof.
  intros Hl Hr. unfold adjust_alpha. rewrite !(key_code_eqb K _ _ Hd), Hl, Hr. reflexivity.
Qed.

Lemma cyl_keys_other k action mods this :
  key.eqb k key.up = false → key.eqb k key.down = false →
  cyl_keys K (key_code K k) action mods this = this.
Proof.
  intros Hu Hw. unfold cyl_keys. rewrite !(key_code_eqb K _ _ Hd), Hu, Hw. reflexivity.
Qed.

Lemma projection_keys_other k action mods this :
  key.eqb k key.o = false → key.eqb k key.p = false →
  key.eqb k key.u = false → key.eqb k key.i = false →
  projection_keys K (key_code K k) action mods this = this.
Proof.
  intros Ho Hp Hu Hi. unfold projection_keys.
  rewrite !(key_code_eqb K _ _ Hd), Ho, Hp, Hu, Hi, !andb_false_r. reflexivity.
Qed.

Lemma projection_keys_ctrl_o mods this :
  has_mod mods (keymod_control K) = true → sceneLocked this = false →
  projection_keys K (key_code K key.o) (keyaction_press K) mods this
  = set_fov (fov_reduce (fov this)) this.
Proof.
  intros Hc Hl. unfold projection_keys.
  rewrite !(key_code_eqb K _ _ Hd), Hc, Z.eqb_refl.
  destruct this; cbn in Hl; subst. reflexivity.
Qed.

Lemma projection_keys_ctrl_p mods this :
  has_mod mods (keymod_control K) = true → sceneLocked this = false →
  projection_keys K (key_code K key.p) (keyaction_press K) mods this
  = set_fov (fov_increase (fov this)) this.
Proof.
  intros Hc Hl. unfold projection_keys.
  rewrite !(key_code_eqb K _ _ Hd), Hc, Z.eqb_refl.
  destruct this; cbn in Hl; subst. reflexivity.
Qed.

(** Evaluate [key_callback] at the code of a key name.  First the key
    tests that [key_callback] spells out itself become comparisons of
    names; then, with the scene lock and [owned] decided and the record
    opened, the blocks are taken one after the other. *)
Ltac scene_cbn :=
  cbn -[fov_reduce fov_increase f32.mul f32.div f32.sub f32.add cycle_ptype
        call_model has_mod Z.eqb Nat.ltb length
        select_model toggle_hide adjust_alpha cyl_keys projection_keys].

Ltac key_blocks :=
  repeat (first [ rewrite Z.eqb_refl
                | match goal with
                  | Hb : _ = false |- _ => rewrite Hb
                  | Hb : _ = true |- _ => rewrite Hb
                  end
                | rewrite select_model_code
                | rewrite toggle_hide_code
                | rewrite adjust_alpha_other by reflexivity
                | rewrite cyl_keys_other by reflexivity
                | rewrite projection_keys_other by reflexivity
                | rewrite projection_keys_ctrl_o by (assumption || reflexivity)
                | rewrite projection_keys_ctrl_p by (assumption || reflexivity) ];
          scene_cbn).

Ltac key_eval this owned :=
  unfold key_callback, signal_to_quit, savegltf;
  rewrite ?(key_code_eqb K _ _ Hd), ?Z.eqb_refl;
  repeat match goal with Hc : has_mod _ _ = _ |- _ => rewrite Hc end;
  let Hl := fresh "Hl" in
  destruct (sceneLocked this) eqn:Hl; destruct this, owned; cbn in Hl; subst;
  try discriminate;
  scene_cbn; key_blocks.

Lemma key_callback_ctrl_y owned gltf this sc mods :
  has_mod mods (keymod_control K) = true →
  key_callback K owned gltf this (key_code K key.y) sc (keyaction_press K) mods
  = Ok (set_ptype (cycle_ptype (ptype this)) this, true).
Proof.
  intros Hc. key_eval this owned; reflexivity.
Qed.

Lemma key_callback_ctrl_o owned gltf this sc mods :
  has_mod mods (keymod_control K) = true → sceneLocked this = false →
  key_callback K owned gltf this (key_code K key.o) sc (keyaction_press K) mods
  = Ok (set_fov (fov_reduce (fov this)) this, false).
Proof.
  intros Hc Hl. key_eval this owned; reflexivity.
Qed.

Lemma key_callback_ctrl_p owned gltf this sc mods :
  has_mod mods (keymod_control K) = true → sceneLocked this = false →
  key_callback K owned gltf this (key_code K key.p) sc (keyaction_press K) mods
  = Ok (set_fov (fov_increase (fov this)) this, false).
Proof.
  intros Hc Hl. key_eval this owned; reflexivity.
Qed.

(** A function key that asks for an index the registry does not have:
    nothing is selected (F1 selects 0 all the same), and with shift the
    hide flag of the selected model is toggled. *)
Lemma key_callback_function_key owned gltf this k i sc mods :
  requested_index k = Some i → length (vm this) ≤ i →
  let this1 := match i with 0 => set_selectedVisualModel 0 this | S _ => this end in
  key_callback K owned gltf this (key_code K k) sc (keyaction_press K) mods
  = if has_mod mods (keymod_shift K)
    then this2 ← call_model toggleHide (selectedVisualModel this1) this1; Ok (this2, false)
    else Ok (this1, false).
Proof.
  intros Hk Hlen this1. subst this1. apply Nat.ltb_ge in Hlen.
  destruct (has_mod mods (keymod_shift K)) eqn:Hs;
    destruct k; try discriminate Hk; injection Hk as <-; cbv iota;
    key_eval this owned; cbn [vm] in Hlen; key_blocks;
    try reflexivity;
    unfold call_model; cbn [vm selectedVisualModel set_selectedVisualModel];
    match goal with |- context [?l !! ?i] => destruct (l !! i) end;
    cbn; key_blocks; reflexivity.
Qed.

(** Shift-Left and Shift-Right with nothing in the registry do nothing. *)
Lemma key_callback_alpha_empty owned gltf this k sc action mods :
  vm this = [] → k = key.left ∨ k = key.right →
  key_callback K owned gltf this (key_code K k) sc action mods = Ok (this, false).
Proof.
  intros Hvm [-> | ->];
    key_eval this owned; cbn in Hvm; subst;
    unfold adjust_alpha; rewrite ?(key_code_eqb K _ _ Hd); cbn [key.eqb andb];
    destruct (_ && has_mod mods (keymod_shift K)); scene_cbn; key_blocks; reflexivity.
Qed.

(** A function key with shift, pressed while the registry is empty,
    indexes [vm] past its end. *)
Lemma key_callback_hide_empty owned gltf this k i sc mods :
  vm this = [] → requested_index k = Some i →
  has_mod mods (keymod_shift K) = true →
  key_callback K owned gltf this (key_code K k) sc (keyaction_press K) mods
  = Fault out_of_range.
Proof.
  intros Hvm Hk Hs.
  rewrite (key_callback_function_key _ _ _ k i) by (rewrite ?Hvm; simpl; (assumption || lia)).
  rewrite Hs. unfold call_model.
  destruct i; cbn; rewrite Hvm; reflexivity.
Qed.

(** *** Runs of field-of-view and projection keys *)

Lemma key_run_cons owned gltf this e evs :
  key_run K owned gltf this (e :: evs)
  = key_callback K owned gltf this (ev_key e) (ev_scancode e) (ev_action e) (ev_mods e)
    ≫= λ r, key_run K owned gltf r.1 evs.
Proof. cbn [key_run]. destruct (key_callback _ _ _ _ _ _ _ _) as [[? ?]|]; reflexivity. Qed.

Lemma key_run_ctrl_o owned gltf this e evs :
  is_ctrl_press K key.o e → sceneLocked this = false →
  key_run K owned gltf this (e :: evs)
  = key_run K owned gltf (set_fov (fov_reduce (fov this)) this) evs.
Proof.
  intros (Hk & Hc & Ha) Hl. rewrite key_run_cons, Hk, Ha.
  rewrite key_callback_ctrl_o by assumption. reflexivity.
Qed.

Lemma key_run_ctrl_p owned gltf this e evs :
  is_ctrl_press K key.p e → sceneLocked this = false →
  key_run K owned gltf this (e :: evs)
  = key_run K owned gltf (set_fov (fov_increase (fov this)) this) evs.
Proof.
  intros (Hk & Hc & Ha) Hl. rewrite key_run_cons, Hk, Ha.
  rewrite key_callback_ctrl_p by assumption. reflexivity.
Qed.

Lemma key_run_ctrl_y owned gltf this e evs :
  is_ctrl_press K key.y e →
  key_run K owned gltf this (e :: evs)
  = key_run K owned gltf (set_ptype (cycle_ptype (ptype this)) this) evs.
Proof.
  intros (Hk & Hc & Ha). rewrite key_run_cons, Hk, Ha.
  rewrite key_callback_ctrl_y by assumption. reflexivity.
Qed.

(** The field of view stays on the grid of even values. *)
Lemma key_run_fov_grid owned gltf evs : ∀ this,
  sceneLocked this = false → fov this ∈ fov_grid →
  Forall (λ e, is_ctrl_press K key.o e ∨ is_ctrl_press K key.p e) evs →
  ∃ this', key_run K owned gltf this evs = Ok this' ∧ fov this' ∈ fov_grid.
Proof.
  induction evs as [|e evs IH]; intros this Hl Hg Hevs.
  - exists this. split; [reflexivity | assumption].
  - apply Forall_cons in Hevs as [[He|He] Hevs].
    + rewrite key_run_ctrl_o by assumption. apply IH; [assumption | | assumption].
      apply (proj1 (fov_grid_closed _ Hg)).
    + rewrite key_run_ctrl_p by assumption. apply IH; [assumption | | assumption].
      apply (proj2 (fov_grid_closed _ Hg)).
Qed.

(** A run of [n] reductions applies [fov_reduce] [n] times. *)
Lemma key_run_reduce owned gltf evs : ∀ this,
  sceneLocked this = false → Forall (is_ctrl_press K key.o) evs →
  ∃ this', key_run K owned gltf this evs = Ok this'
           ∧ fov this' = Nat.iter (length evs) fov_reduce (fov this).
Proof.
  induction evs as [|e evs IH]; intros this Hl Hevs.
  - exists this. split; reflexivity.
  - apply Forall_cons in Hevs as [He Hevs].
    rewrite key_run_ctrl_o by assumption.
    destruct (IH (set_fov (fov_reduce (fov this)) this)) as (this' & Hrun & Hfov);
      [assumption | assumption |].
    exists this'. split; [assumption |].
    rewrite Hfov. cbn [length fov set_fov]. symmetry. apply Nat.iter_succ_r.
Qed.

(** C2. From a field of view of 30 and with the scene unlocked, take any
    run of Ctrl-o (reduce by 2) and Ctrl-p (increase by 2) presses: after
    each event of the run the handler has returned and the field of view
    lies in [2, 178]; after twenty reductions it is exactly 2. *)
Theorem fov_stays_in_range owned gltf this evs :
  fov this = f32.of_Z 30 → sceneLocked this = false →
  Forall (λ e, is_ctrl_press K key.o e ∨ is_ctrl_press K key.p e) evs →
  (∀ n, ∃ this', key_run K owned gltf this (take n evs) = Ok this'
                 ∧ fov_in_range (fov this'))
  ∧ (length evs = 20 → Forall (is_ctrl_press K key.o) evs →
     ∃ this', key_run K owned gltf this evs = Ok this' ∧ fov this' = f32.of_Z 2).
Proof.
  intros Hfov Hl Hevs. split.
  - intros n.
    destruct (key_run_fov_grid owned gltf (take n evs) this) as (this' & Hrun & Hg);
      [assumption | rewrite Hfov; apply fov_default_on_grid | by apply Forall_take |].
    exists this'. split; [assumption | apply (fov_grid_in_range _ Hg)].
  - intros Hlen Hred.
    destruct (key_run_reduce owned gltf evs this) as (this' & Hrun & Hf);
      [assumption | assumption |].
    exists this'. split; [assumption |].
    rewrite Hf, Hlen, Hfov. vm_compute. reflexivity.
Qed.

(** C9. Three Ctrl-y presses in a row bring the projection type back to
    where it was, whatever it was. *)
Theorem ptype_cycle_three owned gltf this e1 e2 e3 :
  is_ctrl_press K key.y e1 → is_ctrl_press K key.y e2 → is_ctrl_press K key.y e3 →
  ∃ this', key_run K owned gltf this [e1; e2; e3] = Ok this' ∧ ptype this' = ptype this.
Proof.
  intros H1 H2 H3.
  rewrite !key_run_ctrl_y by assumption.
  eexists. split; [reflexivity |].
  cbn [ptype set_ptype]. destruct (ptype this); reflexivity.
Qed.

(** X13. The size tests of the selection chain.  A press of a function key
    that asks for an index at or past the size of the registry leaves
    [selectedVisualModel] as it is for F2 to F10, which test [vm.size()],
    and sets it to 0 for F1, which does not; the handler returns (asking
    for no render) when shift is not held or the selected index is inside
    the registry. *)
Theorem select_out_of_range owned gltf this k i sc mods :
  requested_index k = Some i → length (vm this) ≤ i →
  has_mod mods (keymod_shift K) = false ∨ selectedVisualModel this < length (vm this) →
  ∃ this',
    key_callback K owned gltf this (key_code K k) sc (keyaction_press K) mods
    = Ok (this', false)
    ∧ selectedVisualModel this'
      = match i with 0 => 0 | S _ => selectedVisualModel this end.
Proof.
  intros Hk Hlen Hok.
  rewrite (key_callback_function_key _ _ _ k i) by assumption.
  destruct (has_mod mods (keymod_shift K)) eqn:Hs.
  - destruct Hok as [Hok | Hsel]; [discriminate |].
    destruct i as [|i]; [lia |].
    unfold call_model.
    destruct (lookup_lt_is_Some_2 _ _ Hsel) as [u ->].
    eexists. split; reflexivity.
  - eexists. split; [reflexivity |].
    destruct i; reflexivity.
Qed.
End KeyBlocks.

(** ** Scrolling and dragging *)

Section Pointer.
Context {M : Type} `{VisualModel M}.
Context (T : transform_ops) (K : keys_h).
Implicit Types (this : VisualOwnable M).

(** The test [_lb < 0.0f && _rt > 0.0f] of [scroll_callback]. *)
Lemma straddle_test (lb rt : vec2.t) :
  vec2.lt_scalar lb f32.zero && vec2.gt_scalar rt f32.zero = true
  ↔ bounds_straddle_zero lb rt.
Proof.
  unfold vec2.lt_scalar, vec2.gt_scalar, bounds_straddle_zero.
  rewrite !andb_true_iff. tauto.
Qed.

Lemma scroll_callback_frame this xoffset yoffset :
  ptype (scroll_callback T this xoffset yoffset).1 = ptype this
  ∧ sceneLocked (scroll_callback T this xoffset yoffset).1 = sceneLocked this.
Proof.
  unfold scroll_callback.
  destruct (sceneLocked this) eqn:Hl; [cbn; done |].
  destruct (decide (ptype this = orthographic)) as [Ho|Ho].
  - destruct (ortho_rescaled this yoffset) as [_lb _rt].
    destruct (vec2.lt_scalar _lb f32.zero && vec2.gt_scalar _rt f32.zero); cbn; done.
  - cbn. done.
Qed.

(** One orthographic zoom: the candidate bounds are taken when they
    straddle zero, and nothing is assigned when they do not. *)
Lemma scroll_callback_ortho this xoffset yoffset :
  ptype this = orthographic → sceneLocked this = false →
  let after := (scroll_callback T this xoffset yoffset).1 in
  let cand := ortho_rescaled this yoffset in
  (bounds_straddle_zero cand.1 cand.2 → ortho_lb after = cand.1 ∧ ortho_rt after = cand.2)
  ∧ (¬ bounds_straddle_zero cand.1 cand.2 →
     ortho_lb after = ortho_lb this ∧ ortho_rt after = ortho_rt this).
Proof.
  intros Ho Hl after cand. subst after cand. unfold scroll_callback.
  rewrite Hl, decide_True by assumption.
  destruct (ortho_rescaled this yoffset) as [_lb _rt]. cbn [fst snd].
  destruct (vec2.lt_scalar _lb f32.zero && vec2.gt_scalar _rt f32.zero) eqn:Htest.
  - apply straddle_test in Htest. split; [done | tauto].
  - split; [| done]. intros Hs. apply straddle_test in Hs. congruence.
Qed.

Lemma scroll_callback_keeps_bounds this xoffset yoffset :
  ptype this = orthographic → sceneLocked this = false →
  bounds_straddle_zero (ortho_lb this) (ortho_rt this) →
  let after := (scroll_callback T this xoffset yoffset).1 in
  bounds_straddle_zero (ortho_lb after) (ortho_rt after).
Proof.
  intros Ho Hl Hb after.
  destruct (scroll_callback_ortho this xoffset yoffset Ho Hl) as [Hyes Hno].
  fold after in Hyes, Hno.
  set (cand := ortho_rescaled this yoffset) in *.
  destruct (vec2.lt_scalar cand.1 f32.zero && vec2.gt_scalar cand.2 f32.zero) eqn:Htest.
  - apply straddle_test in Htest. destruct (Hyes Htest) as [-> ->]. exact Htest.
  - destruct Hno as [-> ->]; [| exact Hb].
    intros Hs. apply straddle_test in Hs. congruence.
Qed.

Lemma scroll_run_snoc this evs e :
  scroll_run T this (evs ++ [e]) = (scroll_callback T (scroll_run T this evs) e.1 e.2).1.
Proof. unfold scroll_run. rewrite fold_left_app. reflexivity. Qed.

(** A run of scroll events changes neither the projection type nor the
    lock. *)
Lemma scroll_run_frame evs : ∀ this,
  ptype (scroll_run T this evs) = ptype this
  ∧ sceneLocked (scroll_run T this evs) = sceneLocked this.
Proof.
  induction evs as [|e evs IH]; intros this; [done |].
  cbn. destruct (scroll_callback_frame this e.1 e.2) as [Hp Hk].
  destruct (IH (scroll_callback T this e.1 e.2).1) as [IHp IHk].
  unfold scroll_run in *. by rewrite IHp, IHk.
Qed.

(** The invariant of a run of orthographic zooms. *)
Lemma scroll_run_invariant evs : ∀ this,
  ptype this = orthographic → sceneLocked this = false →
  bounds_straddle_zero (ortho_lb this) (ortho_rt this) →
  bounds_straddle_zero (ortho_lb (scroll_run T this evs)) (ortho_rt (scroll_run T this evs)).
Proof.
  induction evs as [|e evs IH]; intros this Ho Hl Hb; [done |].
  cbn. destruct (scroll_callback_frame this e.1 e.2) as [Hp Hk].
  apply IH.
  - by rewrite Hp.
  - by rewrite Hk.
  - by apply scroll_callback_keeps_bounds.
Qed.

(** C1. While the projection is orthographic and the scene unlocked, take
    any run of scroll events and any event of it.  If the bounds straddled
    zero when the run began (as the constructed bounds do), then after the
    event every component of [ortho_lb] is strictly negative and every
    component of [ortho_rt] strictly positive.  An event whose rescaled
    bounds would not be so leaves both bounds as they were; and an event
    that does change a bound leaves bounds that straddle zero, whatever
    they were before. *)
Theorem scroll_keeps_ortho_bounds this (evs : list (double * double)) :
  ptype this = orthographic → sceneLocked this = false →
  ∀ n e, evs !! n = Some e →
    let before := scroll_run T this (take n evs) in
    let after := scroll_run T this (take (S n) evs) in
    let cand := ortho_rescaled before e.2 in
    (bounds_straddle_zero (ortho_lb this) (ortho_rt this) →
     bounds_straddle_zero (ortho_lb after) (ortho_rt after))
    ∧ (¬ bounds_straddle_zero cand.1 cand.2 →
       ortho_lb after = ortho_lb before ∧ ortho_rt after = ortho_rt before)
    ∧ (ortho_lb after ≠ ortho_lb before ∨ ortho_rt after ≠ ortho_rt before →
       bounds_straddle_zero (ortho_lb after) (ortho_rt after)).
Proof.
  intros Ho Hl n e He before after cand.
  destruct (scroll_run_frame (take n evs) this) as [Ho' Hl'].
  fold before in Ho', Hl'. rewrite Ho in Ho'. rewrite Hl in Hl'.
  assert (after = (scroll_callback T before e.1 e.2).1) as Hafter.
  { subst after before. rewrite (take_S_r _ _ _ He). apply scroll_run_snoc. }
  destruct (scroll_callback_ortho before e.1 e.2 Ho' Hl') as [Hyes Hno].
  fold cand in Hyes, Hno. rewrite <- Hafter in Hyes, Hno.
  split; [| split].
  - intros Hb. rewrite Hafter. apply scroll_callback_keeps_bounds; [done | done |].
    by apply scroll_run_invariant.
  - exact Hno.
  - intros Hchanged.
    destruct (vec2.lt_scalar cand.1 f32.zero && vec2.gt_scalar cand.2 f32.zero) eqn:Htest.
    + apply straddle_test in Htest. destruct (Hyes Htest) as [-> ->]. exact Htest.
    + destruct Hno as [Hlb Hrt].
      * intros Hs. apply straddle_test in Hs. congruence.
      * destruct Hchanged; congruence.
Qed.

(** With the scene locked a button event changes nothing. *)
Lemma mouse_button_callback_locked this button action mods :
  sceneLocked this = true → mouse_button_callback T K this button action mods = this.
Proof. intros Hl. unfold mouse_button_callback. by rewrite Hl. Qed.

(** A cursor move outside translate mode: the cursor position is stored,
    the scene translation and the cylindrical camera stay. *)
Lemma cursor_position_callback_idle this x y :
  translateMode this = false →
  let after := (cursor_position_callback T this x y).1 in
  cursorpos after = vec2.mk (f32.of_double x) (f32.of_double y)
  ∧ scenetrans after = scenetrans this
  ∧ cyl_cam_pos after = cyl_cam_pos this
  ∧ translateMode after = translateMode this.
Proof.
  intros Ht after. subst after. unfold cursor_position_callback. cbv zeta.
  cbn [rotateMode translateMode set_cursorpos]. rewrite Ht.
  destruct (rotateMode this);
    cbn [fst cursorpos scenetrans cyl_cam_pos translateMode
         set_cursorpos set_rotation set_rotationAxis]; done.
Qed.

Lemma cursor_run_idle moves : ∀ this,
  translateMode this = false →
  let after := cursor_run T this moves in
  scenetrans after = scenetrans this
  ∧ cyl_cam_pos after = cyl_cam_pos this
  ∧ cursorpos after
    = from_option (λ m, vec2.mk (f32.of_double m.1) (f32.of_double m.2))
        (cursorpos this) (last moves).
Proof.
  induction moves as [|m moves IH]; intros this Ht; [done |].
  destruct (cursor_position_callback_idle this m.1 m.2 Ht) as (Hc & Hs & Hy & Ht').
  cbn [cursor_run fold_left].
  destruct (IH (cursor_position_callback T this m.1 m.2).1) as (IHs & IHy & IHc).
  { by rewrite Ht'. }
  unfold cursor_run in *. rewrite IHs, IHy, IHc, Hs, Hy, Hc.
  split; [done |]. split; [done |].
  destruct moves as [|m' moves]; [reflexivity |].
  change (last (m :: m' :: moves)) with (last (m' :: moves)).
  destruct (last (m' :: moves)) eqn:Hlast; [reflexivity |].
  apply last_None in Hlast. discriminate.
Qed.

(** What the lock does keep.  With the scene locked and [translateMode]
    not set, a mouse-button press followed by any run of cursor moves
    leaves [scenetrans] and [cyl_cam_pos] as they were, and [cursorpos]
    holds the last cursor position delivered. *)
Theorem locked_gesture_keeps_translation this button mods moves :
  sceneLocked this = true → translateMode this = false →
  let pressed := mouse_button_callback T K this button (keyaction_press K) mods in
  let after := cursor_run T pressed moves in
  scenetrans after = scenetrans this
  ∧ cyl_cam_pos after = cyl_cam_pos this
  ∧ cursorpos after
    = from_option (λ m, vec2.mk (f32.of_double m.1) (f32.of_double m.2))
        (cursorpos this) (last moves).
Proof.
  intros Hl Ht pressed after. subst after pressed.
  rewrite mouse_button_callback_locked by assumption.
  by apply cursor_run_idle.
Qed.
End Pointer.

(** ** The snapshot load *)

Section SnapshotFacts.
Context {M : Type}.
Implicit Types (this : VisualOwnable M).

(** A [try] block keeps every relation that is reflexive, transitive
    and kept by each of its statements. *)
Lemma try_catch_all_preserves {S : Type} (R : S → S → Prop) (stmts : list (S → option S)) :
  (∀ s, R s s) → (∀ a b c, R a b → R b c → R a c) →
  Forall (λ stmt, ∀ s s', stmt s = Some s' → R s s') stmts →
  ∀ s, R s (try_catch_all stmts s).
Proof.
  intros Hrefl Htrans Hall. induction Hall as [|stmt stmts Hstmt _ IH]; intros s; cbn.
  - apply Hrefl.
  - destruct (stmt s) as [s'|] eqn:Hs; [| apply Hrefl].
    apply (Htrans _ s'); [by apply Hstmt | apply IH].
Qed.

Lemma only_view_changed_refl this : only_view_changed this this.
Proof. destruct this; reflexivity. Qed.

Lemma only_view_changed_trans (a b c : VisualOwnable M) :
  only_view_changed a b → only_view_changed b c → only_view_changed a c.
Proof.
  unfold only_view_changed. destruct a, b, c; cbn.
  intros [= -> -> -> -> -> -> -> -> -> -> -> -> -> -> -> -> -> -> -> -> -> -> -> -> -> -> -> ->].
  intros [= -> -> -> -> -> -> -> -> -> -> -> -> -> -> -> -> -> -> -> -> -> -> -> -> -> -> -> ->].
  reflexivity.
Qed.

Lemma snapshot_assignments_view (vconf : json.t) :
  Forall (λ stmt : VisualOwnable M → option (VisualOwnable M),
            ∀ s s', stmt s = Some s' → only_view_changed s s')
         (snapshot_assignments vconf).
Proof.
  unfold snapshot_assignments.
  repeat apply Forall_cons_2; [.. | apply Forall_nil_2];
    intros s s'; cbn;
    try (destruct (field_or _ _ _); cbn; [| discriminate]);
    intros [= <-]; destruct s; reflexivity.
Qed.

(** A field that is missing or numeric never throws. *)
Lemma field_or_numeric (vconf : json.t) (k : string) (current : float) :
  (∀ j, json.at_key vconf k = Some j → is_Some (json.get_float j)) →
  field_or vconf k current = Some (field_value vconf k current).
Proof.
  intros Hnum. unfold field_or, field_value, json.contains.
  destruct (json.at_key vconf k) as [j|]; [| reflexivity].
  destruct (Hnum j eq_refl) as [v Hv]. cbn. rewrite Hv. reflexivity.
Qed.

(** C6, as the code has it.  The load returns for every file.  When the
    file is absent or is not JSON the scene is as before.  When every
    field that is present is numeric, each of the seven fields overwrites
    its component of [scenetrans] or [rotation], a missing field leaves
    its component as it was, and [scenetrans_default] becomes a copy of
    the resulting [scenetrans].  Whatever the file holds, nothing but
    [scenetrans], [scenetrans_default] and [rotation] changes. *)
Theorem init_gl_snapshot_load (file : snapshot_file) this :
  let after := init_gl_snapshot file this in
  (file = file_absent ∨ file = file_malformed → after = this)
  ∧ (∀ vconf, file = file_json vconf → numeric_fields vconf →
       scenetrans after
       = vec3.mk (field_value vconf "scenetrans_x" (vec3.x (scenetrans this)))
                 (field_value vconf "scenetrans_y" (vec3.y (scenetrans this)))
                 (field_value vconf "scenetrans_z" (vec3.z (scenetrans this)))
       ∧ scenetrans_default after = scenetrans after
       ∧ rotation after
         = quaternion.mk (field_value vconf "scenerotn_w" (quaternion.w (rotation this)))
                         (field_value vconf "scenerotn_x" (quaternion.x (rotation this)))
                         (field_value vconf "scenerotn_y" (quaternion.y (rotation this)))
                         (field_value vconf "scenerotn_z" (quaternion.z (rotation this))))
  ∧ only_view_changed this after.
Proof.
  intros after. subst after. split; [| split].
  - intros [-> | ->]; reflexivity.
  - intros vconf -> Hnum. unfold numeric_fields, snapshot_fields in Hnum.
    repeat (apply Forall_cons in Hnum as [? Hnum]).
    unfold init_gl_snapshot, snapshot_assignments.
    destruct this as [? ? ? ? ? ? ? ? ? ? ? ? ? ? ? ? ? [tx ty tz] [dx dy dz] ? ? ? ? ?
                        [rw rx ry rz] ? ? ? ? ? ?].
    cbn -[field_or field_value].
    repeat (rewrite field_or_numeric by assumption; cbn -[field_or field_value]).
    done.
  - destruct file; cbn [init_gl_snapshot]; try apply only_view_changed_refl.
    apply try_catch_all_preserves.
    + apply only_view_changed_refl.
    + apply only_view_changed_trans.
    + apply snapshot_assignments_view.
Qed.
End SnapshotFacts.

(** ** The pixel loops of saveImage *)

Section Pixels.
Implicit Types (bits rbits : list GLubyte) (w h : nat).

Lemma fold_insert_snoc {A} (f : nat → A) (base n : nat) (l : list A) :
  fold_left (λ acc j, <[base + j := f j]> acc) (seq 0 (S n)) l
  = <[base + n := f n]> (fold_left (λ acc j, <[base + j := f j]> acc) (seq 0 n) l).
Proof. rewrite seq_S, fold_left_app. reflexivity. Qed.

Lemma fold_insert_length {A} (f : nat → A) (base n : nat) (l : list A) :
  length (fold_left (λ acc j, <[base + j := f j]> acc) (seq 0 n) l) = length l.
Proof.
  induction n as [|n IH]; [reflexivity |].
  rewrite fold_insert_snoc, length_insert. exact IH.
Qed.

(** Inside the range written by the loop: the value written. *)
Lemma fold_insert_lookup_in {A} (f : nat → A) (base n : nat) (l : list A) (j : nat) :
  j < n → base + n ≤ length l →
  fold_left (λ acc j, <[base + j := f j]> acc) (seq 0 n) l !! (base + j) = Some (f j).
Proof.
  induction n as [|n IH]; intros Hj Hlen; [lia |].
  rewrite fold_insert_snoc.
  destruct (decide (j = n)) as [-> | Hne].
  - apply list_lookup_insert_eq. rewrite fold_insert_length. lia.
  - rewrite list_lookup_insert_ne by lia. apply IH; lia.
Qed.

(** Outside that range: what was there. *)
Lemma fold_insert_lookup_out {A} (f : nat → A) (base n : nat) (l : list A) (k : nat) :
  k < base ∨ base + n ≤ k →
  fold_left (λ acc j, <[base + j := f j]> acc) (seq 0 n) l !! k = l !! k.
Proof.
  induction n as [|n IH]; intros Hk; [reflexivity |].
  rewrite fold_insert_snoc, list_lookup_insert_ne by lia. apply IH. lia.
Qed.

(** Both inner loops store [line_byte]. *)
Lemma line_loop (transparent_bg : bool) w (rev_line for_line : nat) bits rbits :
  (if transparent_bg then copy_line w rev_line for_line bits rbits
   else opaque_line w rev_line for_line bits rbits)
  = fold_left (λ acc j, <[rev_line + j := line_byte transparent_bg bits for_line j]> acc)
      (seq 0 (4 * w)) rbits.
Proof. destruct transparent_bg; reflexivity. Qed.

(** After the first [m] lines: line [i] of the capture sits in line
    [h - i - 1] of [rbits]. *)
Lemma lines_loop (transparent_bg : bool) w h bits (m : nat) :
  m ≤ h →
  let rbits :=
    fold_left
      (λ rbits i,
         let rev_line := (h - i - 1) * 4 * w in
         let for_line := i * 4 * w in
         if transparent_bg then copy_line w rev_line for_line bits rbits
         else opaque_line w rev_line for_line bits rbits)
      (seq 0 m) (replicate (w * h * 4) 0%Z) in
  length rbits = w * h * 4
  ∧ ∀ i j, i < m → j < 4 * w →
      rbits !! ((h - i - 1) * 4 * w + j) = Some (line_byte transparent_bg bits (i * 4 * w) j).
Proof.
  induction m as [|m IH]; intros Hm; cbn zeta.
  - split; [apply length_replicate | lia].
  - cbn zeta in IH. rewrite seq_S, fold_left_app, Nat.add_0_l.
    set (acc := fold_left _ (seq 0 m) _) in *.
    destruct IH as [IHlen IHrows]; [lia |].
    cbn [fold_left]. rewrite line_loop.
    split.
    + rewrite fold_insert_length. exact IHlen.
    + intros i j Hi Hj.
      destruct (decide (i = m)) as [-> | Hne].
      * apply fold_insert_lookup_in; [assumption |].
        rewrite IHlen. nia.
      * rewrite fold_insert_lookup_out by nia. apply IHrows; lia.
Qed.

Lemma saveImage_rbits_lookup (transparent_bg : bool) w h bits (i j : nat) :
  i < h → j < 4 * w →
  saveImage_rbits w h transparent_bg bits !! ((h - i - 1) * 4 * w + j)
  = Some (line_byte transparent_bg bits (i * 4 * w) j).
Proof.
  intros Hi Hj. unfold saveImage_rbits.
  by apply (lines_loop transparent_bg w h bits h).
Qed.

(** C8.  For a capture of [w] by [h] pixels that fits the index
    arithmetic of [int], [saveImage] without [transparent_bg] hands the
    encoder pixel data in which every pixel, so every pixel that is not
    background too, has alpha 255; with [transparent_bg] the alpha of
    each captured pixel is kept, in the line that mirrors its own. *)
Theorem saveImage_alpha w h bits (error : nat) (x y : nat) :
  length bits = w * h * 4 → (Z.of_nat (w * h * 4) ≤ INT_MAX)%Z →
  x < w → y < h →
  alpha_at w (saveImage w h bits error false).1 x y = Some 255%Z
  ∧ alpha_at w (saveImage w h bits error true).1 x (h - y - 1) = alpha_at w bits x y.
Proof.
  intros Hlen _ Hx Hy. unfold alpha_at.
  assert (∀ tb, (saveImage w h bits error tb).1 = saveImage_rbits w h tb bits) as Hfst.
  { intros tb. unfold saveImage. by destruct (error =? 0). }
  rewrite !Hfst. split.
  - replace y with (h - (h - y - 1) - 1) at 1 by lia.
    rewrite saveImage_rbits_lookup by lia.
    unfold line_byte.
    replace ((4 * x + 3) mod 4) with 3; [reflexivity |].
    rewrite Nat.add_comm, Nat.mul_comm, Nat.Div0.mod_add. reflexivity.
  - rewrite saveImage_rbits_lookup by lia.
    unfold line_byte. symmetry. apply list_lookup_lookup_total_lt.
    rewrite Hlen. nia.
Qed.
End Pixels.

(** ** The handlers on concrete scenes *)

Lemma glfw_keys_distinct : keys_distinct glfw_keys = true.
Proof. reflexivity. Qed.

(** C3. On a freshly constructed scene, whose registry is empty, pressing
    F1 with shift held makes [key_callback] index [vm] past its end: the
    hide toggle lacks the emptiness test that the alpha keys have. *)
Theorem hide_toggle_on_empty_registry :
  vm fresh_scene = []
  ∧ key_callback glfw_keys true true fresh_scene
      (key_code glfw_keys key.f1) 0 (keyaction_press glfw_keys) (keymod_shift glfw_keys)
    = Fault out_of_range.
Proof. split; vm_compute; reflexivity. Qed.

(** C5. Reducing the field of view, halving the near plane, doubling the
    cylinder radius or height, lowering the alpha of the selected model or
    toggling its hide flag each change what is drawn, and for each of them
    [key_callback] returns false. *)
Theorem visual_changes_return_false :
  changes_without_render fresh_scene (glfw_event key.o 1 2) fov
  ∧ changes_without_render fresh_scene (glfw_event key.u 1 2) zNear
  ∧ changes_without_render fresh_scene (glfw_event key.up 1 1) cyl_radius
  ∧ changes_without_render fresh_scene (glfw_event key.up 1 2) cyl_height
  ∧ changes_without_render one_model_scene (glfw_event key.left 1 1) vm
  ∧ changes_without_render one_model_scene (glfw_event key.f1 1 1) vm.
Proof.
  repeat split;
    (eexists; split; [vm_compute; reflexivity | intros Heq; vm_compute in Heq; discriminate]).
Qed.

(** The scene of the next lemma is reached by the public operations: F2
    selects the second of two models, and once both are removed the
    registry is empty and model 1 is still the selected one. *)
Lemma emptied_scene_state :
  key_callback glfw_keys true true two_model_scene
    (key_code glfw_keys key.f2) 0 (keyaction_press glfw_keys) 0
  = Ok (set_selectedVisualModel 1 two_model_scene, false)
  ∧ vm emptied_scene = [] ∧ selectedVisualModel emptied_scene = 1.
Proof. repeat split; vm_compute; reflexivity. Qed.

(** C4. F1 misses the size test that F2 to F10 make: F1 asks for index
    0, the registry holds nothing, so the index is out of range, and the
    selection moves from 1 to 0 all the same. *)
Theorem select_f1_on_emptied_registry :
  length (vm emptied_scene) ≤ 0
  ∧ key_callback glfw_keys true true emptied_scene
      (key_code glfw_keys key.f1) 0 (keyaction_press glfw_keys) 0
    = Ok (set_selectedVisualModel 0 emptied_scene, false)
  ∧ selectedVisualModel (set_selectedVisualModel 0 emptied_scene)
    ≠ selectedVisualModel emptied_scene.
Proof.
  split; [vm_compute; lia |]. split; [vm_compute; reflexivity |].
  intros Heq. vm_compute in Heq. discriminate.
Qed.

(** C7. The lock does not hold against a translate gesture when it was
    set in the middle of an earlier one.  The right button goes down on the
    fresh scene and Ctrl-l sets the lock; the release of the button is then
    dropped by the early return of [mouse_button_callback], so
    [translateMode] stays set.  The lock is on before the next gesture
    begins; its press is dropped as well, and its cursor moves take the
    translate branch of [cursor_position_callback], which does not test the
    lock: [scenetrans] and [cyl_cam_pos] change.  (The projection matrices
    of the fresh scene are the identity, whose product with a vector is the
    vector, as [plain_ops] has it.) *)
Theorem locked_gesture_translates :
  key_callback glfw_keys true true dragging_scene
    (key_code glfw_keys key.l) 0 (keyaction_press glfw_keys) (keymod_control glfw_keys)
  = Ok (locked_while_dragging, false)
  ∧ mouse_button_callback plain_ops glfw_keys locked_while_dragging
      (mousebutton_right glfw_keys) glfw_release 0 = locked_while_dragging
  ∧ sceneLocked locked_while_dragging = true
  ∧ translateMode locked_while_dragging = true
  ∧ (let pressed :=
       mouse_button_callback plain_ops glfw_keys locked_while_dragging
         (mousebutton_right glfw_keys) (keyaction_press glfw_keys) 0 in
     let moved := cursor_run plain_ops pressed sample_moves in
     scenetrans moved ≠ scenetrans locked_while_dragging
     ∧ cyl_cam_pos moved ≠ cyl_cam_pos locked_while_dragging
     ∧ cursorpos moved = vec2.mk (f32.of_Z 120) (f32.of_Z 80)).
Proof.
  split; [vm_compute; reflexivity |]. split; [vm_compute; reflexivity |].
  split; [reflexivity |]. split; [reflexivity |].
  cbv zeta. split; [| split; [| vm_compute; reflexivity]].
  - intros Heq. vm_compute in Heq. discriminate.
  - intros Heq. vm_compute in Heq. discriminate.
Qed.

(** C6, the claim as stated fails: in a snapshot whose second field is
    text, the first field has been stored when the conversion of the second
    one throws, and it stays. *)
Lemma snapshot_text_field_partly_loaded :
  vec3.x (scenetrans (init_gl_snapshot snapshot_with_text_field fresh_scene)) = f32.of_Z 1
  ∧ scenetrans (init_gl_snapshot snapshot_with_text_field fresh_scene)
    ≠ scenetrans fresh_scene.
Proof.
  split; [vm_compute; reflexivity |].
  intros Heq. vm_compute in Heq. discriminate.
Qed.

(** ** The theorems at concrete inputs *)

Lemma scroll_keeps_ortho_bounds_witness :
  bounds_straddle_zero
    (ortho_lb (scroll_run plain_ops ortho_scene (take 2 sample_scrolls)))
    (ortho_rt (scroll_run plain_ops ortho_scene (take 2 sample_scrolls)))
  ∧ ortho_lb (scroll_run plain_ops ortho_scene (take 2 sample_scrolls))
    = ortho_lb (scroll_run plain_ops ortho_scene (take 1 sample_scrolls)).
Proof.
  destruct (scroll_keeps_ortho_bounds plain_ops ortho_scene sample_scrolls) with
    (n := 1) (e := (f64.of_Z 0, f64.of_Z 20)) as (Hb & Hrej & _).
  - reflexivity.
  - reflexivity.
  - reflexivity.
  - split.
    + apply Hb. repeat split; reflexivity.
    + apply Hrej. intros [Hx _]. vm_compute in Hx. discriminate.
Defined.

Lemma fov_stays_in_range_witness :
  (∃ this', key_run glfw_keys true true fresh_scene
              (take 17 (replicate 20 (glfw_event key.o 1 2))) = Ok this'
            ∧ fov_in_range (fov this'))
  ∧ (∃ this', key_run glfw_keys true true fresh_scene (replicate 20 (glfw_event key.o 1 2))
              = Ok this' ∧ fov this' = f32.of_Z 2).
Proof.
  destruct (fov_stays_in_range glfw_keys eq_refl true true fresh_scene
              (replicate 20 (glfw_event key.o 1 2))) as [Hrange Htwenty].
  - reflexivity.
  - reflexivity.
  - apply Forall_replicate. left. repeat split; reflexivity.
  - split; [exact (Hrange 17) |]. apply Htwenty.
    + reflexivity.
    + apply Forall_replicate. repeat split; reflexivity.
Defined.

Lemma ptype_cycle_three_witness :
  ∃ this', key_run glfw_keys true true fresh_scene
             [glfw_event key.y 1 2; glfw_event key.y 1 2; glfw_event key.y 1 2] = Ok this'
           ∧ ptype this' = ptype fresh_scene.
Proof.
  apply (ptype_cycle_three glfw_keys eq_refl); repeat split; reflexivity.
Defined.

Lemma select_out_of_range_witness :
  ∃ this',
    key_callback glfw_keys true true emptied_scene
      (key_code glfw_keys key.f3) 0 (keyaction_press glfw_keys) 0 = Ok (this', false)
    ∧ selectedVisualModel this' = selectedVisualModel emptied_scene.
Proof.
  apply (select_out_of_range glfw_keys eq_refl true true emptied_scene key.f3 2 0 0).
  - reflexivity.
  - vm_compute. lia.
  - left. reflexivity.
Defined.

Lemma init_gl_snapshot_load_witness :
  init_gl_snapshot file_absent fresh_scene = fresh_scene
  ∧ scenetrans (init_gl_snapshot snapshot_two_fields fresh_scene)
    = vec3.mk f32.zero f32.zero (f32.of_Z (-9))
  ∧ scenetrans_default (init_gl_snapshot snapshot_two_fields fresh_scene)
    = scenetrans (init_gl_snapshot snapshot_two_fields fresh_scene)
  ∧ quaternion.w (rotation (init_gl_snapshot snapshot_two_fields fresh_scene)) = f32.zero.
Proof.
  split.
  - destruct (init_gl_snapshot_load file_absent fresh_scene) as (Habsent & _ & _).
    apply Habsent. left. reflexivity.
  - destruct (init_gl_snapshot_load snapshot_two_fields fresh_scene) as (_ & Hnum & _).
    destruct (Hnum _ eq_refl) as (Hs & Hd & Hr).
    + repeat constructor; intros j Hj; vm_compute in Hj;
        (discriminate || (injection Hj as <-; eexists; reflexivity)).
    + split; [rewrite Hs; reflexivity |]. split; [exact Hd |]. rewrite Hr. reflexivity.
Defined.

Lemma locked_gesture_keeps_translation_witness :
  scenetrans (cursor_run plain_ops
                (mouse_button_callback plain_ops glfw_keys locked_scene
                   (mousebutton_right glfw_keys) (keyaction_press glfw_keys) 0)
                sample_moves) = scenetrans locked_scene
  ∧ cyl_cam_pos (cursor_run plain_ops
                   (mouse_button_callback plain_ops glfw_keys locked_scene
                      (mousebutton_right glfw_keys) (keyaction_press glfw_keys) 0)
                   sample_moves) = cyl_cam_pos locked_scene
  ∧ cursorpos (cursor_run plain_ops
                 (mouse_button_callback plain_ops glfw_keys locked_scene
                    (mousebutton_right glfw_keys) (keyaction_press glfw_keys) 0)
                 sample_moves) = vec2.mk (f32.of_Z 120) (f32.of_Z 80).
Proof.
  apply (locked_gesture_keeps_translation plain_ops glfw_keys locked_scene
           (mousebutton_right glfw_keys) 0 sample_moves); reflexivity.
Defined.

Lemma saveImage_alpha_witness :
  alpha_at 2 (saveImage 2 2 sample_bits 0 false).1 1 0 = Some 255%Z
  ∧ alpha_at 2 (saveImage 2 2 sample_bits 0 true).1 1 1 = alpha_at 2 sample_bits 1 0.
Proof.
  apply (saveImage_alpha 2 2 sample_bits 0 1 0).
  - reflexivity.
  - vm_compute. discriminate.
  - lia.
  - lia.
Defined.

Section KeySteps.
Context {M : Type} `{VisualModel M}.
Context (K : keys_h).
Implicit Types (this : VisualOwnable M).

Lemma key_callback_steps owned gltf this _key sc action mods :
  key_callback K owned gltf this _key sc action mods
  = run_steps (key_steps K owned gltf _key action mods) (this, false).
Proof.
  unfold key_callback, key_steps. cbv beta iota zeta delta [mbind result_bind run_steps].
  repeat (match goal with
          | |- context [savegltf ?g] => destruct (savegltf g) as [[]|]
          | |- context [if ?c then _ else _] => destruct c
          | |- context [toggle_hide K ?k ?a ?m ?s] => destruct (toggle_hide K k a m s)
          | |- context [adjust_alpha K ?k ?a ?m ?s] => destruct (adjust_alpha K k a m s)
          end; cbv beta iota delta [mbind result_bind run_steps]); reflexivity.
Qed.
End KeySteps.

(** ** Invariants of every key event *)

Lemma run_steps_invariant {S : Type} (I : S → Prop) (steps : list (S → result S)) :
  Forall (λ step, ∀ s s', I s → step s = Ok s' → I s') steps →
  ∀ s s', I s → run_steps steps s = Ok s' → I s'.
Proof.
  intros Hall. induction Hall as [|step steps Hstep _ IH]; intros s s' Hi Hrun; cbn in Hrun.
  - by injection Hrun as <-.
  - destruct (step s) as [s1|] eqn:Hs; [| discriminate].
    cbn in Hrun. eapply IH; [| exact Hrun]. by eapply Hstep.
Qed.

Lemma run_steps_returns {S : Type} (I : S → Prop) (steps : list (S → result S)) :
  Forall (λ step, ∀ s, I s → ∃ s', step s = Ok s' ∧ I s') steps →
  ∀ s, I s → ∃ s', run_steps steps s = Ok s' ∧ I s'.
Proof.
  intros Hall. induction Hall as [|step steps Hstep _ IH]; intros s Hi; cbn.
  - by exists s.
  - destruct (Hstep s Hi) as (s1 & -> & Hi1). cbn. by apply IH.
Qed.

Section KeyShapes.
Context {M : Type} `{VisualModel M}.
Context (K : keys_h).
Implicit Types (this : VisualOwnable M).

Lemma set_selectedVisualModel_same this :
  set_selectedVisualModel (selectedVisualModel this) this = this.
Proof. by destruct this. Qed.

(** The selection chain assigns nothing but [selectedVisualModel], and
    only an index that is 0 or inside the registry. *)
Lemma select_model_shape _key action this :
  ∃ i, select_model K _key action this = set_selectedVisualModel i this
       ∧ (i = selectedVisualModel this ∨ i = 0 ∨ i < length (vm this)).
Proof.
  unfold select_model.
  repeat match goal with
         | |- context [if ?c && ?d then _ else _] => destruct (c && d)
         | |- context [if (?i <? ?n)%nat then _ else _] =>
             destruct (Nat.ltb_spec i n)
         end;
    first [ by (exists (selectedVisualModel this); rewrite set_selectedVisualModel_same; auto)
          | by (eexists; split; [reflexivity | auto]) ].
Qed.

Lemma call_model_shape (f : M → M) (i : nat) this this' :
  call_model f i this = Ok this' →
  ∃ vm', this' = set_vm vm' this ∧ unique_ptr.get <$> vm' = unique_ptr.get <$> vm this.
Proof.
  unfold call_model. destruct (vm this !! i) as [u|] eqn:Hu; [| discriminate].
  intros [= <-]. eexists. split; [reflexivity |].
  rewrite list_fmap_insert. apply list_insert_id. by rewrite list_lookup_fmap, Hu.
Qed.

Lemma call_model_returns (f : M → M) (i : nat) this :
  i < length (vm this) → ∃ this', call_model f i this = Ok this'.
Proof.
  intros Hi. unfold call_model.
  destruct (lookup_lt_is_Some_2 _ _ Hi) as [u ->]. by eexists.
Qed.

(** The hide toggle and the alpha keys change models in place: every
    owning pointer keeps its address. *)
Lemma toggle_hide_shape _key action mods this this' :
  toggle_hide K _key action mods this = Ok this' →
  ∃ vm', this' = set_vm vm' this ∧ unique_ptr.get <$> vm' = unique_ptr.get <$> vm this.
Proof.
  unfold toggle_hide. destruct (_ && has_mod mods (keymod_shift K)).
  - apply call_model_shape.
  - intros [= <-]. exists (vm this). by rewrite set_vm_same.
Qed.

Lemma adjust_alpha_shape _key action mods this this' :
  adjust_alpha K _key action mods this = Ok this' →
  ∃ vm', this' = set_vm vm' this ∧ unique_ptr.get <$> vm' = unique_ptr.get <$> vm this.
Proof.
  unfold adjust_alpha.
  assert (∀ (c : bool) (f : M → M) s s',
            (if c then match vm s with
                       | [] => Ok s
                       | _ => call_model f (selectedVisualModel s) s
                       end
             else Ok s) = Ok s' →
            ∃ vm', s' = set_vm vm' s ∧ unique_ptr.get <$> vm' = unique_ptr.get <$> vm s)
    as Hone.
  { intros c f s s'. destruct c.
    - destruct (vm s) eqn:Hvm.
      + intros [= <-]. exists []. by rewrite <- Hvm, set_vm_same.
      + rewrite <- Hvm. apply call_model_shape.
    - intros [= <-]. exists (vm s). by rewrite set_vm_same. }
  destruct (if (_key =? key_code K key.left)%Z && _ && _ then _ else _) as [mid|] eqn:Hmid;
    [| discriminate].
  cbn. intros Hsecond.
  apply Hone in Hmid as (vm1 & -> & Hvm1).
  apply Hone in Hsecond as (vm2 & -> & Hvm2).
  exists vm2. split; [reflexivity |]. by rewrite Hvm2.
Qed.

Lemma cyl_keys_shape _key action mods this :
  ∃ r h, cyl_keys K _key action mods this = set_cyl_height h (set_cyl_radius r this).
Proof.
  exists (cyl_radius (cyl_keys K _key action mods this)), (cyl_height (cyl_keys K _key action mods this)).
  unfold cyl_keys. cbv zeta.
  repeat match goal with |- context [if ?c then _ else _] => destruct c end.
  all: destruct this; reflexivity.
Qed.

(** With the lock set, Ctrl-o, Ctrl-p, Ctrl-u and Ctrl-i do nothing. *)
Lemma projection_keys_locked _key action mods this :
  sceneLocked this = true → projection_keys K _key action mods this = this.
Proof.
  intros Hl. unfold projection_keys. cbv zeta.
  repeat (rewrite Hl; cbn [negb andb]). reflexivity.
Qed.

Lemma projection_keys_shape _key action mods this :
  ∃ f z, projection_keys K _key action mods this = set_zNear z (set_fov f this)
         ∧ (sceneLocked this = true → f = fov this ∧ z = zNear this).
Proof.
  exists (fov (projection_keys K _key action mods this)),
    (zNear (projection_keys K _key action mods this)).
  split.
  - unfold projection_keys. cbv zeta.
    repeat match goal with |- context [if ?c then _ else _] => destruct c end.
    all: destruct this; reflexivity.
  - intros Hl. by rewrite projection_keys_locked.
Qed.

(** Each guarded assignment of [key_callback], written as an assignment
    of a guarded value. *)
Lemma quit_step (c : bool) this :
  (if c then signal_to_quit this else this)
  = set_readyToFinish (readyToFinish this || c) this.
Proof. destruct c, this; cbn; rewrite ?orb_true_r, ?orb_false_r; reflexivity. Qed.

Lemma coord_arrows_step (c r : bool) this :
  (if c then (set_showCoordArrows (negb (showCoordArrows this)) this, true) else (this, r))
  = (set_showCoordArrows (xorb c (showCoordArrows this)) this, c || r).
Proof. destruct c, this; reflexivity. Qed.

Lemma lock_step (c : bool) this :
  (if c then set_sceneLocked (if sceneLocked this then false else true) this else this)
  = set_sceneLocked (xorb c (sceneLocked this)) this.
Proof. destruct c, this as [? ? ? ? ? ? ? ? ? ? [] ?]; reflexivity. Qed.

Lemma reset_step (c r : bool) this :
  (if c then (set_rotation (rotation_default this)
                (set_cyl_cam_pos (cyl_cam_pos_default this)
                   (set_scenetrans (scenetrans_default this) this)), true)
   else (this, r))
  = (set_rotation (if c then rotation_default this else rotation this)
       (set_cyl_cam_pos (if c then cyl_cam_pos_default this else cyl_cam_pos this)
          (set_scenetrans (if c then scenetrans_default this else scenetrans this) this)),
     c || r).
Proof. destruct c, this; reflexivity. Qed.

Lemma ptype_step (c r : bool) this :
  (if c then (set_ptype (cycle_ptype (ptype this)) this, true) else (this, r))
  = (set_ptype (if c then cycle_ptype (ptype this) else ptype this) this, c || r).
Proof. destruct c, this; reflexivity. Qed.

End KeyShapes.

(** ** The registry: adding, looking up, removing *)

Section RegistryMore.
Context {M : Type}.
Implicit Types (this : VisualOwnable M) (u model : unique_ptr M) (vmp : ptr).

(** [validVisualModel] decides membership among the addresses held. *)
Lemma validVisualModel_addresses vmp this :
  validVisualModel vmp this = if bool_decide (vmp ∈ addresses this) then vmp else 0%Z.
Proof.
  unfold validVisualModel, addresses. cbv zeta.
  destruct (find_model vmp (vm this) 0).2 eqn:Hfound.
  - apply find_model_found, Exists_exists in Hfound as (u & Hin & Hu).
    rewrite bool_decide_eq_true_2; [reflexivity |].
    apply list_elem_of_fmap. by exists u.
  - rewrite bool_decide_eq_false_2; [reflexivity |].
    intros Hin. apply list_elem_of_fmap in Hin as (u & Hu & Hin).
    assert ((find_model vmp (vm this) 0).2 = true) as Habs; [| congruence].
    apply find_model_found, Exists_exists. by exists u.
Qed.

(** X1. The index that [addVisualModelId] returns is the place of the new
    model: looking it up there gives the model back, the registry has
    grown by one, and every index that was good before still gives the
    model it gave. *)
Theorem addVisualModelId_lookup model this :
  let modelId := (addVisualModelId model this).1 in
  let after := (addVisualModelId model this).2 in
  modelId = length (vm this)
  ∧ length (vm after) = S (length (vm this))
  ∧ getVisualModel modelId after = Ok model
  ∧ ∀ j u, getVisualModel j this = Ok u → getVisualModel j after = Ok u.
Proof.
  unfold addVisualModelId, getVisualModel. cbn [fst snd vm set_vm].
  rewrite length_app, Nat.add_1_r, Nat.sub_1_r, Nat.pred_succ.
  split; [reflexivity |]. split; [reflexivity |]. split.
  - rewrite lookup_app_r, Nat.sub_diag by lia. reflexivity.
  - intros j u. destruct (vm this !! j) as [u'|] eqn:Hj; [| discriminate].
    intros [= <-]. by rewrite (lookup_app_l_Some _ _ _ _ Hj).
Qed.

(** X2. The pointer that [addVisualModel] returns is valid afterwards,
    and the answer of [validVisualModel] for every other pointer is what
    it was: adding a model invalidates nothing. *)
Theorem addVisualModel_valid model this vmp :
  let p := (addVisualModel model this).1 in
  let after := (addVisualModel model this).2 in
  p = unique_ptr.get model
  ∧ validVisualModel p after = p
  ∧ (vmp ≠ p → validVisualModel vmp after = validVisualModel vmp this).
Proof.
  unfold addVisualModel. cbn [fst snd]. split; [reflexivity |].
  rewrite !validVisualModel_addresses.
  unfold addresses. cbn [vm set_vm]. rewrite fmap_app. cbn [fmap list_fmap].
  split.
  - rewrite bool_decide_eq_true_2; [reflexivity |].
    apply elem_of_app. right. apply list_elem_of_singleton. reflexivity.
  - intros Hne. apply (f_equal (λ b : bool, if b then vmp else 0%Z)).
    apply bool_decide_ext. rewrite elem_of_app, list_elem_of_singleton. tauto.
Qed.

(** X3. [removeVisualModel (modelId)] inside the registry erases that
    entry: the entries before it keep their index, the entries after it
    move down by one, and [selectedVisualModel] is not adjusted.  An index
    past the end is outside the defined behaviour of [erase]. *)
Theorem removeVisualModelId_shift modelId this :
  (modelId < length (vm this) →
   ∃ after, removeVisualModelId modelId this = Ok after
     ∧ S (length (vm after)) = length (vm this)
     ∧ (∀ j, j < modelId → vm after !! j = vm this !! j)
     ∧ (∀ j, modelId ≤ j → vm after !! j = vm this !! S j)
     ∧ selectedVisualModel after = selectedVisualModel this)
  ∧ (length (vm this) ≤ modelId → removeVisualModelId modelId this = Fault out_of_range).
Proof.
  unfold removeVisualModelId. split.
  - intros Hlt. rewrite (proj2 (Nat.ltb_lt _ _) Hlt). eexists. split; [reflexivity |].
    cbn [vm set_vm selectedVisualModel].
    split; [| split; [| split]].
    + rewrite length_delete by (by apply lookup_lt_is_Some). lia.
    + intros j Hj. by apply list_lookup_delete_lt.
    + intros j Hj. by apply list_lookup_delete_ge.
    + reflexivity.
  - intros Hge. by rewrite (proj2 (Nat.ltb_ge _ _) Hge).
Qed.

(** X4. Removing the model that was just added, by the index or by the
    pointer that the add returned, gives back the scene as it was.  For
    the pointer this needs the address to be new to the registry:
    otherwise the older entry with that address is the one erased. *)
Theorem add_then_remove model this :
  removeVisualModelId (addVisualModelId model this).1 (addVisualModelId model this).2 = Ok this
  ∧ (unique_ptr.get model ∉ addresses this →
     removeVisualModel (addVisualModel model this).1 (addVisualModel model this).2 = this).
Proof.
  split.
  - unfold addVisualModelId, removeVisualModelId. cbn [fst snd vm set_vm].
    rewrite length_app, Nat.add_1_r, Nat.sub_1_r, Nat.pred_succ.
    rewrite (proj2 (Nat.ltb_lt _ _)) by lia.
    rewrite delete_middle, app_nil_r.
    by destruct this.
  - intros Hnew. unfold addVisualModel, removeVisualModel. cbn [fst snd vm set_vm].
    rewrite (find_model_first_match _ (vm this) [] model 0); [| | reflexivity].
    + cbn [Nat.add]. rewrite delete_middle, app_nil_r. by destruct this.
    + apply Forall_forall. intros u Hu Heq. apply Hnew.
      unfold addresses. apply list_elem_of_fmap. by exists u.
Qed.

Lemma find_model_split vmp (rest : list (unique_ptr M)) :
  vmp ∈ unique_ptr.get <$> rest →
  ∃ before u after,
    rest = before ++ u :: after
    ∧ Forall (λ u', unique_ptr.get u' ≠ vmp) before ∧ unique_ptr.get u = vmp.
Proof.
  induction rest as [|u rest IH]; cbn [fmap list_fmap]; [by intros ?%elem_of_nil |].
  intros Hin. destruct (decide (unique_ptr.get u = vmp)) as [Heq|Hne].
  - by exists [], u, rest.
  - apply elem_of_cons in Hin as [Hin|Hin]; [congruence |].
    destruct (IH Hin) as (before & u' & after & -> & Hall & Hu').
    exists (u :: before), u', after. split; [reflexivity |]. split; [by constructor | done].
Qed.

(** X5. In a registry whose addresses are pairwise different (as those
    of live [unique_ptr]s are), a pointer removed with [removeVisualModel
    (vmp)] is no longer valid, and every other pointer is valid exactly
    when it was. *)
Theorem removeVisualModel_invalidates vmp this (q : ptr) :
  NoDup (addresses this) →
  validVisualModel vmp (removeVisualModel vmp this) = 0%Z
  ∧ (q ≠ vmp → validVisualModel q (removeVisualModel vmp this) = validVisualModel q this).
Proof.
  intros Hnd. rewrite !validVisualModel_addresses.
  destruct (decide (vmp ∈ addresses this)) as [Hin|Hout].
  - destruct (find_model_split _ _ Hin) as (before & u & after & Hvm & Hall & Hu).
    unfold removeVisualModel. rewrite Hvm, (find_model_first_match _ _ after _ _ Hall Hu).
    cbn [Nat.add]. rewrite delete_middle.
    unfold addresses in *. cbn [vm set_vm]. rewrite Hvm in Hnd.
    rewrite fmap_app, fmap_cons, Hu in Hnd.
    apply NoDup_app in Hnd as (_ & Hsep & Hnd). apply NoDup_cons in Hnd as (Hafter & _).
    rewrite ?Hvm, !fmap_app, ?fmap_cons, ?Hu. split.
    + destruct (bool_decide_reflect (vmp ∈ (unique_ptr.get <$> before)
                                           ++ (unique_ptr.get <$> after))) as [Habs|];
        [| destruct vmp; reflexivity].
      exfalso. apply elem_of_app in Habs as [Hb|Ha]; [| done].
      apply (Hsep vmp Hb). left.
    + intros Hne. apply (f_equal (λ b : bool, if b then q else 0%Z)).
      apply bool_decide_ext. rewrite !elem_of_app, elem_of_cons. tauto.
  - assert (removeVisualModel vmp this = this) as ->.
    { unfold removeVisualModel. rewrite find_model_no_match; [reflexivity |].
      apply Forall_forall. intros u Hu Heq. apply Hout.
      unfold addresses. apply list_elem_of_fmap. by exists u. }
    split; [| reflexivity].
    rewrite bool_decide_eq_false_2 by assumption. reflexivity.
Qed.

End RegistryMore.

(** ** What one key event does to the scene *)

Section KeyEffect.
Context {M : Type} `{VisualModel M}.
Context (K : keys_h).
Implicit Types (this after : VisualOwnable M).

(** [key_callback] as one assignment per member.  [on k] says that the
    event is Ctrl-[k] pressed; [locked] is the lock after the Ctrl-l
    block, which is the lock that the later blocks test. *)
Lemma key_callback_effect owned gltf this _key sc action mods after r :
  key_callback K owned gltf this _key sc action mods = Ok (after, r) →
  let on k := (_key =? key_code K k)%Z
              && (has_mod mods (keymod_control K) && (action =? keyaction_press K)%Z) in
  let arrows := negb (sceneLocked this) && on key.c in
  let locked := xorb (on key.l) (sceneLocked this) in
  let reset := negb locked && on key.a in
  ∃ i vm' cr ch f z,
    after
    = set_ptype (if on key.y then cycle_ptype (ptype this) else ptype this)
        (set_zNear z (set_fov f
          (set_rotation (if reset then rotation_default this else rotation this)
            (set_cyl_cam_pos (if reset then cyl_cam_pos_default this else cyl_cam_pos this)
              (set_scenetrans (if reset then scenetrans_default this else scenetrans this)
                (set_cyl_height ch (set_cyl_radius cr
                  (set_vm vm' (set_selectedVisualModel i
                    (set_sceneLocked locked
                      (set_showCoordArrows (xorb arrows (showCoordArrows this))
                        (set_readyToFinish (readyToFinish this || owned && on key.q)
                           this))))))))))))
    ∧ r = arrows || reset || on key.y
    ∧ unique_ptr.get <$> vm' = unique_ptr.get <$> vm this
    ∧ (i = selectedVisualModel this ∨ i = 0 ∨ i < length (vm this))
    ∧ (locked = true → f = fov this ∧ z = zNear this).
Proof.
  intros Hrun on arrows locked reset.
  rewrite key_callback_steps in Hrun. unfold key_steps in Hrun.
  set (cp := has_mod mods (keymod_control K) && (action =? keyaction_press K)%Z) in *.
  cbn [run_steps mbind result_bind] in Hrun.
  rewrite <- !andb_assoc in Hrun.
  rewrite quit_step in Hrun. cbn [sceneLocked set_readyToFinish] in Hrun.
  rewrite coord_arrows_step in Hrun. cbn [mbind result_bind] in Hrun.
  rewrite lock_step in Hrun.
  destruct (if (_key =? key_code K key.m)%Z && cp then savegltf gltf else Ok tt);
    [| discriminate].
  cbn [mbind result_bind] in Hrun.
  match type of Hrun with context [select_model K _key action ?s] =>
    destruct (select_model_shape K _key action s) as (i & Hsel & Hi); rewrite Hsel in Hrun
  end.
  match type of Hrun with context [toggle_hide K _key action mods ?s] =>
    destruct (toggle_hide K _key action mods s) as [s1|] eqn:Hs1; [| discriminate]
  end.
  apply toggle_hide_shape in Hs1 as (vm1 & -> & Hvm1).
  cbn [mbind result_bind] in Hrun.
  match type of Hrun with context [adjust_alpha K _key action mods ?s] =>
    destruct (adjust_alpha K _key action mods s) as [s2|] eqn:Hs2; [| discriminate]
  end.
  apply adjust_alpha_shape in Hs2 as (vm2 & -> & Hvm2).
  cbn [mbind result_bind] in Hrun.
  match type of Hrun with context [cyl_keys K _key action mods ?s] =>
    destruct (cyl_keys_shape K _key action mods s) as (cr & ch & Hcyl); rewrite Hcyl in Hrun
  end.
  rewrite reset_step in Hrun. cbn [mbind result_bind] in Hrun.
  match type of Hrun with context [projection_keys K _key action mods ?s] =>
    destruct (projection_keys_shape K _key action mods s) as (f & z & Hproj & Hlocked);
    rewrite Hproj in Hrun
  end.
  rewrite ptype_step in Hrun.
  injection Hrun as <- <-.
  exists i, vm2, cr, ch, f, z.
  cbn [vm selectedVisualModel fov zNear sceneLocked set_vm
       set_selectedVisualModel set_sceneLocked set_showCoordArrows
       set_readyToFinish set_cyl_radius set_cyl_height set_scenetrans
       set_cyl_cam_pos set_rotation] in *.
  rewrite <- ?andb_assoc, ?orb_false_r.
  split; [by destruct this |].
  split; [rewrite orb_comm; f_equal; apply orb_comm |].
  split; [congruence |]. split; [exact Hi | exact Hlocked].
Qed.

End KeyEffect.

(** ** Runs of key events *)

Section KeyRuns.
Context {M : Type} `{VisualModel M}.
Context (K : keys_h).
Implicit Types (this after : VisualOwnable M) (e : key_event) (evs : list key_event).

Lemma call_model_in_range (f : M → M) (i : nat) this :
  i < length (vm this) →
  ∃ vm', call_model f i this = Ok (set_vm vm' this) ∧ length vm' = length (vm this).
Proof.
  intros Hi. unfold call_model.
  destruct (lookup_lt_is_Some_2 _ _ Hi) as [u ->].
  eexists. split; [reflexivity |]. apply length_insert.
Qed.

(** With the selection inside the registry, the two blocks that index
    [vm] return. *)
Lemma toggle_hide_in_range _key action mods this :
  selectedVisualModel this < length (vm this) →
  ∃ vm', toggle_hide K _key action mods this = Ok (set_vm vm' this)
         ∧ length vm' = length (vm this).
Proof.
  intros Hi. unfold toggle_hide. destruct (_ && has_mod mods (keymod_shift K)).
  - by apply call_model_in_range.
  - exists (vm this). by rewrite set_vm_same.
Qed.

Lemma adjust_alpha_in_range _key action mods this :
  selectedVisualModel this < length (vm this) →
  ∃ vm', adjust_alpha K _key action mods this = Ok (set_vm vm' this)
         ∧ length vm' = length (vm this).
Proof.
  intros Hi.
  assert (∀ (c : bool) (f : M → M) s,
            selectedVisualModel s < length (vm s) →
            ∃ vm', (if c then match vm s with
                               | [] => Ok s
                               | _ => call_model f (selectedVisualModel s) s
                               end
                    else Ok s) = Ok (set_vm vm' s) ∧ length vm' = length (vm s)) as Hone.
  { intros c f s Hs. destruct c.
    - destruct (vm s) eqn:Hvm; [cbn in Hs; lia |].
      rewrite <- Hvm in Hs |- *. by apply call_model_in_range.
    - exists (vm s). by rewrite set_vm_same. }
  unfold adjust_alpha.
  destruct (Hone ((_key =? key_code K key.left)%Z
                  && ((action =? keyaction_press K)%Z || (action =? keyaction_repeat K)%Z)
                  && has_mod mods (keymod_shift K)) decAlpha this Hi) as (vm1 & -> & Hl1).
  cbn [mbind result_bind].
  destruct (Hone ((_key =? key_code K key.right)%Z
                  && ((action =? keyaction_press K)%Z || (action =? keyaction_repeat K)%Z)
                  && has_mod mods (keymod_shift K)) incAlpha (set_vm vm1 this))
    as (vm2 & -> & Hl2).
  { cbn [selectedVisualModel vm set_vm]. lia. }
  exists vm2. split; [by destruct this |]. cbn [vm set_vm] in Hl2. lia.
Qed.

(** One key event with the selection inside the registry and a writable
    glTF file returns. *)
Lemma key_callback_returns owned this _key sc action mods :
  selectedVisualModel this < length (vm this) →
  ∃ after r, key_callback K owned true this _key sc action mods = Ok (after, r).
Proof.
  intros Hi. rewrite key_callback_steps.
  destruct (run_steps_returns
              (λ s : VisualOwnable M * bool, selectedVisualModel s.1 < length (vm s.1))
              (key_steps K owned true _key action mods)) with (s := (this, false))
    as ([after r] & Hrun & _); [| exact Hi | by exists after, r].
  unfold key_steps. repeat apply Forall_cons_2; [.. | apply Forall_nil_2].
  all: intros [s r] Hs; cbn [fst] in Hs.
  - eexists. split; [reflexivity |]. by destruct (_ && _).
  - eexists. split; [reflexivity |]. by destruct (_ && _).
  - eexists. split; [reflexivity |]. by destruct (_ && _).
  - exists (s, r). split; [| done]. by destruct (_ && _).
  - eexists. split; [reflexivity |].
    destruct (select_model_shape K _key action s) as (i & -> & Hsel).
    cbn [fst selectedVisualModel vm set_selectedVisualModel]. lia.
  - destruct (toggle_hide_in_range _key action mods s Hs) as (vm' & -> & Hlen).
    eexists. split; [reflexivity |]. cbn. lia.
  - destruct (adjust_alpha_in_range _key action mods s Hs) as (vm' & -> & Hlen).
    eexists. split; [reflexivity |]. cbn. lia.
  - eexists. split; [reflexivity |].
    destruct (cyl_keys_shape K _key action mods s) as (cr & ch & ->). exact Hs.
  - eexists. split; [reflexivity |]. by destruct (_ && _).
  - eexists. split; [reflexivity |].
    destruct (projection_keys_shape K _key action mods s) as (f & z & -> & _). exact Hs.
  - eexists. split; [reflexivity |]. by destruct (_ && _).
Qed.

Lemma key_callback_selection owned gltf this _key sc action mods after r :
  key_callback K owned gltf this _key sc action mods = Ok (after, r) →
  (selectedVisualModel after = selectedVisualModel this
   ∨ selectedVisualModel after = 0
   ∨ selectedVisualModel after < length (vm this))
  ∧ addresses after = addresses this.
Proof.
  intros Hrun.
  destruct (key_callback_effect K _ _ _ _ _ _ _ _ _ Hrun)
    as (i & vm' & cr & ch & f & z & -> & _ & Hvm & Hi & _).
  unfold addresses. by cbn.
Qed.

(** X6. Once a model is selected that the registry holds, no run of key
    events leaves the registry: every event returns (the glTF file being
    writable), the selection still names an entry, and the registry holds
    the same addresses in the same order. *)
Theorem key_run_stays_in_registry owned evs : ∀ this,
  selectedVisualModel this < length (vm this) →
  ∃ after, key_run K owned true this evs = Ok after
    ∧ selectedVisualModel after < length (vm after)
    ∧ addresses after = addresses this.
Proof.
  induction evs as [|e evs IH]; intros this Hi; [by exists this |].
  destruct (key_callback_returns owned this (ev_key e) (ev_scancode e) (ev_action e)
              (ev_mods e) Hi) as (mid & r & Hmid).
  destruct (key_callback_selection _ _ _ _ _ _ _ _ _ Hmid) as (Hsel & Haddr).
  assert (length (vm mid) = length (vm this)) as Hlen.
  { unfold addresses in Haddr. apply (f_equal length) in Haddr.
    by rewrite !length_fmap in Haddr. }
  destruct (IH mid) as (after & Hrun & Hin & Ha); [lia |].
  exists after. cbn [key_run]. rewrite Hmid. cbn [mbind result_bind].
  split; [exact Hrun |]. split; [exact Hin | congruence].
Qed.

Lemma key_untouched_refl this : key_untouched this this.
Proof. unfold key_untouched. tauto. Qed.

Lemma key_untouched_trans (a b c : VisualOwnable M) :
  key_untouched a b → key_untouched b c → key_untouched a c.
Proof. unfold key_untouched. intuition congruence. Qed.

Lemma key_callback_untouched owned gltf this _key sc action mods after r :
  key_callback K owned gltf this _key sc action mods = Ok (after, r) →
  key_untouched this after.
Proof.
  intros Hrun.
  destruct (key_callback_effect K _ _ _ _ _ _ _ _ _ Hrun)
    as (i & vm' & cr & ch & f & z & -> & _ & Hvm & _ & _).
  unfold key_untouched, addresses. cbn. tauto.
Qed.

(** X7. What the keys cannot reach: over any run of key events the
    addresses in the registry, the window width, the pointer and gesture
    state, the four matrices, the orthographic bounds, the scroll step and
    the three reset defaults stay as they were. *)
Theorem key_run_untouched owned gltf evs : ∀ this after,
  key_run K owned gltf this evs = Ok after → key_untouched this after.
Proof.
  induction evs as [|e evs IH]; intros this after Hrun; cbn [key_run] in Hrun.
  - injection Hrun as <-. apply key_untouched_refl.
  - destruct (key_callback K owned gltf this _ _ _ _) as [[mid r]|] eqn:Hmid; [| discriminate].
    cbn [mbind result_bind] in Hrun.
    eapply key_untouched_trans; [by eapply key_callback_untouched | by apply IH].
Qed.

Lemma key_callback_locked owned gltf this e after r :
  sceneLocked this = true → ctrl_pressed K key.l e = false →
  key_callback K owned gltf this (ev_key e) (ev_scancode e) (ev_action e) (ev_mods e)
  = Ok (after, r) →
  camera_kept this after ∧ sceneLocked after = true.
Proof.
  intros Hl Hnot Hrun. unfold ctrl_pressed in Hnot.
  destruct (key_callback_effect K _ _ _ _ _ _ _ _ _ Hrun)
    as (i & vm' & cr & ch & f & z & -> & _ & _ & _ & Hfz).
  rewrite Hnot, Hl in Hfz |- *. cbn [xorb negb andb] in Hfz |- *.
  destruct (Hfz eq_refl) as [-> ->].
  unfold camera_kept. cbn. rewrite ?Hl. tauto.
Qed.

(** X8. [readyToFinish] is set by Ctrl-q in a scene that owns its window,
    and by nothing else on the keyboard: after a run of key events it
    holds what it held before, or-ed with whether the scene is [owned] and
    some event was Ctrl-q. *)
Theorem key_run_quit owned gltf evs : ∀ this after,
  key_run K owned gltf this evs = Ok after →
  readyToFinish after
  = readyToFinish this || owned && existsb (ctrl_pressed K key.q) evs.
Proof.
  induction evs as [|e evs IH]; intros this after Hrun; cbn [key_run] in Hrun.
  - injection Hrun as <-. cbn. by rewrite andb_false_r, orb_false_r.
  - destruct (key_callback K owned gltf this _ _ _ _) as [[mid r]|] eqn:Hmid; [| discriminate].
    cbn [mbind result_bind] in Hrun. rewrite (IH _ _ Hrun).
    destruct (key_callback_effect K _ _ _ _ _ _ _ _ _ Hmid)
      as (i & vm' & cr & ch & f & z & -> & _).
    cbn. unfold ctrl_pressed.
    destruct (readyToFinish this), owned, (_ && (_ && _)), (existsb _ evs); reflexivity.
Qed.

(** X9. When [key_callback] asks for a render.  With key codes that are
    pairwise different, the returned flag is true exactly for Ctrl-c and
    Ctrl-a on an unlocked scene and for Ctrl-y; every other event, whatever
    it changed, returns false. *)
Theorem key_callback_needs_render owned gltf this e after r :
  keys_distinct K = true →
  key_callback K owned gltf this (ev_key e) (ev_scancode e) (ev_action e) (ev_mods e)
  = Ok (after, r) →
  r = negb (sceneLocked this) && (ctrl_pressed K key.c e || ctrl_pressed K key.a e)
      || ctrl_pressed K key.y e.
Proof.
  intros Hd Hrun.
  destruct (key_callback_effect K _ _ _ _ _ _ _ _ _ Hrun)
    as (i & vm' & cr & ch & f & z & _ & -> & _).
  unfold ctrl_pressed.
  destruct (Z.eqb_spec (ev_key e) (key_code K key.a)) as [Ha|Ha].
  - rewrite Ha, !(key_code_eqb K _ _ Hd). cbn [key.eqb andb orb xorb].
    by destruct (sceneLocked this).
  - cbn [andb]. rewrite andb_false_r, !orb_false_r. reflexivity.
Qed.

End KeyRuns.

(** ** Faults of the key handler *)

Section KeyFaults.
Context {M : Type} `{VisualModel M}.
Context (K : keys_h).
Implicit Types (this after : VisualOwnable M) (e : key_event).

(** Whether the glTF file can be written matters to Ctrl-m only. *)
Lemma key_callback_without_ctrl_m owned gltf this e :
  ctrl_pressed K key.m e = false →
  key_callback K owned gltf this (ev_key e) (ev_scancode e) (ev_action e) (ev_mods e)
  = key_callback K owned true this (ev_key e) (ev_scancode e) (ev_action e) (ev_mods e).
Proof.
  unfold ctrl_pressed. intros Hm. rewrite !key_callback_steps. unfold key_steps. cbv zeta.
  by rewrite Hm.
Qed.

Lemma key_callback_ctrl_m_unwritable owned this e :
  ctrl_pressed K key.m e = true →
  key_callback K owned false this (ev_key e) (ev_scancode e) (ev_action e) (ev_mods e)
  = Fault runtime_error.
Proof.
  unfold ctrl_pressed. intros Hm. rewrite key_callback_steps. unfold key_steps. cbv zeta.
  rewrite Hm. cbn [run_steps mbind result_bind].
  rewrite coord_arrows_step. reflexivity.
Qed.

(** X10. How a key event can fail.  With the selection inside the
    registry, the only failing event is Ctrl-m when the glTF file cannot
    be opened, which raises [runtime_error]; every other event returns. *)
Theorem key_callback_fault_is_gltf owned gltf this e :
  selectedVisualModel this < length (vm this) →
  if ctrl_pressed K key.m e && negb gltf
  then key_callback K owned gltf this (ev_key e) (ev_scancode e) (ev_action e) (ev_mods e)
       = Fault runtime_error
  else ∃ after r,
    key_callback K owned gltf this (ev_key e) (ev_scancode e) (ev_action e) (ev_mods e)
    = Ok (after, r).
Proof.
  intros Hi. destruct gltf; cbn [negb]; rewrite ?andb_false_r, ?andb_true_r.
  - by apply key_callback_returns.
  - destruct (ctrl_pressed K key.m e) eqn:Hm.
    + by apply key_callback_ctrl_m_unwritable.
    + rewrite key_callback_without_ctrl_m by assumption. by apply key_callback_returns.
Qed.

End KeyFaults.

(** ** Exact effects of single keys *)

Section KeyExact.
Context {M : Type} `{VisualModel M}.
Context (K : keys_h) (Hd : keys_distinct K = true).
Implicit Types (this : VisualOwnable M) (e : key_event).

Ltac view_cbn :=
  cbn -[fov_reduce fov_increase f32.mul f32.div f32.sub f32.add cycle_ptype
        call_model has_mod Z.eqb Nat.ltb length
        select_model toggle_hide adjust_alpha cyl_keys projection_keys].

Ltac view_blocks :=
  repeat (first [ rewrite Z.eqb_refl
                | match goal with
                  | Hb : _ = false |- _ => rewrite Hb
                  | Hb : _ = true |- _ => rewrite Hb
                  end
                | rewrite (select_model_code K Hd)
                | rewrite (toggle_hide_code K Hd)
                | rewrite (adjust_alpha_other K Hd) by reflexivity
                | rewrite (cyl_keys_other K Hd) by reflexivity
                | rewrite (projection_keys_other K Hd) by reflexivity ];
          view_cbn).

Ltac view_eval this owned :=
  unfold key_callback, signal_to_quit, savegltf;
  rewrite ?(key_code_eqb K _ _ Hd), ?Z.eqb_refl;
  repeat match goal with Hc : has_mod _ _ = _ |- _ => rewrite Hc end;
  let Hl := fresh "Hl" in
  destruct (sceneLocked this) eqn:Hl; destruct this, owned; cbn in Hl; subst;
  try discriminate;
  view_cbn; view_blocks.

Lemma key_callback_ctrl_a owned gltf this sc mods :
  has_mod mods (keymod_control K) = true →
  key_callback K owned gltf this (key_code K key.a) sc (keyaction_press K) mods
  = if sceneLocked this then Ok (this, false)
    else Ok (set_rotation (rotation_default this)
               (set_cyl_cam_pos (cyl_cam_pos_default this)
                  (set_scenetrans (scenetrans_default this) this)), true).
Proof. intros Hc. view_eval this owned; reflexivity. Qed.


(** X11. Ctrl-a puts the view back: on an unlocked scene the scene
    translation, the cylindrical camera position and the rotation become
    their stored defaults, nothing else changes and a render is asked for;
    on a locked scene the event does nothing. *)
Theorem ctrl_a_restores_defaults owned gltf this e :
  is_ctrl_press K key.a e →
  key_callback K owned gltf this (ev_key e) (ev_scancode e) (ev_action e) (ev_mods e)
  = if sceneLocked this then Ok (this, false)
    else Ok (set_rotation (rotation_default this)
               (set_cyl_cam_pos (cyl_cam_pos_default this)
                  (set_scenetrans (scenetrans_default this) this)), true).
Proof.
  intros (-> & Hc & ->). by apply key_callback_ctrl_a.
Qed.


End KeyExact.

(** ** Mouse buttons, cursor moves and the scroll wheel *)

Section PointerMore.
Context {M : Type} `{VisualModel M}.
Context (T : transform_ops) (K : keys_h).
Implicit Types (this after : VisualOwnable M).

(** [mouse_button_callback] as one assignment per member it can reach. *)
Lemma mouse_button_callback_shape this button action mods :
  ∃ mp sr sc isc rmm rm tm,
    mouse_button_callback T K this button action mods
    = set_translateMode tm (set_rotateMode rm (set_rotateModMode rmm
        (set_invscene isc (set_scene sc (set_savedRotation sr
           (set_mousePressPosition mp this))))))
    ∧ (rm && tm = false ∨ rm = rotateMode this ∧ tm = translateMode this).
Proof.
  set (after := mouse_button_callback T K this button action mods).
  exists (mousePressPosition after), (savedRotation after), (scene after), (invscene after),
    (rotateModMode after), (rotateMode after), (translateMode after).
  subst after. unfold mouse_button_callback. cbv zeta.
  destruct (sceneLocked this); [split; [by destruct this | tauto] |].
  destruct (action =? keyaction_press K)%Z, (button =? mousebutton_left K)%Z,
    (button =? mousebutton_right K)%Z;
    (split; [by destruct this | cbn; rewrite ?andb_false_r; tauto]).
Qed.

(** [scroll_callback] as one assignment per member it can reach. *)
Lemma scroll_callback_shape this xoffset yoffset :
  ∃ lb rt st cc,
    (scroll_callback T this xoffset yoffset).1
    = set_cyl_cam_pos cc (set_scenetrans st (set_ortho_rt rt (set_ortho_lb lb this)))
    ∧ (sceneLocked this = true →
       lb = ortho_lb this ∧ rt = ortho_rt this ∧ st = scenetrans this ∧ cc = cyl_cam_pos this).
Proof.
  set (after := (scroll_callback T this xoffset yoffset).1).
  exists (ortho_lb after), (ortho_rt after), (scenetrans after), (cyl_cam_pos after).
  subst after. unfold scroll_callback.
  destruct (sceneLocked this); [split; [by destruct this | done] |].
  split; [| done].
  destruct (decide (ptype this = orthographic)).
  - destruct (ortho_rescaled this yoffset) as [_lb _rt].
    destruct (vec2.lt_scalar _lb f32.zero && vec2.gt_scalar _rt f32.zero); by destruct this.
  - by destruct this.
Qed.

Lemma rotate_assignments (r1 r2 : quaternion.t) (a1 a2 : vec3.t) this :
  set_rotation r1 (set_rotation r2 (set_rotationAxis a1 (set_rotationAxis a2 this)))
  = set_rotation r1 (set_rotationAxis a1 this).
Proof. by destruct this. Qed.

Lemma translate_assignments (c1 c2 : vec4.t) (t1 t2 : vec3.t) (mp : vec2.t) this :
  set_cyl_cam_pos c2 (set_cyl_cam_pos c1 (set_scenetrans t2 (set_scenetrans t1
    (set_mousePressPosition mp this))))
  = set_cyl_cam_pos c2 (set_scenetrans t2 (set_mousePressPosition mp this)).
Proof. by destruct this. Qed.

(** A cursor move in [rotateMode] assigns the cursor position, the
    rotation axis and the rotation. *)
Lemma cursor_rotate_shape this x y :
  rotateMode this = true →
  ∃ ax r,
    cursor_position_callback T this x y
    = (set_rotation r (set_rotationAxis ax (set_cursorpos_xy x y this)), true).
Proof.
  intros Hr. unfold cursor_position_callback, set_cursorpos_xy. cbv zeta.
  cbn [rotateMode set_cursorpos]. rewrite Hr, rotate_assignments.
  do 2 eexists. reflexivity.
Qed.

(** A cursor move in [translateMode] alone assigns the cursor position,
    the press position, the scene translation and the cylindrical camera
    position. *)
Lemma cursor_translate_shape this x y :
  rotateMode this = false → translateMode this = true →
  ∃ st cc,
    cursor_position_callback T this x y
    = (set_cyl_cam_pos cc (set_scenetrans st
         (set_mousePressPosition (vec2.mk (f32.of_double x) (f32.of_double y))
            (set_cursorpos_xy x y this))), true).
Proof.
  intros Hr Ht. unfold cursor_position_callback, set_cursorpos_xy. cbv zeta.
  cbn [rotateMode translateMode cursorpos set_cursorpos]. rewrite Hr, Ht, translate_assignments.
  do 2 eexists. reflexivity.
Qed.

Lemma cursor_idle_shape this x y :
  rotateMode this = false → translateMode this = false →
  cursor_position_callback T this x y = (set_cursorpos_xy x y this, false).
Proof.
  intros Hr Ht. unfold cursor_position_callback, set_cursorpos_xy. cbv zeta.
  cbn [rotateMode translateMode set_cursorpos]. by rewrite Hr, Ht.
Qed.

(** X14. A button press on an unlocked scene, whichever button, records
    where the gesture starts: the press position is the cursor position,
    the saved rotation is the current rotation, and [scene] and [invscene]
    are the rotation matrix of that rotation and its inverse.  The camera
    itself is not moved. *)
Theorem button_press_records_start this button mods :
  sceneLocked this = false →
  let after := mouse_button_callback T K this button (keyaction_press K) mods in
  mousePressPosition after = cursorpos this
  ∧ savedRotation after = rotation this
  ∧ scene after = mat44_rotate T mat44.identity (rotation this)
  ∧ invscene after = mat44_invert T (scene after)
  ∧ rotation after = rotation this
  ∧ scenetrans after = scenetrans this
  ∧ cyl_cam_pos after = cyl_cam_pos this.
Proof.
  intros Hl after. subst after. unfold mouse_button_callback. cbv zeta.
  rewrite Hl, Z.eqb_refl.
  destruct (button =? mousebutton_left K)%Z, (button =? mousebutton_right K)%Z; by cbn.
Qed.

(** X15. The two drag modes exclude each other.  After an event of the
    left or the right button on an unlocked scene at most one of
    [rotateMode] and [translateMode] is set, and after a release of either
    button neither is. *)
Theorem button_event_modes this button action mods :
  sceneLocked this = false →
  button = mousebutton_left K ∨ button = mousebutton_right K →
  let after := mouse_button_callback T K this button action mods in
  rotateMode after && translateMode after = false
  ∧ (action ≠ keyaction_press K → rotateMode after = false ∧ translateMode after = false).
Proof.
  intros Hl Hb after. subst after. unfold mouse_button_callback. cbv zeta. rewrite Hl.
  destruct (Z.eqb_spec action (keyaction_press K)) as [Ha|Ha];
    (destruct (button =? mousebutton_left K)%Z eqn:Hleft;
     [| destruct (button =? mousebutton_right K)%Z eqn:Hright]);
    try (cbn; split; [by rewrite ?andb_false_r | done]).
  all: destruct Hb as [-> | ->]; by rewrite Z.eqb_refl in *.
Qed.

Lemma cursor_position_callback_rotating this x y :
  rotateMode this = true →
  ∀ x' y',
    cursor_position_callback T (cursor_position_callback T this x' y').1 x y
    = cursor_position_callback T this x y
    ∧ rotateMode (cursor_position_callback T this x' y').1 = true.
Proof.
  intros Hr x' y'.
  destruct (cursor_rotate_shape this x' y' Hr) as (ax1 & r1 & ->). cbn [fst].
  split; [| exact Hr].
  unfold cursor_position_callback, set_cursorpos_xy, to_unit_range, coord_z. cbv zeta.
  cbn [rotateMode rotateModMode mousePressPosition cursorpos window_w scenetrans projection
       invproj invscene savedRotation rotationAxis rotation
       set_cursorpos set_rotationAxis set_rotation].
  rewrite Hr, !rotate_assignments.
  match goal with
  | |- (set_rotation ?r (set_rotationAxis ?a _), _) = _ => generalize r, a
  end.
  intros r a. by destruct this.
Qed.

(** X16. A rotation drag depends on where it started and where the
    cursor is, not on the path between: in [rotateMode], after any run of
    cursor moves the scene is what the last move alone would have made of
    the scene at the press. *)
Theorem rotate_drag_last_move_wins moves : ∀ this m,
  rotateMode this = true →
  cursor_run T this (moves ++ [m]) = (cursor_position_callback T this m.1 m.2).1.
Proof.
  induction moves as [|m' moves IH]; intros this m Hr; [reflexivity |].
  destruct (cursor_position_callback_rotating this m.1 m.2 Hr m'.1 m'.2) as [_ Hr'].
  change (cursor_run T this ((m' :: moves) ++ [m]))
    with (cursor_run T (cursor_position_callback T this m'.1 m'.2).1 (moves ++ [m])).
  rewrite (IH _ m Hr').
  by destruct (cursor_position_callback_rotating this m.1 m.2 Hr m'.1 m'.2) as [-> _].
Qed.

(** X17. The drags keep to their own members.  A cursor move in
    [rotateMode] leaves the scene translation, the cylindrical camera
    position and the press position alone, even if [translateMode] is set
    as well; a move in [translateMode] alone leaves the rotation alone and
    moves the press position along with the cursor; both ask for a render,
    and a move outside a drag does not. *)
Theorem cursor_move_by_mode this x y :
  let after := (cursor_position_callback T this x y).1 in
  let needs_render := (cursor_position_callback T this x y).2 in
  cursorpos after = vec2.mk (f32.of_double x) (f32.of_double y)
  ∧ needs_render = rotateMode this || translateMode this
  ∧ (rotateMode this = true →
     scenetrans after = scenetrans this ∧ cyl_cam_pos after = cyl_cam_pos this
     ∧ mousePressPosition after = mousePressPosition this)
  ∧ (rotateMode this = false →
     rotation after = rotation this ∧ rotationAxis after = rotationAxis this)
  ∧ (rotateMode this = false → translateMode this = true →
     mousePressPosition after = cursorpos after).
Proof.
  intros after needs_render. subst after needs_render.
  destruct (rotateMode this) eqn:Hr; [| destruct (translateMode this) eqn:Ht].
  - destruct (cursor_rotate_shape this x y Hr) as (ax & r & ->). by cbn.
  - destruct (cursor_translate_shape this x y Hr Ht) as (st & cc & ->). by cbn.
  - rewrite (cursor_idle_shape this x y Hr Ht). by cbn.
Qed.

(** X18. The scroll wheel by projection.  On a locked scene a scroll
    changes nothing and asks for no render.  On an unlocked scene it always
    asks for one; in the orthographic projection it ignores [xoffset] and
    leaves the scene translation and the cylindrical camera alone, and in
    the other projections it leaves the orthographic bounds alone. *)
Theorem scroll_callback_by_projection this xoffset yoffset :
  (sceneLocked this = true → scroll_callback T this xoffset yoffset = (this, false))
  ∧ (sceneLocked this = false →
     (scroll_callback T this xoffset yoffset).2 = true
     ∧ (ptype this = orthographic →
        (∀ xoffset', scroll_callback T this xoffset' yoffset
                     = scroll_callback T this xoffset yoffset)
        ∧ scenetrans (scroll_callback T this xoffset yoffset).1 = scenetrans this
        ∧ cyl_cam_pos (scroll_callback T this xoffset yoffset).1 = cyl_cam_pos this)
     ∧ (ptype this ≠ orthographic →
        ortho_lb (scroll_callback T this xoffset yoffset).1 = ortho_lb this
        ∧ ortho_rt (scroll_callback T this xoffset yoffset).1 = ortho_rt this)).
Proof.
  unfold scroll_callback. split; intros Hl; rewrite Hl; [reflexivity |].
  split; [reflexivity |]. split; intros Ho.
  - rewrite decide_True by assumption.
    split; [intros xoffset'; by rewrite decide_True by assumption |].
    destruct (ortho_rescaled this yoffset) as [_lb _rt].
    by destruct (vec2.lt_scalar _lb f32.zero && vec2.gt_scalar _rt f32.zero).
  - rewrite decide_False by assumption. by cbn.
Qed.

End PointerMore.

(** ** Sessions: any sequence of input events *)

Section Session.
Context {M : Type} `{VisualModel M}.
Context (T : transform_ops) (K : keys_h).
Implicit Types (this after : VisualOwnable M) (ev : input_event) (evs : list input_event).

Lemma session_constants_refl this : session_constants this this.
Proof. unfold session_constants. tauto. Qed.

Lemma session_constants_trans (a b c : VisualOwnable M) :
  session_constants a b → session_constants b c → session_constants a c.
Proof. unfold session_constants. intuition congruence. Qed.

(** What one delivered event can and cannot do. *)
Lemma deliver_step owned gltf prevent this ev after :
  deliver T K owned gltf prevent this ev = Ok after →
  session_constants this after
  ∧ (readyToFinish this = true → readyToFinish after = true)
  ∧ (rotateMode this && translateMode this = false →
     rotateMode after && translateMode after = false)
  ∧ (sceneLocked this = true → is_lock_key K ev = false → no_drag this →
     view_kept this after ∧ sceneLocked after = true ∧ no_drag after).
Proof.
  unfold session_constants, view_kept, camera_kept, no_drag, addresses.
  destruct ev as [e | x y | button action mods | xoffset yoffset | width height |];
    cbn [deliver is_lock_key].
  - destruct (key_callback K owned gltf this _ _ _ _) as [[mid r]|] eqn:Hmid; [| discriminate].
    cbn [mbind result_bind]. intros [= <-].
    pose proof (key_callback_untouched K _ _ _ _ _ _ _ _ _ Hmid) as Hun.
    unfold key_untouched, addresses in Hun.
    destruct Hun as (Ha & _ & _ & _ & Hrm & _ & Htm & _ & _ & Hp & Hip & _ & _
                     & Hlb & Hrt & Hst & Hsd & Hrd & Hcd).
    rewrite Ha, Hp, Hip, Hst, Hsd, Hrd, Hcd, Hrm, Htm, Hlb, Hrt.
    split; [tauto |]. split; [| split; [done |]].
    + destruct (key_callback_effect K _ _ _ _ _ _ _ _ _ Hmid)
        as (i & vm' & cr & ch & f & z & -> & _).
      cbn. by intros ->.
    + intros Hl Hnot Hidle.
      destruct (key_callback_locked K _ _ _ _ _ _ Hl Hnot Hmid) as (Hcam & Hl').
      unfold camera_kept in Hcam. tauto.
  - intros [= <-].
    destruct (rotateMode this) eqn:Hr; [| destruct (translateMode this) eqn:Ht].
    + destruct (cursor_rotate_shape T this x y Hr) as (ax & r & ->).
      cbn. rewrite Hr. split_and!; try done. by intros _ _ [? ?].
    + destruct (cursor_translate_shape T this x y Hr Ht) as (st & cc & ->).
      cbn. rewrite Hr, Ht. split_and!; try done. by intros _ _ [? ?].
    + rewrite (cursor_idle_shape T this x y Hr Ht). cbn. rewrite Hr, Ht. by split_and!.
  - intros [= <-].
    destruct (sceneLocked this) eqn:Hl.
    + rewrite mouse_button_callback_locked by assumption. rewrite Hl. by split_and!.
    + destruct (mouse_button_callback_shape T K this button action mods)
        as (mp & sr & sc & isc & rmm & rm & tm & -> & Hmodes).
      cbn. rewrite Hl. split_and!; try done.
      intros Hboth. destruct Hmodes as [Hm | [-> ->]]; done.
  - intros [= <-].
    destruct (scroll_callback_shape T this xoffset yoffset) as (lb & rt & st & cc & -> & Hl).
    cbn. split_and!; try done.
    intros Hlock _ [? ?]. by destruct (Hl Hlock) as (-> & -> & -> & ->).
  - intros [= <-]. cbn. by split_and!.
  - intros [= <-]. unfold window_close_callback, signal_to_quit.
    destruct prevent; cbn; by split_and!.
Qed.

(** X19. Over any session (key, cursor, button, scroll, resize and close
    events in any order) the registry holds the same addresses, the
    projection matrix and its inverse are not touched, and the scroll step
    and the three defaults of Ctrl-a stay what they were. *)
Theorem session_constants_hold owned gltf prevent evs : ∀ this after,
  deliver_all T K owned gltf prevent this evs = Ok after → session_constants this after.
Proof.
  induction evs as [|ev evs IH]; intros this after Hrun; cbn [deliver_all] in Hrun.
  - injection Hrun as <-. apply session_constants_refl.
  - destruct (deliver T K owned gltf prevent this ev) as [mid|] eqn:Hmid; [| discriminate].
    cbn [mbind result_bind] in Hrun.
    eapply session_constants_trans; [| by apply IH].
    by destruct (deliver_step _ _ _ _ _ _ Hmid) as (? & _).
Qed.

(** X20. Two flags over any session: a request to quit, once made, is
    never withdrawn, and the rotate and translate drags are never both on
    when they were not both on at the start. *)
Theorem session_flags owned gltf prevent evs : ∀ this after,
  deliver_all T K owned gltf prevent this evs = Ok after →
  (readyToFinish this = true → readyToFinish after = true)
  ∧ (rotateMode this && translateMode this = false →
     rotateMode after && translateMode after = false).
Proof.
  induction evs as [|ev evs IH]; intros this after Hrun; cbn [deliver_all] in Hrun.
  - by injection Hrun as <-.
  - destruct (deliver T K owned gltf prevent this ev) as [mid|] eqn:Hmid; [| discriminate].
    cbn [mbind result_bind] in Hrun.
    destruct (deliver_step _ _ _ _ _ _ Hmid) as (_ & Hq & Hm & _).
    destruct (IH _ _ Hrun) as (Hq' & Hm'). auto.
Qed.

(** X21. The scene lock holds against every input.  With the lock set
    and no drag under way, a session without Ctrl-l keeps the whole view:
    scene translation, cylindrical camera position, rotation, field of
    view, near plane, coordinate-arrow switch and orthographic bounds; the
    lock stays set and no drag starts. *)
Theorem locked_session_keeps_view owned gltf prevent evs : ∀ this after,
  sceneLocked this = true → no_drag this →
  Forall (λ ev, is_lock_key K ev = false) evs →
  deliver_all T K owned gltf prevent this evs = Ok after →
  view_kept this after ∧ sceneLocked after = true ∧ no_drag after.
Proof.
  induction evs as [|ev evs IH]; intros this after Hl Hidle Hall Hrun;
    cbn [deliver_all] in Hrun.
  - injection Hrun as <-. unfold view_kept, camera_kept. tauto.
  - apply Forall_cons in Hall as [Hev Hall].
    destruct (deliver T K owned gltf prevent this ev) as [mid|] eqn:Hmid; [| discriminate].
    cbn [mbind result_bind] in Hrun.
    destruct (deliver_step _ _ _ _ _ _ Hmid) as (_ & _ & _ & Hstep).
    destruct (Hstep Hl Hev Hidle) as (Hview & Hl' & Hidle').
    destruct (IH mid after Hl' Hidle' Hall Hrun) as (Hview' & Hl'' & Hidle'').
    split; [| tauto]. unfold view_kept, camera_kept in *. intuition congruence.
Qed.

(** X22. Ctrl-a returns to the view the client set.  After
    [setSceneTrans] and [setSceneRotation], and then any session that
    leaves the scene unlocked, Ctrl-a puts the translation and the rotation
    back to the values the client gave, and asks for a render. *)
Theorem reset_returns_to_client_view owned gltf prevent (_x _y _z : float)
    (_rotn : quaternion.t) this evs mid e :
  keys_distinct K = true → is_ctrl_press K key.a e →
  deliver_all T K owned gltf prevent
    (setSceneRotation _rotn (setSceneTrans _x _y _z this)) evs = Ok mid →
  sceneLocked mid = false →
  ∃ after,
    key_callback K owned gltf mid (ev_key e) (ev_scancode e) (ev_action e) (ev_mods e)
    = Ok (after, true)
    ∧ scenetrans after = vec3.mk _x _y _z
    ∧ rotation after = _rotn.
Proof.
  intros Hd (-> & Hc & ->) Hrun Hl.
  rewrite (key_callback_ctrl_a K Hd) by assumption. rewrite Hl.
  eexists. split; [reflexivity |].
  cbn [scenetrans rotation set_rotation set_cyl_cam_pos set_scenetrans].
  assert (session_constants (setSceneRotation _rotn (setSceneTrans _x _y _z this)) mid)
    as (_ & _ & _ & _ & -> & -> & _).
  { clear Hl. revert Hrun. generalize (setSceneRotation _rotn (setSceneTrans _x _y _z this)).
    induction evs as [|ev evs IH]; intros s Hrun; cbn [deliver_all] in Hrun.
    - injection Hrun as <-. apply session_constants_refl.
    - destruct (deliver T K owned gltf prevent s ev) as [s'|] eqn:Hs'; [| discriminate].
      cbn [mbind result_bind] in Hrun.
      eapply session_constants_trans; [| by apply IH].
      by destruct (deliver_step _ _ _ _ _ _ Hs') as (? & _). }
  by destruct this.
Qed.


End Session.

(** ** The snapshot and the reset *)

Section SnapshotMore.
Context {M : Type} `{VisualModel M}.
Context (K : keys_h).
Implicit Types (this after : VisualOwnable M).
Local Open Scope string_scope.

(** After a load in which no field throws, the default translation is a
    copy of the translation. *)
Lemma snapshot_numeric_default (vconf : json.t) this :
  numeric_fields vconf →
  scenetrans_default (init_gl_snapshot (file_json vconf) this)
  = scenetrans (init_gl_snapshot (file_json vconf) this).
Proof.
  intros Hnum. unfold numeric_fields, snapshot_fields in Hnum.
  repeat (apply Forall_cons in Hnum as [? Hnum]).
  unfold init_gl_snapshot, snapshot_assignments.
  destruct this as [? ? ? ? ? ? ? ? ? ? ? ? ? ? ? ? ? [tx ty tz] [dx dy dz] ? ? ? ? ?
                      [rw rx ry rz] ? ? ? ? ? ?].
  cbn -[field_or field_value].
  repeat (rewrite field_or_numeric by assumption; cbn -[field_or field_value]).
  reflexivity.
Qed.

Lemma snapshot_only_view (file : snapshot_file) this :
  only_view_changed this (init_gl_snapshot file this).
Proof.
  destruct file; cbn [init_gl_snapshot]; try apply only_view_changed_refl.
  apply try_catch_all_preserves.
  - apply only_view_changed_refl.
  - apply only_view_changed_trans.
  - apply snapshot_assignments_view.
Qed.

(** X24. What Ctrl-a does after a snapshot was loaded.  The load copies
    the loaded translation into [scenetrans_default] but leaves
    [rotation_default] alone: on an unlocked scene, Ctrl-a after a load in
    which every present field was numeric keeps the loaded translation and
    replaces the loaded rotation by the rotation default from before the
    load. *)
Theorem reset_after_snapshot owned gltf (vconf : json.t) this e :
  keys_distinct K = true → is_ctrl_press K key.a e →
  numeric_fields vconf → sceneLocked this = false →
  let loaded := init_gl_snapshot (file_json vconf) this in
  ∃ after,
    key_callback K owned gltf loaded (ev_key e) (ev_scancode e) (ev_action e) (ev_mods e)
    = Ok (after, true)
    ∧ scenetrans after = scenetrans loaded
    ∧ rotation after = rotation_default this
    ∧ cyl_cam_pos after = cyl_cam_pos_default this.
Proof.
  intros Hd (-> & Hc & ->) Hnum Hl loaded.
  pose proof (snapshot_numeric_default vconf this Hnum) as Hdef. fold loaded in Hdef.
  pose proof (snapshot_only_view (file_json vconf) this) as Hview. fold loaded in Hview.
  unfold only_view_changed in Hview.
  assert (sceneLocked loaded = false ∧ rotation_default loaded = rotation_default this
          ∧ cyl_cam_pos_default loaded = cyl_cam_pos_default this) as (Hl' & Hr & Hc').
  { rewrite Hview. by cbn. }
  clearbody loaded. clear Hview.
  rewrite (key_callback_ctrl_a K Hd) by assumption. rewrite Hl'.
  eexists. split; [reflexivity |].
  cbn [scenetrans rotation cyl_cam_pos set_rotation set_cyl_cam_pos set_scenetrans].
  by rewrite Hdef, Hr, Hc'.
Qed.

(** X25. Loading the same snapshot a second time changes nothing more,
    whatever the file holds: also when a field of the wrong type stopped
    the first load half way, the second load stops at the same field with
    the same members assigned. *)
Theorem init_gl_snapshot_idempotent (file : snapshot_file) this :
  init_gl_snapshot file (init_gl_snapshot file this) = init_gl_snapshot file this.
Proof.
  destruct file as [| | vconf]; [reflexivity | reflexivity |].
  unfold init_gl_snapshot, snapshot_assignments, field_or.
  destruct this as [? ? ? ? ? ? ? ? ? ? ? ? ? ? ? ? ? [tx ty tz] [dx dy dz] ? ? ? ? ?
                      [rw rx ry rz] ? ? ? ? ? ?].
  generalize (json.contains vconf "scenetrans_x"),
    (json.at_key vconf "scenetrans_x" ≫= json.get_float),
    (json.contains vconf "scenetrans_y"),
    (json.at_key vconf "scenetrans_y" ≫= json.get_float),
    (json.contains vconf "scenetrans_z"),
    (json.at_key vconf "scenetrans_z" ≫= json.get_float),
    (json.contains vconf "scenerotn_w"),
    (json.at_key vconf "scenerotn_w" ≫= json.get_float),
    (json.contains vconf "scenerotn_x"),
    (json.at_key vconf "scenerotn_x" ≫= json.get_float),
    (json.contains vconf "scenerotn_y"),
    (json.at_key vconf "scenerotn_y" ≫= json.get_float),
    (json.contains vconf "scenerotn_z"),
    (json.at_key vconf "scenerotn_z" ≫= json.get_float).
  intros c1 v1 c2 v2 c3 v3 c4 v4 c5 v5 c6 v6 c7 v7.
  destruct c1; [destruct v1; [| vm_compute; reflexivity] |].
  all: destruct c2; [destruct v2; [| vm_compute; reflexivity] |].
  all: destruct c3; [destruct v3; [| vm_compute; reflexivity] |].
  all: destruct c4; [destruct v4; [| vm_compute; reflexivity] |].
  all: destruct c5; [destruct v5; [| vm_compute; reflexivity] |].
  all: destruct c6; [destruct v6; [| vm_compute; reflexivity] |].
  all: destruct c7; [destruct v7; [| vm_compute; reflexivity] |].
  all: vm_compute; reflexivity.
Qed.

End SnapshotMore.

(** ** The image handed to the encoder *)

Section PixelsMore.
Implicit Types (bits rbits : list GLubyte) (w h : nat).

Lemma saveImage_rbits_length (transparent_bg : bool) w h bits :
  length (saveImage_rbits w h transparent_bg bits) = w * h * 4.
Proof.
  unfold saveImage_rbits.
  by destruct (lines_loop transparent_bg w h bits h (Nat.le_refl h)) as [Hlen _].
Qed.

(** Every offset inside the buffer lies in one line, at one place of it. *)
Lemma offset_in_line w h (k : nat) :
  k < w * h * 4 → ∃ i j, i < h ∧ j < 4 * w ∧ k = (h - i - 1) * 4 * w + j.
Proof.
  intros Hk.
  assert (0 < 4 * w) as Hw by nia.
  pose proof (Nat.div_mod_eq k (4 * w)) as Hdm.
  pose proof (Nat.mod_upper_bound k (4 * w) ltac:(lia)) as Hj.
  assert (k / (4 * w) < h) as Hr.
  { apply Nat.Div0.div_lt_upper_bound. nia. }
  exists (h - 1 - k / (4 * w)), (k mod (4 * w)).
  split; [lia |]. split; [exact Hj |].
  replace (h - (h - 1 - k / (4 * w)) - 1) with (k / (4 * w)) by lia. nia.
Qed.


(** X27. The two modes of [saveImage] differ in the alpha channel only:
    every colour byte is the same in both images, and without
    [transparent_bg] every alpha byte is 255.  Both images have the size of
    the capture. *)
Theorem saveImage_modes_differ_in_alpha w h bits (k : nat) :
  length bits = w * h * 4 →
  length (saveImage_rbits w h false bits) = length bits
  ∧ length (saveImage_rbits w h true bits) = length bits
  ∧ (k mod 4 ≠ 3 →
     saveImage_rbits w h false bits !! k = saveImage_rbits w h true bits !! k)
  ∧ (k < w * h * 4 → k mod 4 = 3 → saveImage_rbits w h false bits !! k = Some 255%Z).
Proof.
  intros Hlen. rewrite !saveImage_rbits_length, Hlen.
  split; [reflexivity |]. split; [reflexivity |].
  assert (∀ i j, ((h - i - 1) * 4 * w + j) mod 4 = j mod 4) as Hmod.
  { intros i j. rewrite Nat.add_comm.
    replace ((h - i - 1) * 4 * w) with ((h - i - 1) * w * 4) by lia.
    apply Nat.Div0.mod_add. }
  split.
  - intros Hcolour. destruct (decide (k < w * h * 4)) as [Hk|Hk].
    + destruct (offset_in_line w h k Hk) as (i & j & Hi & Hj & ->).
      rewrite !saveImage_rbits_lookup by assumption.
      unfold line_byte. rewrite Hmod in Hcolour.
      by rewrite (proj2 (Nat.eqb_neq _ _) Hcolour).
    + rewrite !lookup_ge_None_2; [reflexivity | |]; rewrite saveImage_rbits_length; lia.
  - intros Hk Halpha.
    destruct (offset_in_line w h k Hk) as (i & j & Hi & Hj & ->).
    rewrite saveImage_rbits_lookup by assumption.
    unfold line_byte. rewrite Hmod in Halpha. by rewrite Halpha.
Qed.

End PixelsMore.

(** ** The life of the shader programs *)

Section Shaders.
Implicit Types (s : shader_state) (calls : list gl_call) (p : perspective_type).

Lemma programs_created_app calls calls' :
  programs_created (calls ++ calls') = programs_created calls ++ programs_created calls'.
Proof. unfold programs_created. by rewrite omap_app, filter_app. Qed.

Lemma programs_deleted_app calls calls' :
  programs_deleted (calls ++ calls') = programs_deleted calls ++ programs_deleted calls'.
Proof. unfold programs_deleted. by rewrite omap_app. Qed.

Lemma render_shaders_balanced p (loaded : Z) s calls :
  programs_balanced s calls →
  programs_balanced (render_shaders p loaded s).1 (calls ++ (render_shaders p loaded s).2).
Proof.
  unfold programs_balanced. intros Hb.
  assert (∀ which progs,
            programs_deleted
              (calls ++ (if bool_decide (gprog s ≠ 0%Z) then [DeleteProgram (gprog s)] else [])
                     ++ [LoadShaders progs loaded])
            ++ programs_held {| gprog := loaded; tprog := tprog s; active_gprog := which |}
            ≡ₚ programs_created
                 (calls ++ (if bool_decide (gprog s ≠ 0%Z) then [DeleteProgram (gprog s)]
                            else [])
                        ++ [LoadShaders progs loaded])) as Hreload.
  { intros which progs.
    rewrite !programs_deleted_app, !programs_created_app, <- Hb.
    unfold programs_held. cbn [gprog tprog].
    assert (programs_deleted
              (if bool_decide (gprog s ≠ 0%Z) then [DeleteProgram (gprog s)] else [])
            = filter (λ id, id ≠ 0%Z) [gprog s]
            ∧ programs_created
                (if bool_decide (gprog s ≠ 0%Z) then [DeleteProgram (gprog s)] else [])
              = []) as [-> ->].
    { unfold programs_deleted, programs_created. cbn.
      case_bool_decide; cbn; case_decide; done. }
    unfold programs_deleted at 2. unfold programs_created. cbn [omap list_omap app].
    rewrite !app_nil_r, <- !app_assoc. do 2 f_equiv.
    apply Permutation_app_comm. }
  unfold render_shaders.
  repeat case_bool_decide; cbn [orb fst snd]; rewrite ?app_nil_r; done.
Qed.

Lemma render_frames_balanced frames : ∀ s calls,
  programs_balanced s calls →
  programs_balanced (render_frames frames s).1 (calls ++ (render_frames frames s).2).
Proof.
  induction frames as [|[p loaded] frames IH]; intros s calls Hb; cbn [render_frames].
  - by rewrite app_nil_r.
  - pose proof (render_shaders_balanced p loaded s calls Hb) as Hstep.
    destruct (render_shaders p loaded s) as [s1 c1]. cbn [fst snd] in Hstep.
    specialize (IH s1 _ Hstep).
    destruct (render_frames frames s1) as [s2 c2]. cbn [fst snd] in IH |- *.
    by rewrite app_assoc.
Qed.

Lemma deconstructCommon_balanced s calls :
  programs_balanced s calls →
  programs_deleted (calls ++ (deconstructCommon s).2) ≡ₚ programs_created calls.
Proof.
  unfold programs_balanced, programs_held. intros <-.
  rewrite programs_deleted_app. f_equiv.
  unfold deconstructCommon, programs_deleted.
  repeat (case_bool_decide; cbn); repeat (case_decide; cbn); done.
Qed.

Lemma deconstructCommon_creates_nothing s : programs_created (deconstructCommon s).2 = [].
Proof. unfold deconstructCommon. by repeat (case_bool_decide; cbn). Qed.

(** X28. No shader program leaks and none is deleted twice.  Whatever
    ids the driver hands out and whatever projections the renders see,
    over the life of the object (the shader part of [init_gl], any number
    of renders, [deconstructCommon]) the programs deleted are exactly the
    programs created, each as often as it was created, and
    [glDeleteProgram] is never called with 0. *)
Theorem shader_programs_balance (loaded_g loaded_t : Z)
    (frames : list (perspective_type * Z)) :
  programs_deleted (shader_lifetime loaded_g loaded_t frames)
  ≡ₚ programs_created (shader_lifetime loaded_g loaded_t frames)
  ∧ 0%Z ∉ programs_deleted (shader_lifetime loaded_g loaded_t frames).
Proof.
  assert (programs_deleted (shader_lifetime loaded_g loaded_t frames)
          ≡ₚ programs_created (shader_lifetime loaded_g loaded_t frames)) as Hperm.
  { unfold shader_lifetime.
    assert (programs_balanced (init_gl_shaders loaded_g loaded_t).1
              (init_gl_shaders loaded_g loaded_t).2) as H0.
    { unfold programs_balanced, programs_held, programs_created. cbn.
      by repeat case_decide. }
    destruct (init_gl_shaders loaded_g loaded_t) as [s0 c0]. cbn [fst snd] in H0.
    pose proof (render_frames_balanced frames s0 c0 H0) as H1.
    destruct (render_frames frames s0) as [s1 c1]. cbn [fst snd] in H1.
    pose proof (deconstructCommon_balanced s1 _ H1) as H2.
    pose proof (deconstructCommon_creates_nothing s1) as H3.
    destruct (deconstructCommon s1) as [s2 c2]. cbn [fst snd] in H2, H3.
    rewrite app_assoc, H2, (programs_created_app (c0 ++ c1) c2), H3, app_nil_r.
    reflexivity. }
  split; [exact Hperm |].
  rewrite Hperm. unfold programs_created. intros Hin.
  by apply list_elem_of_filter in Hin as [? _].
Qed.

Lemma render_shaders_active p (loaded : Z) s :
  active_gprog (render_shaders p loaded s).1 = shader_for p.
Proof.
  unfold render_shaders.
  destruct p; cbn [orb shader_for];
    rewrite ?bool_decide_eq_true_2, ?bool_decide_eq_false_2 by done; cbn [orb];
    rewrite ?bool_decide_eq_true_2 by done;
    case_bool_decide as Ha; cbn [fst active_gprog]; try reflexivity;
    by destruct (decide (active_gprog s = graphics_shader_type.projection2d)),
         (decide (active_gprog s = graphics_shader_type.cylindrical)).
Qed.

Lemma render_shaders_at_rest p (loaded : Z) s :
  active_gprog s = shader_for p → render_shaders p loaded s = (s, []).
Proof.
  intros Ha. unfold render_shaders.
  destruct p; cbn [orb shader_for] in Ha |- *;
    rewrite ?bool_decide_eq_true_2, ?bool_decide_eq_false_2 by done; cbn [orb];
    rewrite ?bool_decide_eq_true_2 by done;
    by rewrite bool_decide_eq_false_2 by (by intros []).
Qed.

(** X29. [render] keeps the graphics shader in step with the projection
    and loads it once.  After the selection the active shader is the
    cylindrical one for the cylindrical projection and the two-dimensional
    one for the others, and a render that finds the right shader active
    makes no call and changes nothing: only a change of projection between
    the two kinds costs a reload. *)
Theorem render_shaders_selects p (loaded loaded' : Z) s :
  active_gprog (render_shaders p loaded s).1 = shader_for p
  ∧ (active_gprog s = shader_for p → render_shaders p loaded s = (s, []))
  ∧ render_shaders p loaded' (render_shaders p loaded s).1
    = ((render_shaders p loaded s).1, []).
Proof.
  split; [apply render_shaders_active |]. split; [apply render_shaders_at_rest |].
  apply render_shaders_at_rest, render_shaders_active.
Qed.

(** X30. [deconstructCommon] leaves no program behind and can run again:
    afterwards both ids are 0, and a second run (the destructor after an
    explicit call) makes no call. *)
Theorem deconstructCommon_twice s :
  gprog (deconstructCommon s).1 = 0%Z
  ∧ tprog (deconstructCommon s).1 = 0%Z
  ∧ deconstructCommon (deconstructCommon s).1 = ((deconstructCommon s).1, []).
Proof.
  unfold deconstructCommon. destruct s as [g t a].
  cbn [gprog tprog active_gprog].
  destruct (decide (g = 0%Z)) as [-> | Hg], (decide (t = 0%Z)) as [-> | Ht];
    repeat (case_bool_decide; cbn [gprog tprog active_gprog fst snd]); done.
Qed.

End Shaders.

(** ** The further theorems at concrete inputs *)

Lemma addVisualModelId_lookup_witness :
  getVisualModel (addVisualModelId (model_at 12288%Z) two_model_scene).1
    (addVisualModelId (model_at 12288%Z) two_model_scene).2 = Ok (model_at 12288%Z)
  ∧ getVisualModel 0 (addVisualModelId (model_at 12288%Z) two_model_scene).2
    = Ok (model_at 4096%Z).
Proof.
  destruct (addVisualModelId_lookup (model_at 12288%Z) two_model_scene)
    as (_ & _ & Hnew & Hold).
  split; [exact Hnew |]. apply Hold. reflexivity.
Defined.

Lemma addVisualModel_valid_witness :
  validVisualModel 4096%Z (addVisualModel (model_at 12288%Z) two_model_scene).2
  = validVisualModel 4096%Z two_model_scene.
Proof.
  destruct (addVisualModel_valid (model_at 12288%Z) two_model_scene 4096%Z)
    as (_ & _ & Hother).
  apply Hother. vm_compute. discriminate.
Defined.

Lemma removeVisualModelId_shift_witness :
  (∃ after, removeVisualModelId 1 three_model_scene = Ok after
     ∧ S (length (vm after)) = length (vm three_model_scene)
     ∧ (∀ j, j < 1 → vm after !! j = vm three_model_scene !! j)
     ∧ (∀ j, 1 ≤ j → vm after !! j = vm three_model_scene !! S j)
     ∧ selectedVisualModel after = selectedVisualModel three_model_scene)
  ∧ removeVisualModelId 3 three_model_scene = Fault out_of_range.
Proof.
  destruct (removeVisualModelId_shift 1 three_model_scene) as [Hin _].
  destruct (removeVisualModelId_shift 3 three_model_scene) as [_ Hout].
  split; [apply Hin | apply Hout]; cbn; lia.
Defined.

Lemma add_then_remove_witness :
  removeVisualModel (addVisualModel (model_at 12288%Z) two_model_scene).1
    (addVisualModel (model_at 12288%Z) two_model_scene).2 = two_model_scene.
Proof.
  destruct (add_then_remove (model_at 12288%Z) two_model_scene) as [_ Hptr].
  apply Hptr. intros Hin. vm_compute in Hin.
  repeat (apply elem_of_cons in Hin as [Hin|Hin]; [discriminate |]).
  by apply elem_of_nil in Hin.
Defined.

Lemma removeVisualModel_invalidates_witness :
  validVisualModel 8192%Z (removeVisualModel 8192%Z three_model_scene) = 0%Z
  ∧ validVisualModel 4096%Z (removeVisualModel 8192%Z three_model_scene)
    = validVisualModel 4096%Z three_model_scene.
Proof.
  destruct (removeVisualModel_invalidates 8192%Z three_model_scene 4096%Z) as [Hgone Hkept].
  - refine (bool_decide_unpack _ _). vm_compute. exact I.
  - split; [exact Hgone |]. apply Hkept. discriminate.
Defined.

Lemma key_run_stays_in_registry_witness :
  ∃ after,
    key_run glfw_keys true true two_model_scene
      [glfw_event key.f2 1 0; glfw_event key.f1 1 1; glfw_event key.right 1 1;
       glfw_event key.f9 1 0]
    = Ok after
    ∧ selectedVisualModel after < length (vm after)
    ∧ addresses after = addresses two_model_scene.
Proof.
  apply (key_run_stays_in_registry glfw_keys true). cbn. lia.
Defined.

Lemma key_run_untouched_witness :
  key_untouched two_model_scene
    (set_selectedVisualModel 1 (set_fov (f32.of_Z 28) two_model_scene)).
Proof.
  apply (key_run_untouched glfw_keys true true
           [glfw_event key.o 1 2; glfw_event key.f2 1 0] two_model_scene).
  vm_compute. reflexivity.
Defined.

Lemma key_run_quit_witness :
  readyToFinish (set_readyToFinish true fresh_scene)
  = readyToFinish fresh_scene
    || true && existsb (ctrl_pressed glfw_keys key.q)
                 [glfw_event key.o 1 2; glfw_event key.q 1 2]
  ∧ readyToFinish fresh_scene
    = readyToFinish fresh_scene
      || false && existsb (ctrl_pressed glfw_keys key.q) [glfw_event key.q 1 2].
Proof.
  split.
  - apply (key_run_quit glfw_keys true true
             [glfw_event key.o 1 2; glfw_event key.q 1 2] fresh_scene
             (set_readyToFinish true (set_fov (f32.of_Z 28) fresh_scene))).
    vm_compute. reflexivity.
  - apply (key_run_quit glfw_keys false true [glfw_event key.q 1 2] fresh_scene fresh_scene).
    vm_compute. reflexivity.
Defined.

Lemma key_callback_needs_render_witness :
  false = negb (sceneLocked fresh_scene)
          && (ctrl_pressed glfw_keys key.c (glfw_event key.u 1 2)
              || ctrl_pressed glfw_keys key.a (glfw_event key.u 1 2))
          || ctrl_pressed glfw_keys key.y (glfw_event key.u 1 2).
Proof.
  apply (key_callback_needs_render glfw_keys true true fresh_scene (glfw_event key.u 1 2)
           (set_zNear (f32.div (f32.lit 1 1000) (f32.of_Z 2)) fresh_scene) false eq_refl).
  vm_compute. reflexivity.
Defined.

Lemma ctrl_a_restores_defaults_witness :
  key_callback glfw_keys true true
    (set_scenetrans (vec3.mk (f32.of_Z 1) (f32.of_Z 2) (f32.of_Z (-3))) fresh_scene)
    (key_code glfw_keys key.a) 0 1 2
  = Ok (fresh_scene, true).
Proof.
  rewrite (ctrl_a_restores_defaults glfw_keys eq_refl true true
             (set_scenetrans (vec3.mk (f32.of_Z 1) (f32.of_Z 2) (f32.of_Z (-3))) fresh_scene)
             (glfw_event key.a 1 2)).
  - reflexivity.
  - repeat split; reflexivity.
Defined.


Lemma key_callback_fault_is_gltf_witness :
  key_callback glfw_keys true false two_model_scene (key_code glfw_keys key.m) 0 1 2
  = Fault runtime_error.
Proof.
  refine (key_callback_fault_is_gltf glfw_keys true false two_model_scene
            (glfw_event key.m 1 2) _).
  cbn. lia.
Defined.

Lemma button_press_records_start_witness :
  mousePressPosition rotating_scene = cursorpos fresh_scene
  ∧ savedRotation rotating_scene = rotation fresh_scene
  ∧ scene rotating_scene = mat44_rotate plain_ops mat44.identity (rotation fresh_scene)
  ∧ invscene rotating_scene = mat44_invert plain_ops (scene rotating_scene)
  ∧ rotation rotating_scene = rotation fresh_scene
  ∧ scenetrans rotating_scene = scenetrans fresh_scene
  ∧ cyl_cam_pos rotating_scene = cyl_cam_pos fresh_scene.
Proof.
  apply (button_press_records_start plain_ops glfw_keys fresh_scene
           (mousebutton_left glfw_keys) 0).
  reflexivity.
Defined.

Lemma button_event_modes_witness :
  rotateMode (mouse_button_callback plain_ops glfw_keys dragging_scene
                (mousebutton_right glfw_keys) glfw_release 0) = false
  ∧ translateMode (mouse_button_callback plain_ops glfw_keys dragging_scene
                     (mousebutton_right glfw_keys) glfw_release 0) = false.
Proof.
  destruct (button_event_modes plain_ops glfw_keys dragging_scene
              (mousebutton_right glfw_keys) glfw_release 0) as [_ Hrelease].
  - reflexivity.
  - right. reflexivity.
  - apply Hrelease. discriminate.
Defined.

Lemma rotate_drag_last_move_wins_witness :
  cursor_run plain_ops rotating_scene (sample_moves ++ [(f64.of_Z 7, f64.of_Z 9)])
  = (cursor_position_callback plain_ops rotating_scene (f64.of_Z 7) (f64.of_Z 9)).1.
Proof.
  apply (rotate_drag_last_move_wins plain_ops sample_moves rotating_scene
           (f64.of_Z 7, f64.of_Z 9)).
  reflexivity.
Defined.

Lemma cursor_move_by_mode_witness :
  mousePressPosition
    (cursor_position_callback plain_ops dragging_scene (f64.of_Z 100) (f64.of_Z 50)).1
  = cursorpos
      (cursor_position_callback plain_ops dragging_scene (f64.of_Z 100) (f64.of_Z 50)).1
  ∧ scenetrans
      (cursor_position_callback plain_ops rotating_scene (f64.of_Z 100) (f64.of_Z 50)).1
    = scenetrans rotating_scene.
Proof.
  destruct (cursor_move_by_mode plain_ops dragging_scene (f64.of_Z 100) (f64.of_Z 50))
    as (_ & _ & _ & _ & Htranslate).
  destruct (cursor_move_by_mode plain_ops rotating_scene (f64.of_Z 100) (f64.of_Z 50))
    as (_ & _ & Hrotate & _).
  split; [apply Htranslate; reflexivity |].
  by destruct (Hrotate eq_refl) as (? & _).
Defined.

Lemma scroll_callback_by_projection_witness :
  scroll_callback plain_ops locked_scene (f64.of_Z 0) (f64.of_Z 1) = (locked_scene, false)
  ∧ (scroll_callback plain_ops ortho_scene (f64.of_Z 0) (f64.of_Z 1)).2 = true
  ∧ scenetrans (scroll_callback plain_ops ortho_scene (f64.of_Z 0) (f64.of_Z 1)).1
    = scenetrans ortho_scene
  ∧ ortho_lb (scroll_callback plain_ops fresh_scene (f64.of_Z 0) (f64.of_Z 1)).1
    = ortho_lb fresh_scene.
Proof.
  destruct (scroll_callback_by_projection plain_ops locked_scene (f64.of_Z 0) (f64.of_Z 1))
    as [Hlocked _].
  destruct (scroll_callback_by_projection plain_ops ortho_scene (f64.of_Z 0) (f64.of_Z 1))
    as [_ Hortho].
  destruct (scroll_callback_by_projection plain_ops fresh_scene (f64.of_Z 0) (f64.of_Z 1))
    as [_ Hpersp].
  split; [apply Hlocked; reflexivity |].
  destruct (Hortho eq_refl) as (Hrender & Ho & _).
  destruct (Ho eq_refl) as (_ & Hs & _).
  destruct (Hpersp eq_refl) as (_ & _ & Hp).
  destruct Hp as [Hlb _]; [discriminate |].
  split; [exact Hrender |]. split; [exact Hs | exact Hlb].
Defined.

Lemma session_constants_hold_witness :
  ∃ after,
    deliver_all plain_ops glfw_keys true true false two_model_scene (sample_session ++ [on_close])
    = Ok after
    ∧ session_constants two_model_scene after.
Proof.
  eexists. split; [vm_compute; reflexivity |].
  apply (session_constants_hold plain_ops glfw_keys true true false
           (sample_session ++ [on_close]) two_model_scene).
  vm_compute. reflexivity.
Defined.

Lemma session_flags_witness :
  ∃ after,
    deliver_all plain_ops glfw_keys true true false
      (window_close_callback false fresh_scene) sample_session = Ok after
    ∧ readyToFinish after = true
    ∧ rotateMode after && translateMode after = false.
Proof.
  eexists. split; [vm_compute; reflexivity |].
  split.
  - eapply (proj1 (session_flags plain_ops glfw_keys true true false sample_session
                     (window_close_callback false fresh_scene) _ _)).
    reflexivity.
  - eapply (proj2 (session_flags plain_ops glfw_keys true true false sample_session
                     (window_close_callback false fresh_scene) _ _)).
    reflexivity.
  Unshelve. all: vm_compute; reflexivity.
Defined.

Lemma locked_session_keeps_view_witness :
  ∃ after,
    deliver_all plain_ops glfw_keys true true false locked_scene sample_session = Ok after
    ∧ view_kept locked_scene after ∧ sceneLocked after = true ∧ no_drag after.
Proof.
  eexists. split; [vm_compute; reflexivity |].
  apply (locked_session_keeps_view plain_ops glfw_keys true true false sample_session
           locked_scene).
  - reflexivity.
  - split; reflexivity.
  - repeat constructor.
  - vm_compute. reflexivity.
Defined.

Lemma reset_returns_to_client_view_witness :
  ∃ mid,
    deliver_all plain_ops glfw_keys true true false
      (setSceneRotation quaternion.identity
         (setSceneTrans (f32.of_Z 1) (f32.of_Z 2) (f32.of_Z (-3)) fresh_scene))
      [on_scroll (f64.of_Z 0) (f64.of_Z 1); on_key (glfw_event key.u 1 2)] = Ok mid
    ∧ ∃ after,
        key_callback glfw_keys true true mid (key_code glfw_keys key.a) 0 1 2 = Ok (after, true)
        ∧ scenetrans after = vec3.mk (f32.of_Z 1) (f32.of_Z 2) (f32.of_Z (-3))
        ∧ rotation after = quaternion.identity.
Proof.
  eexists. split; [vm_compute; reflexivity |].
  apply (reset_returns_to_client_view plain_ops glfw_keys true true false
           (f32.of_Z 1) (f32.of_Z 2) (f32.of_Z (-3)) quaternion.identity fresh_scene
           [on_scroll (f64.of_Z 0) (f64.of_Z 1); on_key (glfw_event key.u 1 2)] _
           (glfw_event key.a 1 2)).
  - reflexivity.
  - repeat split; reflexivity.
  - vm_compute. reflexivity.
  - reflexivity.
Defined.


Lemma reset_after_snapshot_witness :
  ∃ after,
    key_callback glfw_keys true true (init_gl_snapshot (file_json two_field_json) fresh_scene)
      (key_code glfw_keys key.a) 0 1 2 = Ok (after, true)
    ∧ scenetrans after = scenetrans (init_gl_snapshot (file_json two_field_json) fresh_scene)
    ∧ rotation after = rotation_default fresh_scene
    ∧ cyl_cam_pos after = cyl_cam_pos_default fresh_scene.
Proof.
  apply (reset_after_snapshot glfw_keys true true two_field_json fresh_scene
           (glfw_event key.a 1 2) eq_refl).
  - repeat split; reflexivity.
  - repeat constructor; intros j Hj; vm_compute in Hj;
      (discriminate || (injection Hj as <-; eexists; reflexivity)).
  - reflexivity.
Defined.


Lemma saveImage_modes_differ_in_alpha_witness :
  saveImage_rbits 2 2 false sample_bits !! 5 = saveImage_rbits 2 2 true sample_bits !! 5
  ∧ saveImage_rbits 2 2 false sample_bits !! 7 = Some 255%Z.
Proof.
  destruct (saveImage_modes_differ_in_alpha 2 2 sample_bits 5 eq_refl) as (_ & _ & Hcolour & _).
  destruct (saveImage_modes_differ_in_alpha 2 2 sample_bits 7 eq_refl) as (_ & _ & _ & Halpha).
  split; [apply Hcolour; cbn; lia | apply Halpha; cbn; lia].
Defined.

Lemma render_shaders_selects_witness :
  render_shaders orthographic 11 (init_gl_shaders 7 9).1 = ((init_gl_shaders 7 9).1, []).
Proof.
  destruct (render_shaders_selects orthographic 11 11 (init_gl_shaders 7 9).1)
    as (_ & Hrest & _).
  apply Hrest. reflexivity.
Defined.
